(** * ultraplan: event timeline, keystroke runs, hotkey and voice matching

    A shallow embedding of the Python sources of [ultraplan]
    ([core/events.py], [core/timeline.py], [core/session.py],
    [capture/keyboard.py], [capture/transcription.py],
    [capture/clipboard.py], [capture/audio.py], [capture/screenshot.py],
    [output/json_output.py], [output/markdown.py])
    and the properties proved about them.

    Conventions of the embedding:
    - a Python [str] is a [list ascii]; the model covers ASCII text
      (code points below 128), which is where [lower], [split], [strip]
      and the regular expressions of the sources are modelled exactly;
    - a Python [int] is a [Z];
    - [time.time()] readings are integer microseconds, so that
      [int((now - start) * 1000)] keeps its truncation; the rounding of
      floating-point arithmetic is not modelled;
    - a raised exception ([KeyError], [TypeError]) is [None];
    - callbacks are recorded as the list of calls they receive. *)

From Stdlib Require Import List ZArith Bool Ascii Lia Arith.
From Stdlib Require String DecimalString DecimalPos DecimalZ.
Import String.StringSyntax.
Delimit Scope string_scope with string.
Bind Scope string_scope with String.string.
Abbreviation string := String.string.
From Stdlib Require Import Permutation Sorted.
Import ListNotations.

Set Implicit Arguments.
Local Open Scope Z_scope.

(** ** Python strings *)

Module Py.

Definition str := list ascii.

(** A string literal of the sources. *)
Definition lit (s : string) : str := String.list_ascii_of_string s.

Definition str_eqb (a b : str) : bool :=
  if list_eq_dec ascii_dec a b then true else false.

(** [c.isspace()] on ASCII: tab, LF, VT, FF, CR, FS, GS, RS, US, space. *)
Definition isspace (c : ascii) : bool :=
  let n := nat_of_ascii c in
  ((9 <=? n) && (n <=? 13) || (28 <=? n) && (n <=? 32))%nat.

(** [c.lower()] on ASCII. *)
Definition lower_char (c : ascii) : ascii :=
  let n := nat_of_ascii c in
  if ((65 <=? n) && (n <=? 90))%nat then ascii_of_nat (n + 32) else c.

(** [s.lower()] *)
Definition lower (s : str) : str := map lower_char s.

(** [join] on the empty separator. *)
Definition join_empty (parts : list str) : str := List.concat parts.

(** [sep.join(parts)] *)
Fixpoint join (sep : str) (parts : list str) : str :=
  match parts with
  | [] => []
  | [p] => p
  | p :: rest => p ++ sep ++ join sep rest
  end.

Fixpoint dropwhile (p : ascii -> bool) (s : str) : str :=
  match s with
  | [] => []
  | c :: s' => if p c then dropwhile p s' else s
  end.

(** [s.lstrip(chars)], [s.rstrip(chars)] and [s.strip(chars)], the set of
    characters given by its membership test. *)
Definition lstrip_by (p : ascii -> bool) (s : str) : str := dropwhile p s.
Definition rstrip_by (p : ascii -> bool) (s : str) : str :=
  rev (dropwhile p (rev s)).
Definition strip_by (p : ascii -> bool) (s : str) : str :=
  rstrip_by p (lstrip_by p s).

(** [s.strip()] *)
Definition strip (s : str) : str := strip_by isspace s.

(** [s.split()]: the maximal runs of non-whitespace characters.
    [cur] is the word being read, in reverse. *)
Fixpoint split_aux (cur : str) (s : str) : list str :=
  match s with
  | [] => match cur with [] => [] | _ => [rev cur] end
  | c :: s' =>
      if isspace c
      then match cur with
           | [] => split_aux [] s'
           | _ => rev cur :: split_aux [] s'
           end
      else split_aux (c :: cur) s'
  end.

Definition split (s : str) : list str := split_aux [] s.

Fixpoint startswith (p s : str) : bool :=
  match p, s with
  | [], _ => true
  | _ :: _, [] => false
  | a :: p', b :: s' => if ascii_dec a b then startswith p' s' else false
  end.

(** [needle in hay] *)
Fixpoint contains (needle hay : str) : bool :=
  startswith needle hay ||
  match hay with
  | [] => false
  | _ :: hay' => contains needle hay'
  end.

(** Truth value of a string: non-empty. *)
Definition truthy (s : str) : bool :=
  match s with [] => false | _ => true end.

End Py.

(** ** core/events.py *)

Inductive EventType : Type :=
| SESSION_START | SESSION_END | TRANSCRIPT | KEYSTROKE | CLIPBOARD | SCREENSHOT.

Definition EventType_eqb (a b : EventType) : bool :=
  match a, b with
  | SESSION_START, SESSION_START | SESSION_END, SESSION_END
  | TRANSCRIPT, TRANSCRIPT | KEYSTROKE, KEYSTROKE
  | CLIPBOARD, CLIPBOARD | SCREENSHOT, SCREENSHOT => true
  | _, _ => false
  end.

(** The values stored in [Event.data]: strings, booleans and the
    confidence of a transcript (a number the core never inspects). *)
Inductive Value : Type :=
| VStr (s : Py.str)
| VBool (b : bool)
| VNum (n : Z).

(** [Event.data : dict[str, Any]], in insertion order. *)
Definition Dict := list (string * Value).

Fixpoint dict_get (d : Dict) (k : string) : option Value :=
  match d with
  | [] => None
  | (k', v) :: d' => if String.eqb k k' then Some v else dict_get d' k
  end.

Record Event : Type := mkEvent {
  type : EventType;
  timestamp_ms : Z;
  data : Dict
}.

Definition TranscriptEvent (ts : Z) (text : Py.str) (confidence : Z)
    (is_partial : bool) : Event :=
  mkEvent TRANSCRIPT ts
    [("text", VStr text); ("confidence", VNum confidence);
     ("is_partial", VBool is_partial)]%string.

Definition KeystrokeEvent (ts : Z) (key : Py.str) (is_special : bool) : Event :=
  mkEvent KEYSTROKE ts [("key", VStr key); ("is_special", VBool is_special)]%string.

Definition ClipboardEvent (ts : Z) (content content_type : Py.str) : Event :=
  mkEvent CLIPBOARD ts
    [("content", VStr content); ("content_type", VStr content_type)]%string.

Definition ScreenshotEvent (ts : Z) (filename trigger : Py.str) : Event :=
  mkEvent SCREENSHOT ts
    [("filename", VStr filename); ("trigger", VStr trigger)]%string.

(** [event.data["key"]] as a string; [None] when the key is missing
    ([KeyError]) or is not a string (the later [join] raises). *)
Definition data_str (e : Event) (k : string) : option Py.str :=
  match dict_get (data e) k with
  | Some (VStr s) => Some s
  | _ => None
  end.

(** [event.data["is_special"]]; [None] on [KeyError].  The value is only
    stored, so any value is accepted. *)
Definition data_any (e : Event) (k : string) : option Value :=
  dict_get (data e) k.

Definition is_keystroke (e : Event) : bool := EventType_eqb (type e) KEYSTROKE.

(** ** output/json_output.py: keystroke sequences *)

Module Json.

(** One reconstructed sequence:
    [{"type": "keystroke_sequence", "timestamp_ms": ..., "data":
      {"keys": [...], "reconstructed": the keys joined}}]. *)
Record Sequence : Type := mkSequence {
  seq_timestamp_ms : Z;
  seq_keys : list Py.str;
  seq_reconstructed : Py.str
}.

Definition close (start : Z) (keys : list Py.str) : Sequence :=
  mkSequence start keys (Py.join_empty keys).

(** The loop state: [sequences], [current_keys], [current_start]. *)
Record LoopState : Type := mkLoop {
  sequences : list Sequence;
  current_keys : list Py.str;
  current_start : Z
}.

(** One iteration of [for event in keystroke_events]. *)
Definition loop_body (st : LoopState) (event : Event) : option LoopState :=
  match data_str event "key" with
  | None => None
  | Some key =>
      let st1 :=
        match current_keys st with
        | _ :: _ =>
            if timestamp_ms event - current_start st >? 2000
            then mkLoop (sequences st ++ [close (current_start st) (current_keys st)])
                        [] (timestamp_ms event)
            else st
        | [] => st
        end in
      let st2 :=
        match current_keys st1 with
        | [] => mkLoop (sequences st1) [] (timestamp_ms event)
        | _ :: _ => st1
        end in
      Some (mkLoop (sequences st2) (current_keys st2 ++ [key]) (current_start st2))
  end.

Fixpoint loop (st : LoopState) (events : list Event) : option LoopState :=
  match events with
  | [] => Some st
  | e :: rest =>
      match loop_body st e with
      | None => None
      | Some st' => loop st' rest
      end
  end.

Definition _reconstruct_keystroke_sequences (events : list Event)
    : option (list Sequence) :=
  match filter is_keystroke events with
  | [] => Some []
  | (first :: _) as keystroke_events =>
      match loop (mkLoop [] [] (timestamp_ms first)) keystroke_events with
      | None => None
      | Some st =>
          match current_keys st with
          | [] => Some (sequences st)
          | _ :: _ =>
              Some (sequences st ++ [close (current_start st) (current_keys st)])
          end
      end
  end.

End Json.

(** ** output/markdown.py: keystroke sequences *)

Module Markdown.

(** [_keys_to_text]: both branches append the key itself. *)
Fixpoint _keys_to_text (keys : list (Py.str * Value)) : Py.str :=
  match keys with
  | [] => []
  | (key, _) :: rest => key ++ _keys_to_text rest
  end.

Record LoopState : Type := mkLoop {
  sequences : list (Z * Py.str);
  current_seq : list (Py.str * Value);
  current_start : Z
}.

(** [if reconstructed.strip(): sequences.append((current_start, reconstructed))] *)
Definition append_if_visible (seqs : list (Z * Py.str)) (start : Z)
    (current : list (Py.str * Value)) : list (Z * Py.str) :=
  let reconstructed := _keys_to_text current in
  if Py.truthy (Py.strip reconstructed)
  then seqs ++ [(start, reconstructed)]
  else seqs.

Definition loop_body (st : LoopState) (event : Event) : option LoopState :=
  match data_str event "key" with
  | None => None
  | Some key =>
      match data_any event "is_special" with
      | None => None
      | Some is_special =>
          let st1 :=
            match current_seq st with
            | _ :: _ =>
                if timestamp_ms event - current_start st >? 2000
                then mkLoop (append_if_visible (sequences st) (current_start st)
                               (current_seq st))
                            [] (timestamp_ms event)
                else st
            | [] => st
            end in
          let st2 :=
            match current_seq st1 with
            | [] => mkLoop (sequences st1) [] (timestamp_ms event)
            | _ :: _ => st1
            end in
          Some (mkLoop (sequences st2) (current_seq st2 ++ [(key, is_special)])
                  (current_start st2))
      end
  end.

Fixpoint loop (st : LoopState) (events : list Event) : option LoopState :=
  match events with
  | [] => Some st
  | e :: rest =>
      match loop_body st e with
      | None => None
      | Some st' => loop st' rest
      end
  end.

Definition _reconstruct_keystrokes (events : list Event)
    : option (list (Z * Py.str)) :=
  match filter is_keystroke events with
  | [] => Some []
  | (first :: _) as keystroke_events =>
      match loop (mkLoop [] [] (timestamp_ms first)) keystroke_events with
      | None => None
      | Some st =>
          match current_seq st with
          | [] => Some (sequences st)
          | _ :: _ =>
              Some (append_if_visible (sequences st) (current_start st)
                      (current_seq st))
          end
      end
  end.

End Markdown.

(** ** Keystroke runs: what the two reconstruction passes compute *)

Section KeystrokeRuns.

(** The keys of a block of keystroke events, [None] if one has no string
    under ["key"]. *)
Fixpoint keys_of (events : list Event) : option (list Py.str) :=
  match events with
  | [] => Some []
  | e :: rest =>
      match data_str e "key", keys_of rest with
      | Some k, Some ks => Some (k :: ks)
      | _, _ => None
      end
  end.

(** [Runs events runs]: [runs] cuts [events] into consecutive blocks; a
    block holds its first event and the events after it that are at most
    2000 ms later than that FIRST event, and stops at the first event
    that is later than that (or at the end of the stream). *)
Inductive Runs : list Event -> list Json.Sequence -> Prop :=
| Runs_nil : Runs [] []
| Runs_cons (e : Event) (grp rest : list Event) (keys : list Py.str)
    (runs : list Json.Sequence) :
    keys_of (e :: grp) = Some keys ->
    Forall (fun e' => timestamp_ms e' - timestamp_ms e <= 2000) grp ->
    (forall e', hd_error rest = Some e' ->
                timestamp_ms e' - timestamp_ms e > 2000) ->
    Runs rest runs ->
    Runs (e :: grp ++ rest) (Json.close (timestamp_ms e) keys :: runs).

(** The grouping as the specification words it: a run is extended while
    the gap to its LAST event is at most 2000 ms.  [last] is the
    timestamp of the run's last event, [start] and [keys] its start and
    keys so far. *)
Fixpoint spec_runs_from (start last : Z) (keys : list Py.str)
    (events : list (Z * Py.str)) : list Json.Sequence :=
  match events with
  | [] => [Json.close start keys]
  | (t, k) :: rest =>
      if t - last <=? 2000
      then spec_runs_from start t (keys ++ [k]) rest
      else Json.close start keys :: spec_runs_from t t [k] rest
  end.

Definition spec_runs (events : list (Z * Py.str)) : list Json.Sequence :=
  match events with
  | [] => []
  | (t, k) :: rest => spec_runs_from t t [k] rest
  end.

(** What the narrative report keeps of the structured report's runs:
    start and text of the runs whose text has a non-whitespace character. *)
Definition visible (runs : list Json.Sequence) : list (Z * Py.str) :=
  filter (fun p => Py.truthy (Py.strip (snd p)))
         (map (fun s => (Json.seq_timestamp_ms s, Json.seq_reconstructed s)) runs).

(** Every keystroke event carries a string ["key"] and an ["is_special"],
    as the events built by [KeystrokeEvent] do. *)
Definition well_formed_keystroke (e : Event) : Prop :=
  is_keystroke e = true ->
  (exists k, data_str e "key" = Some k) /\
  (exists v, data_any e "is_special" = Some v).

(** The two loop states describe the same runs. *)
Definition same_runs (m : Markdown.LoopState) (j : Json.LoopState) : Prop :=
  Markdown.sequences m = visible (Json.sequences j) /\
  map fst (Markdown.current_seq m) = Json.current_keys j /\
  Markdown.current_start m = Json.current_start j.

End KeystrokeRuns.

(** ** Python built-ins used by the sources *)

(** [sorted(xs, key=key)]: Python's sort is stable; the model inserts each
    element, from the last to the first, before the first element whose
    key is not smaller. *)
Fixpoint sorted_insert (A : Type) (key : A -> Z) (x : A) (l : list A) : list A :=
  match l with
  | [] => [x]
  | y :: l' => if key x <=? key y then x :: l else y :: sorted_insert key x l'
  end.

Fixpoint py_sorted (A : Type) (key : A -> Z) (l : list A) : list A :=
  match l with
  | [] => []
  | x :: l' => sorted_insert key x (py_sorted key l')
  end.

(** [xs[-n:]] *)
Definition slice_last (A : Type) (n : nat) (l : list A) : list A :=
  match n with
  | O => l
  | _ => skipn (List.length l - n) l
  end.

(** [str(n)] for an integer. *)
Definition str_of_Z (n : Z) : Py.str :=
  String.list_ascii_of_string (DecimalString.NilZero.string_of_int (Z.to_int n)).

(** [int(x * 1000)] for a duration [x] in seconds, given here as a whole
    number of microseconds: truncation toward zero.  The sources compute
    [x * 1000] on floating-point numbers, whose rounding is not
    modelled: the value is the one of the code whenever that product is
    exact, and nothing below depends on more than that. *)
Definition ms_of_us (us : Z) : Z := Z.quot us 1000.

(** ** core/timeline.py *)

Record Timeline : Type := mkTimeline {
  session_id : Py.str;
  started_at : option Z;      (* datetime, microseconds *)
  ended_at : option Z;
  start_time : Z;             (* time.time(), microseconds *)
  events : list Event
}.

(** [Timeline()] *)
Definition Timeline_new : Timeline := mkTimeline [] None None 0 [].

(** [start]: [now] is [time.time()], [now_dt] is [datetime.now()] and
    [sid] its rendering by [strftime("session_%Y%m%d_%H%M%S")]. *)
Definition Timeline_start (now now_dt : Z) (sid : Py.str) (tl : Timeline)
    : Timeline :=
  mkTimeline sid (Some now_dt) (ended_at tl) now (events tl).

(** [stop]: [now_dt] is [datetime.now()]. *)
Definition Timeline_stop (now_dt : Z) (tl : Timeline) : Timeline :=
  mkTimeline (session_id tl) (started_at tl) (Some now_dt) (start_time tl)
    (events tl).

(** [get_timestamp_ms]: [now] is [time.time()]; the scaling to
    milliseconds is [ms_of_us], with its caveat. *)
Definition get_timestamp_ms (now : Z) (tl : Timeline) : Z :=
  ms_of_us (now - start_time tl).

Definition add_event (e : Event) (tl : Timeline) : Timeline :=
  mkTimeline (session_id tl) (started_at tl) (ended_at tl) (start_time tl)
    (events tl ++ [e]).

(** [duration_ms]; [total_seconds() * 1000] is scaled by [ms_of_us],
    with its caveat. *)
Definition duration_ms (now : Z) (tl : Timeline) : Z :=
  match ended_at tl, started_at tl with
  | Some e, Some s => ms_of_us (e - s)
  | _, Some _ => get_timestamp_ms now tl
  | _, None => 0
  end.

Definition get_events_by_type (ty : EventType) (tl : Timeline) : list Event :=
  filter (fun e => EventType_eqb (type e) ty) (events tl).

(** The ordering both report generators work on:
    [sorted(self.timeline.events, key=lambda e: e.timestamp_ms)]. *)
Definition chronological (tl : Timeline) : list Event :=
  py_sorted timestamp_ms (events tl).

(** ** capture/keyboard.py *)

Module Keyboard.

(** A pynput key: a [KeyCode] with its character and virtual key code, a
    [Key] of the enumeration of special keys, or any other object, given
    by its [str()]. *)
Inductive PynputKey : Type :=
| KeyCode (char : option Py.str) (vk : option Z)
| Key (name : Py.str)
| Other (repr : Py.str).

(** The calls received by the two callbacks. *)
Inductive Call : Type :=
| on_keystroke_call (key : Py.str) (timestamp_ms : Z) (is_special : bool)
| on_hotkey_call (hotkey : Py.str).

Record KeyboardCapture : Type := mkCapture {
  on_keystroke : bool;        (* a callback is set *)
  on_hotkey : bool;
  hotkey_timeout : Z;         (* microseconds *)
  hotkey_screenshot : Py.str;
  listener : bool;            (* a listener is running *)
  start_time : Z;
  key_buffer : list (Py.str * Z);
  total_keystrokes : Z;
  hotkeys_triggered : Z
}.

(** [KeyboardCapture(on_keystroke, on_hotkey, hotkey_timeout, hotkey_screenshot)] *)
Definition new (on_keystroke on_hotkey : bool) (hotkey_timeout : Z)
    (hotkey_screenshot : Py.str) : KeyboardCapture :=
  mkCapture on_keystroke on_hotkey hotkey_timeout hotkey_screenshot
    false 0 [] 0 0.

Definition set_buffer (kc : KeyboardCapture) (b : list (Py.str * Z))
    : KeyboardCapture :=
  mkCapture (on_keystroke kc) (on_hotkey kc) (hotkey_timeout kc)
    (hotkey_screenshot kc) (listener kc) (start_time kc) b
    (total_keystrokes kc) (hotkeys_triggered kc).

Definition _get_key_str (key : PynputKey) : Py.str * bool :=
  match key with
  | KeyCode char vk =>
      match char with
      | Some (c :: cs) => (c :: cs, false)
      | _ =>
          (Py.lit "<vk:" ++
             match vk with Some n => str_of_Z n | None => Py.lit "None" end ++
             Py.lit ">", true)
      end
  | Key name => (Py.lit "<" ++ name ++ Py.lit ">", true)
  | Other repr => (repr, true)
  end.

Definition _check_hotkey (kc : KeyboardCapture) (current_time : Z)
    : KeyboardCapture * option Py.str :=
  let buffer :=
    filter (fun kt => current_time - snd kt <? hotkey_timeout kc)
           (key_buffer kc) in
  let kc' := set_buffer kc buffer in
  let n := List.length (hotkey_screenshot kc) in
  if (n <=? List.length buffer)%nat
  then
    let recent_keys := Py.join_empty (map fst (slice_last n buffer)) in
    if Py.str_eqb recent_keys (hotkey_screenshot kc)
    then (kc', Some (Py.lit "screenshot"))
    else (kc', None)
  else (kc', None).

(** [_on_press]: [current_time] is the reading of [time.time()]. *)
Definition _on_press (kc : KeyboardCapture) (key : PynputKey)
    (current_time : Z) : KeyboardCapture * list Call :=
  let (key_str, is_special) := _get_key_str key in
  let kc1 :=
    mkCapture (on_keystroke kc) (on_hotkey kc) (hotkey_timeout kc)
      (hotkey_screenshot kc) (listener kc) (start_time kc) (key_buffer kc)
      (total_keystrokes kc + 1) (hotkeys_triggered kc) in
  let timestamp_ms := ms_of_us (current_time - start_time kc1) in
  let report (k : KeyboardCapture) :=
    if on_keystroke k
    then (k, [on_keystroke_call key_str timestamp_ms is_special])
    else (k, []) in
  if negb is_special
  then
    let kc2 := set_buffer kc1 (key_buffer kc1 ++ [(key_str, current_time)]) in
    let (kc3, matched_hotkey) := _check_hotkey kc2 current_time in
    match matched_hotkey with
    | Some name =>
        if Py.truthy name && on_hotkey kc3
        then
          let kc4 :=
            mkCapture (on_keystroke kc3) (on_hotkey kc3) (hotkey_timeout kc3)
              (hotkey_screenshot kc3) (listener kc3) (start_time kc3) []
              (total_keystrokes kc3) (hotkeys_triggered kc3 + 1) in
          (kc4, [on_hotkey_call name])
        else report kc3
    | None => report kc3
    end
  else report kc1.

(** [start] and [stop]; the listener thread itself is not modelled. *)
Definition start (kc : KeyboardCapture) (start_time : Z) : KeyboardCapture :=
  mkCapture (on_keystroke kc) (on_hotkey kc) (hotkey_timeout kc)
    (hotkey_screenshot kc) true start_time (key_buffer kc)
    (total_keystrokes kc) (hotkeys_triggered kc).

Definition stop (kc : KeyboardCapture) : KeyboardCapture :=
  if listener kc
  then mkCapture (on_keystroke kc) (on_hotkey kc) (hotkey_timeout kc)
         (hotkey_screenshot kc) false (start_time kc) (key_buffer kc)
         (total_keystrokes kc) (hotkeys_triggered kc)
  else kc.

(** The listener delivering a stream of key presses, each with the clock
    reading taken in [_on_press]. *)
Fixpoint press_all (kc : KeyboardCapture) (presses : list (PynputKey * Z))
    : KeyboardCapture * list Call :=
  match presses with
  | [] => (kc, [])
  | (key, t) :: rest =>
      let (kc1, calls1) := _on_press kc key t in
      let (kc2, calls2) := press_all kc1 rest in
      (kc2, calls1 ++ calls2)
  end.

Definition is_hotkey_call (c : Call) : bool :=
  match c with on_hotkey_call _ => true | _ => false end.

(** A plain character key. *)
Definition plain (c : Py.str) : PynputKey := KeyCode (Some c) None.

End Keyboard.

(** ** core/session.py: the voice command matcher *)

Module Voice.

(** The inner loop of [edit_distance]: [j] is the column, [curr_row] the
    row under construction. *)
Fixpoint inner_loop (c1 : ascii) (s2 : Py.str) (j : nat)
    (prev_row curr_row : list nat) : list nat :=
  match s2 with
  | [] => curr_row
  | c2 :: s2' =>
      let insertions := (nth (j + 1) prev_row 0 + 1)%nat in
      let deletions := (nth j curr_row 0 + 1)%nat in
      let substitutions :=
        (nth j prev_row 0 + (if ascii_dec c1 c2 then 0 else 1))%nat in
      inner_loop c1 s2' (S j) prev_row
        (curr_row ++ [Nat.min insertions (Nat.min deletions substitutions)])
  end.

(** The outer loop: [i] is the row. *)
Fixpoint outer_loop (s1 : Py.str) (i : nat) (s2 : Py.str)
    (prev_row : list nat) : list nat :=
  match s1 with
  | [] => prev_row
  | c1 :: s1' =>
      outer_loop s1' (S i) s2 (inner_loop c1 s2 0 prev_row [(i + 1)%nat])
  end.

Definition edit_distance (s1 s2 : Py.str) : nat :=
  let (s1, s2) :=
    if (List.length s1 <? List.length s2)%nat then (s2, s1) else (s1, s2) in
  if (List.length s2 =? 0)%nat
  then List.length s1
  else last (outer_loop s1 0 s2 (seq 0 (List.length s2 + 1))) 0%nat.

(** The characters stripped from a word: period, comma, exclamation and
    question marks, semicolon, colon, single and double quote. *)
Definition is_punct (c : ascii) : bool :=
  existsb (fun p => if ascii_dec c p then true else false)
    (Py.lit ".,!?;:'" ++ [ascii_of_nat 34]).

(** [abs(len(a) - len(b))] *)
Definition len_diff (a b : Py.str) : Z :=
  Z.abs (Z.of_nat (List.length a) - Z.of_nat (List.length b)).

(** The test made on one word of the text, after [lower] and [split]. *)
Definition word_matches (target_lower : Py.str) (threshold : Z) (word : Py.str)
    : bool :=
  let word := Py.strip_by is_punct word in
  if len_diff word target_lower >? threshold
  then false
  else Z.of_nat (edit_distance word target_lower) <=? threshold.

Definition _sounds_like (text target : Py.str) (threshold : Z) : bool :=
  let target_lower := Py.lower target in
  existsb (word_matches target_lower threshold) (Py.split (Py.lower text)).

End Voice.

(** ** Regular expressions of [_filter_voice_commands] *)

Module Re.

(** [\w] on ASCII: letters, digits and the underscore. *)
Definition is_word_char (c : ascii) : bool :=
  let n := nat_of_ascii c in
  ((48 <=? n) && (n <=? 57) || (65 <=? n) && (n <=? 90) ||
   (97 <=? n) && (n <=? 122) || (n =? 95))%nat.

Definition is_word_opt (c : option ascii) : bool :=
  match c with Some c => is_word_char c | None => false end.

(** [\b] between the character before and the character after a
    position ([None] at the ends of the string). *)
Definition boundary (before after : option ascii) : bool :=
  xorb (is_word_opt before) (is_word_opt after).

(** The literal [word] read at the head of [s] under [re.IGNORECASE]:
    the last character read and what follows it. *)
Fixpoint match_literal (word s : Py.str) (prev : option ascii)
    : option (option ascii * Py.str) :=
  match word with
  | [] => Some (prev, s)
  | p :: word' =>
      match s with
      | [] => None
      | c :: s' =>
          if ascii_dec (Py.lower_char p) (Py.lower_char c)
          then match_literal word' s' (Some c)
          else None
      end
  end.

(** [[,.\s]*], greedy: the last character read and what follows it. *)
Definition is_trail (c : ascii) : bool :=
  (if ascii_dec c "," then true else false) ||
  (if ascii_dec c "." then true else false) || Py.isspace c.

Fixpoint match_trail (s : Py.str) (prev : option ascii)
    : option ascii * Py.str :=
  match s with
  | c :: s' => if is_trail c then match_trail s' (Some c) else (prev, s)
  | [] => (prev, s)
  end.

(** The pattern [\bWORD\b[,.\s]*] at the head of [s], [prev] being the
    character before it. *)
Definition match_here (word s : Py.str) (prev : option ascii)
    : option (option ascii * Py.str) :=
  if boundary prev (hd_error s)
  then
    match match_literal word s prev with
    | Some (last_read, rest) =>
        if boundary last_read (hd_error rest)
        then Some (match_trail rest last_read)
        else None
    | None => None
    end
  else None.

(** [re.sub(pattern, empty, s, flags=re.IGNORECASE)] for a non-empty
    [word]: the leftmost match is deleted and the scan goes on after it.
    [fuel] bounds the number of steps; the length of [s] is enough. *)
Fixpoint sub_word_from (fuel : nat) (word s : Py.str) (prev : option ascii)
    : Py.str :=
  match fuel with
  | O => s
  | S fuel' =>
      match s with
      | [] => []
      | c :: s' =>
          match match_here word s prev with
          | Some (last_read, rest) => sub_word_from fuel' word rest last_read
          | None => c :: sub_word_from fuel' word s' (Some c)
          end
      end
  end.

Definition sub_word (word s : Py.str) : Py.str :=
  sub_word_from (List.length s) word s None.

(** [re.sub(r"\s+", " ", s)]: [in_ws] tells that the character before
    was whitespace, already replaced. *)
Fixpoint sub_spaces_from (in_ws : bool) (s : Py.str) : Py.str :=
  match s with
  | [] => []
  | c :: s' =>
      if Py.isspace c
      then if in_ws then sub_spaces_from true s'
           else " "%char :: sub_spaces_from true s'
      else c :: sub_spaces_from false s'
  end.

Definition sub_spaces (s : Py.str) : Py.str := sub_spaces_from false s.

End Re.

(** ** config.py *)

(** The fields of [SessionConfig] the core reads; durations are in
    microseconds.  [output_dir], [audio_buffer_duration] and
    [clipboard_poll_interval] only reach the capture collaborators. *)
Record SessionConfig : Type := mkConfig {
  whisper_model : Py.str;
  sample_rate : Z;
  audio_device : option Py.str;
  hotkey_screenshot : Py.str;
  hotkey_timeout : Z;
  voice_trigger : Py.str;
  voice_stop : Py.str;
  vocabulary_boost : option (list Py.str);
  enable_keylogging : bool;
  enable_clipboard : bool;
  save_audio : bool
}.

(** [SessionConfig()] *)
Definition default_config : SessionConfig :=
  mkConfig (Py.lit "base") 16000 None (Py.lit "jj") 500000
    (Py.lit "marco") (Py.lit "finito") None true true true.

(** ** core/session.py: the recording session *)

Module Session.

(** [f"{n:06d}"] and [f"{n:02d}"]: the decimal digits, zero-padded to
    [width] characters, the sign counted in the width. *)
Definition zero_pad (width : nat) (n : Z) : Py.str :=
  let digits := str_of_Z (Z.abs n) in
  if n <? 0
  then "-"%char :: repeat "0"%char (width - 1 - List.length digits) ++ digits
  else repeat "0"%char (width - List.length digits) ++ digits.

(** What the session does to the outside: sounds, notifications and the
    files it writes.  What it prints on the console is left out. *)
Inductive Effect : Type :=
| play_sound (name : Py.str)
| notify_screenshot_taken (filename : Py.str)
| write_file (name : Py.str).

(** The capture modules are kept by what the session needs of them:
    [audio_stream] is [None] without an [AudioCapture] and tells
    otherwise whether its stream is open, [worker_model] the same for the
    [TranscriptionWorker] and its loaded model, [clipboard_thread] for
    the [ClipboardMonitor] and its thread; the keyboard capture is kept
    in full.  [consumer_alive] and [audio_alive] tell that the thread was
    started and has not returned.  The display thread and the
    display-only fields ([last_screenshot_time], [last_clipboard_time])
    are left out, and [audio_chunks] is the number of chunks held. *)
Record RecordingSession : Type := mkSession {
  config : SessionConfig;
  timeline : Timeline;
  event_queue : list Event;
  running : bool;
  audio_stream : option bool;
  worker_model : option bool;
  keyboard_capture : option Keyboard.KeyboardCapture;
  clipboard_thread : option bool;
  screenshot_capture : bool;
  consumer_alive : bool;
  audio_alive : bool;
  session_dir : option Py.str;
  audio_chunks : nat;
  transcript_lines : list Py.str;
  full_transcript : Py.str;
  screenshots : list Py.str;
  last_screenshot_trigger : Py.str;
  clipboard_count : Z;
  _voice_stop_requested : bool
}.

(** [RecordingSession(config)] *)
Definition new (cfg : SessionConfig) : RecordingSession :=
  mkSession cfg Timeline_new [] false None None None None false false false
    None 0 [] [] [] [] 0 false.

(** Field updates. *)
Definition set_timeline (s : RecordingSession) (tl : Timeline) :=
  mkSession (config s) tl (event_queue s) (running s) (audio_stream s)
    (worker_model s) (keyboard_capture s) (clipboard_thread s)
    (screenshot_capture s) (consumer_alive s) (audio_alive s) (session_dir s)
    (audio_chunks s) (transcript_lines s) (full_transcript s) (screenshots s)
    (last_screenshot_trigger s) (clipboard_count s) (_voice_stop_requested s).

Definition set_queue (s : RecordingSession) (q : list Event) :=
  mkSession (config s) (timeline s) q (running s) (audio_stream s)
    (worker_model s) (keyboard_capture s) (clipboard_thread s)
    (screenshot_capture s) (consumer_alive s) (audio_alive s) (session_dir s)
    (audio_chunks s) (transcript_lines s) (full_transcript s) (screenshots s)
    (last_screenshot_trigger s) (clipboard_count s) (_voice_stop_requested s).

Definition set_running (s : RecordingSession) (b : bool) :=
  mkSession (config s) (timeline s) (event_queue s) b (audio_stream s)
    (worker_model s) (keyboard_capture s) (clipboard_thread s)
    (screenshot_capture s) (consumer_alive s) (audio_alive s) (session_dir s)
    (audio_chunks s) (transcript_lines s) (full_transcript s) (screenshots s)
    (last_screenshot_trigger s) (clipboard_count s) (_voice_stop_requested s).

Definition set_captures (s : RecordingSession) (audio : option bool)
    (kc : option Keyboard.KeyboardCapture) (clip : option bool) :=
  mkSession (config s) (timeline s) (event_queue s) (running s) audio
    (worker_model s) kc clip
    (screenshot_capture s) (consumer_alive s) (audio_alive s) (session_dir s)
    (audio_chunks s) (transcript_lines s) (full_transcript s) (screenshots s)
    (last_screenshot_trigger s) (clipboard_count s) (_voice_stop_requested s).

Definition set_threads (s : RecordingSession) (consumer audio : bool) :=
  mkSession (config s) (timeline s) (event_queue s) (running s)
    (audio_stream s) (worker_model s) (keyboard_capture s)
    (clipboard_thread s) (screenshot_capture s) consumer audio (session_dir s)
    (audio_chunks s) (transcript_lines s) (full_transcript s) (screenshots s)
    (last_screenshot_trigger s) (clipboard_count s) (_voice_stop_requested s).

Definition set_transcript_lines (s : RecordingSession) (l : list Py.str) :=
  mkSession (config s) (timeline s) (event_queue s) (running s)
    (audio_stream s) (worker_model s) (keyboard_capture s)
    (clipboard_thread s) (screenshot_capture s) (consumer_alive s)
    (audio_alive s) (session_dir s) (audio_chunks s) l (full_transcript s)
    (screenshots s) (last_screenshot_trigger s) (clipboard_count s)
    (_voice_stop_requested s).

Definition set_full_transcript (s : RecordingSession) (t : Py.str) :=
  mkSession (config s) (timeline s) (event_queue s) (running s)
    (audio_stream s) (worker_model s) (keyboard_capture s)
    (clipboard_thread s) (screenshot_capture s) (consumer_alive s)
    (audio_alive s) (session_dir s) (audio_chunks s) (transcript_lines s) t
    (screenshots s) (last_screenshot_trigger s) (clipboard_count s)
    (_voice_stop_requested s).

Definition set_screenshots (s : RecordingSession) (l : list Py.str)
    (trigger : Py.str) :=
  mkSession (config s) (timeline s) (event_queue s) (running s)
    (audio_stream s) (worker_model s) (keyboard_capture s)
    (clipboard_thread s) (screenshot_capture s) (consumer_alive s)
    (audio_alive s) (session_dir s) (audio_chunks s) (transcript_lines s)
    (full_transcript s) l trigger (clipboard_count s)
    (_voice_stop_requested s).

Definition set_clipboard_count (s : RecordingSession) (n : Z) :=
  mkSession (config s) (timeline s) (event_queue s) (running s)
    (audio_stream s) (worker_model s) (keyboard_capture s)
    (clipboard_thread s) (screenshot_capture s) (consumer_alive s)
    (audio_alive s) (session_dir s) (audio_chunks s) (transcript_lines s)
    (full_transcript s) (screenshots s) (last_screenshot_trigger s) n
    (_voice_stop_requested s).

Definition set_voice_stop_requested (s : RecordingSession) (b : bool) :=
  mkSession (config s) (timeline s) (event_queue s) (running s)
    (audio_stream s) (worker_model s) (keyboard_capture s)
    (clipboard_thread s) (screenshot_capture s) (consumer_alive s)
    (audio_alive s) (session_dir s) (audio_chunks s) (transcript_lines s)
    (full_transcript s) (screenshots s) (last_screenshot_trigger s)
    (clipboard_count s) b.

(** [self.event_queue.put(e)] *)
Definition put (e : Event) (s : RecordingSession) : RecordingSession :=
  set_queue s (event_queue s ++ [e]).

(** [ScreenshotCapture.capture] returns the name of the file it saves;
    the grab of the screen and the PNG it writes are recorded as a
    [write_file] effect where it is called.  The grab is taken to
    succeed: an exception raised by the screen library is not
    modelled. *)
Definition capture (timestamp_ms : Z) : Py.str :=
  Py.lit "img_" ++ zero_pad 6 timestamp_ms ++ Py.lit ".png".

(** [_capture_screenshot]: [now] is the clock read by
    [get_timestamp_ms]. *)
Definition _capture_screenshot (s : RecordingSession) (trigger : Py.str)
    (now : Z) : RecordingSession * option Py.str * list Effect :=
  if negb (screenshot_capture s)
  then (s, None, [])
  else
    let timestamp_ms := get_timestamp_ms now (timeline s) in
    let filename := capture timestamp_ms in
    let s1 := put (ScreenshotEvent timestamp_ms filename trigger) s in
    let s2 := set_screenshots s1 (screenshots s1 ++ [filename]) trigger in
    (s2, Some filename, [write_file filename; notify_screenshot_taken filename]).

(** [_on_transcript]: [now] is the clock read for the transcript event,
    [now_shot] the one read if a screenshot is taken. *)
Definition _on_transcript (s : RecordingSession) (text : Py.str)
    (confidence : Z) (is_partial : bool) (now now_shot : Z)
    : RecordingSession * list Effect :=
  let timestamp_ms := get_timestamp_ms now (timeline s) in
  let s1 := put (TranscriptEvent timestamp_ms text confidence is_partial) s in
  if negb is_partial
  then
    let s2 := set_transcript_lines s1 (transcript_lines s1 ++ [text]) in
    let trigger_word := Py.lower (voice_trigger (config s2)) in
    let '(s3, effects3) :=
      if Py.truthy trigger_word && Py.contains trigger_word (Py.lower text)
      then
        let '(s', _, eff) :=
          _capture_screenshot s2 (Py.lit "voice:" ++ trigger_word) now_shot in
        (s', eff)
      else (s2, []) in
    let stop_phrase := voice_stop (config s3) in
    if Py.truthy stop_phrase && Voice._sounds_like text stop_phrase 2
    then (set_voice_stop_requested s3 true,
          effects3 ++ [play_sound (Py.lit "Purr")])
    else (s3, effects3)
  else (s1, []).

Definition _on_keystroke (s : RecordingSession) (key : Py.str)
    (timestamp_ms : Z) (is_special : bool) : RecordingSession :=
  put (KeystrokeEvent timestamp_ms key is_special) s.

(** [_on_hotkey]: [now] is the clock read if a screenshot is taken. *)
Definition _on_hotkey (s : RecordingSession) (hotkey : Py.str) (now : Z)
    : RecordingSession * list Effect :=
  if Py.str_eqb hotkey (Py.lit "screenshot")
  then let '(s', _, eff) := _capture_screenshot s (Py.lit "hotkey") now in
       (s', eff)
  else (s, []).

Definition _on_clipboard_change (s : RecordingSession) (content : Py.str)
    (timestamp_ms : Z) : RecordingSession :=
  let s1 := put (ClipboardEvent timestamp_ms content (Py.lit "text")) s in
  set_clipboard_count s1 (clipboard_count s1 + 1).

Definition _on_clipboard_image (s : RecordingSession) (timestamp_ms : Z)
    : RecordingSession * list Effect :=
  match session_dir s with
  | None => (s, [])
  | Some _ =>
      let filename := Py.lit "clip_" ++ zero_pad 6 timestamp_ms ++ Py.lit ".png" in
      let s1 := put (ScreenshotEvent timestamp_ms filename (Py.lit "clipboard")) s in
      (set_screenshots s1 (screenshots s1 ++ [filename]) (Py.lit "clipboard"),
       [write_file filename; notify_screenshot_taken filename])
  end.

(** The keyboard listener delivering one key press to a session whose
    keyboard capture holds the session's two callbacks: [_on_press] runs,
    and its calls run [_on_keystroke] and [_on_hotkey]. *)
Definition deliver_call (s : RecordingSession) (c : Keyboard.Call) (now : Z)
    : RecordingSession * list Effect :=
  match c with
  | Keyboard.on_keystroke_call key ts special =>
      (_on_keystroke s key ts special, [])
  | Keyboard.on_hotkey_call name => _on_hotkey s name now
  end.

Fixpoint deliver_calls (s : RecordingSession) (cs : list Keyboard.Call)
    (now : Z) : RecordingSession * list Effect :=
  match cs with
  | [] => (s, [])
  | c :: cs' =>
      let (s1, e1) := deliver_call s c now in
      let (s2, e2) := deliver_calls s1 cs' now in
      (s2, e1 ++ e2)
  end.

(** [now] is the clock read by [_on_press], [now_shot] the one read if
    the press takes a screenshot. *)
Definition key_press (s : RecordingSession) (key : Keyboard.PynputKey)
    (now now_shot : Z) : RecordingSession * list Effect :=
  match keyboard_capture s with
  | None => (s, [])
  | Some kc =>
      let (kc', calls) := Keyboard._on_press kc key now in
      deliver_calls
        (set_captures s (audio_stream s) (Some kc') (clipboard_thread s))
        calls now_shot
  end.

(** [_consume_events] once [running] is cleared: the consumer thread
    moves what is queued to the timeline, in order, and returns. *)
Definition drain (s : RecordingSession) : RecordingSession :=
  set_queue
    (set_timeline s
       (fold_left (fun tl e => add_event e tl) (event_queue s) (timeline s)))
    [].

(** The words removed from the transcript: the trigger and the stop
    command, when set. *)
Definition words_to_remove (cfg : SessionConfig) : list Py.str :=
  (if Py.truthy (voice_trigger cfg) then [voice_trigger cfg] else []) ++
  (if Py.truthy (voice_stop cfg) then [voice_stop cfg] else []).

(** One round of the loop of [_filter_voice_commands]. *)
Definition filter_word (filtered word : Py.str) : Py.str :=
  let filtered := Re.sub_word word filtered in
  let result_words :=
    filter (fun w =>
              negb (Voice._sounds_like (Py.strip_by Voice.is_punct w) word 2))
           (Py.split filtered) in
  Py.join (Py.lit " ") result_words.

Definition _filter_voice_commands (cfg : SessionConfig) (text : Py.str)
    : Py.str :=
  match words_to_remove cfg with
  | [] => text
  | words =>
      let filtered := fold_left filter_word words text in
      Py.strip (Re.sub_spaces filtered)
  end.

(** The vocabulary handed to the transcription worker, in [start] and in
    [_run_full_transcription]. *)
Definition vocab_boost (cfg : SessionConfig) : list Py.str :=
  (if Py.truthy (voice_trigger cfg) then [voice_trigger cfg] else []) ++
  (if Py.truthy (voice_stop cfg) then Py.split (voice_stop cfg) else []) ++
  match vocabulary_boost cfg with
  | Some (w :: ws) => w :: ws
  | _ => []
  end.

(** [_run_full_transcription]: [segments] are the texts of the segments
    the model returns, [None] when the pass is skipped (no model, audio
    too short or too quiet) or fails. *)
Definition _run_full_transcription (s : RecordingSession)
    (segments : option (list Py.str)) : RecordingSession :=
  match worker_model s, segments with
  | Some true, Some segs =>
      let text_parts := filter Py.truthy (map Py.strip segs) in
      set_full_transcript s
        (_filter_voice_commands (config s) (Py.join (Py.lit " ") text_parts))
  | _, _ => s
  end.

(** What [stop] reads from outside: the two clocks, the utterance the
    audio thread flushes when it leaves its loop (with its confidence
    and the clocks read in [_on_transcript]), and the result of the
    second transcription pass. *)
Record StopEnv : Type := mkStopEnv {
  now_dt : Z;
  now : Z;
  flushed : option (Py.str * Z * Z * Z);
  segments : option (list Py.str)
}.

(** [stop], in the order of its statements, for the schedule in which
    both joins return before their timeout and the consumer thread is
    the last to run; the other interleavings of the threads are the
    subject of [Consumer.Step] below.  First the stop signal:
    [running] is cleared, the timeline stopped and a [SESSION_END] event
    queued. *)
Definition signal_stop (s : RecordingSession) (env : StopEnv)
    : RecordingSession :=
  let s := set_running s false in
  let s := set_timeline s (Timeline_stop (now_dt env) (timeline s)) in
  put (mkEvent SESSION_END (get_timestamp_ms (now env) (timeline s)) []) s.

(** The capture modules are stopped: [AudioCapture.stop],
    [KeyboardCapture.stop], [ClipboardMonitor.stop]. *)
Definition stop_captures (s : RecordingSession) : RecordingSession :=
  set_captures s
    (match audio_stream s with Some _ => Some false | None => None end)
    (option_map Keyboard.stop (keyboard_capture s))
    (match clipboard_thread s with Some _ => Some false | None => None end).

(** The audio thread is joined: if it runs, it leaves its loop and
    flushes the transcription worker, which may deliver one last
    utterance. *)
Definition join_audio (s : RecordingSession) (env : StopEnv)
    : RecordingSession * list Effect :=
  if audio_alive s
  then
    let s := set_threads s (consumer_alive s) false in
    match worker_model s, flushed env with
    | Some true, Some (text, confidence, t1, t2) =>
        _on_transcript s text confidence false t1 t2
    | _, _ => (s, [])
    end
  else (s, []).

(** The consumer thread is joined: if it runs, it empties the queue and
    returns. *)
Definition join_consumer (s : RecordingSession) : RecordingSession :=
  if consumer_alive s then set_threads (drain s) false (audio_alive s) else s.

(** The audio is saved and transcribed a second time, and the reports
    are written. *)
Definition finish (s : RecordingSession) (env : StopEnv)
    : RecordingSession * list Effect :=
  let has_audio :=
    save_audio (config s) && negb (audio_chunks s =? 0)%nat &&
    match session_dir s with Some _ => true | None => false end in
  let eff_audio := if has_audio then [write_file (Py.lit "audio.wav")] else [] in
  let s := if has_audio then _run_full_transcription s (segments env) else s in
  let eff_out :=
    match session_dir s with
    | Some _ => [write_file (Py.lit "recording.md");
                 write_file (Py.lit "recording.json")]
    | None => []
    end in
  (s, eff_audio ++ eff_out).

Definition stop (s : RecordingSession) (env : StopEnv)
    : RecordingSession * list Effect :=
  let s := stop_captures (signal_stop s env) in
  let (s, eff_flush) := join_audio s env in
  let s := join_consumer s in
  let (s, eff_out) := finish s env in
  (s, eff_flush ++ eff_out).

(** [start]: [now], [now_dt] and [sid] as in [Timeline_start]. *)
Definition start (s : RecordingSession) (now now_dt : Z) (sid : Py.str)
    : RecordingSession :=
  let s := set_timeline s (Timeline_start now now_dt sid (timeline s)) in
  let s :=
    mkSession (config s) (timeline s) (event_queue s) true (audio_stream s)
      (worker_model s) (keyboard_capture s) (clipboard_thread s)
      true (consumer_alive s) (audio_alive s)
      (Some (session_id (timeline s)))
      (audio_chunks s) (transcript_lines s) (full_transcript s)
      (screenshots s) (last_screenshot_trigger s) (clipboard_count s)
      (_voice_stop_requested s) in
  let s := put (mkEvent SESSION_START 0 []) s in
  let s :=
    mkSession (config s) (timeline s) (event_queue s) (running s) (Some true)
      (Some true)
      (if enable_keylogging (config s)
       then Some (Keyboard.start
                    (Keyboard.new true true (hotkey_timeout (config s))
                       (hotkey_screenshot (config s)))
                    (start_time (timeline s)))
       else keyboard_capture s)
      (if enable_clipboard (config s) then Some true else clipboard_thread s)
      (screenshot_capture s) true true (session_dir s)
      (audio_chunks s) (transcript_lines s) (full_transcript s)
      (screenshots s) (last_screenshot_trigger s) (clipboard_count s)
      (_voice_stop_requested s) in
  s.

End Session.

(** ** output/json_output.py: the report *)

Module JsonOutput.

(** An entry of the [events] array of the report: an event of the
    timeline, as [{"type", "timestamp_ms", "data"}], or a keystroke
    sequence. *)
Inductive Entry : Type :=
| event_entry (type : EventType) (timestamp_ms : Z) (data : Dict)
| sequence_entry (s : Json.Sequence).

(** [e["timestamp_ms"]] *)
Definition entry_timestamp_ms (e : Entry) : Z :=
  match e with
  | event_entry _ ts _ => ts
  | sequence_entry s => Json.seq_timestamp_ms s
  end.

(** Truth value of a value held in [Event.data]. *)
Definition value_truthy (v : Value) : bool :=
  match v with
  | VStr s => Py.truthy s
  | VBool b => b
  | VNum n => negb (n =? 0)
  end.

(** [e.data.get("is_partial", False)], as a truth value. *)
Definition is_partial (e : Event) : bool :=
  match dict_get (data e) "is_partial" with
  | Some v => value_truthy v
  | None => false
  end.

(** [len(e.data.get("text", empty).split())]; [None] when the value is
    not a string ([AttributeError]). *)
Definition words_of (e : Event) : option Z :=
  match dict_get (data e) "text" with
  | None => Some 0
  | Some (VStr s) => Some (Z.of_nat (List.length (Py.split s)))
  | Some _ => None
  end.

(** The sum over the transcript events that are not partial. *)
Fixpoint word_count (events : list Event) : option Z :=
  match events with
  | [] => Some 0
  | e :: rest =>
      if EventType_eqb (type e) TRANSCRIPT && negb (is_partial e)
      then match words_of e, word_count rest with
           | Some n, Some m => Some (n + m)
           | _, _ => None
           end
      else word_count rest
  end.

Record Statistics : Type := mkStatistics {
  total_transcribed_words : Z;
  full_transcript_words : Z;
  screenshots_count : Z;
  clipboard_events_count : Z;
  keystroke_sequences_count : Z
}.

(** The dictionary returned by [generate]; the fields of its [session]
    and [config] parts are prefixed by [out_]. *)
Record Result : Type := mkResult {
  out_id : Py.str;
  out_started_at : option Z;
  out_ended_at : option Z;
  out_duration_ms : Z;
  out_whisper_model : Py.str;
  out_audio_device : option Py.str;
  out_sample_rate : Z;
  out_full_transcript : Py.str;
  out_events : list Entry;
  out_statistics : Statistics
}.

Definition count_type (ty : EventType) (events : list Event) : Z :=
  Z.of_nat (List.length (filter (fun e => EventType_eqb (type e) ty) events)).

(** [generate]: [now] is the clock read by [duration_ms] on a timeline
    that is not stopped; [None] when the keystroke pass or the word
    count raises. *)
Definition generate (tl : Timeline) (cfg : SessionConfig)
    (full_transcript : Py.str) (now : Z) : option Result :=
  let events := chronological tl in
  let json_events :=
    map (fun e => event_entry (type e) (timestamp_ms e) (data e))
        (filter (fun e => negb (is_keystroke e)) events) in
  match Json._reconstruct_keystroke_sequences events with
  | None => None
  | Some keystroke_sequences =>
      let json_events :=
        py_sorted entry_timestamp_ms
          (json_events ++ map sequence_entry keystroke_sequences) in
      match word_count events with
      | None => None
      | Some words =>
          Some (mkResult (session_id tl) (started_at tl) (ended_at tl)
                  (duration_ms now tl) (whisper_model cfg) (audio_device cfg)
                  (sample_rate cfg) full_transcript json_events
                  (mkStatistics words
                     (if Py.truthy full_transcript
                      then Z.of_nat (List.length (Py.split full_transcript))
                      else 0)
                     (count_type SCREENSHOT events)
                     (count_type CLIPBOARD events)
                     (Z.of_nat (List.length keystroke_sequences))))
      end
  end.

End JsonOutput.

(** ** output/markdown.py: time stamps *)

Module MarkdownOutput.

(** [_format_timestamp]; [//] and [%] round toward minus infinity, as
    [Z.div] and [Z.modulo] do for a positive divisor. *)
Definition _format_timestamp (ms : Z) : Py.str :=
  let seconds := ms / 1000 in
  let hours := seconds / 3600 in
  let minutes := (seconds mod 3600) / 60 in
  let secs := seconds mod 60 in
  Py.lit "[" ++ Session.zero_pad 2 hours ++ Py.lit ":" ++
  Session.zero_pad 2 minutes ++ Py.lit ":" ++ Session.zero_pad 2 secs ++
  Py.lit "]".

End MarkdownOutput.

(** ** capture/transcription.py *)

Module Transcription.

Section Worker.

(** An audio sample; a chunk is the list of its samples (one channel),
    so that [len(chunk)] is the length of the list. *)
Variable Sample : Type.

(** [np.abs(audio).max() < 0.01] on audio that is not empty. *)
Variable quiet : list Sample -> bool.

(** [self.model.transcribe(audio, ...)]: the texts of the segments and
    the language probability, [None] when it raises. *)
Variable transcribe : list Sample -> option (list Py.str * Z).

Record TranscriptionWorker : Type := mkWorker {
  on_transcript : bool;       (* a callback is set *)
  sample_rate : Z;
  vocabulary_boost : list Py.str;
  model : bool;               (* a model is loaded *)
  audio_buffer : list (list Sample);
  buffer_samples : Z;
  target_samples : Z;
  initial_prompt : Py.str
}.

(** [_build_initial_prompt] *)
Definition _build_initial_prompt (vocabulary_boost : list Py.str) : Py.str :=
  match vocabulary_boost with
  | [] => []
  | _ :: _ =>
      Py.lit "Voice commands include: " ++
      Py.join (Py.lit ", ") vocabulary_boost ++ Py.lit ". "
  end.

(** [TranscriptionWorker(...)]: [target_samples] is
    [int(sample_rate * buffer_duration)]. *)
Definition new (on_transcript : bool) (target_samples sample_rate : Z)
    (vocabulary_boost : option (list Py.str)) : TranscriptionWorker :=
  let vocab := match vocabulary_boost with Some v => v | None => [] end in
  mkWorker on_transcript sample_rate vocab false [] 0 target_samples
    (_build_initial_prompt vocab).

Definition load_model (w : TranscriptionWorker) : TranscriptionWorker :=
  mkWorker (on_transcript w) (sample_rate w) (vocabulary_boost w) true
    (audio_buffer w) (buffer_samples w) (target_samples w) (initial_prompt w).

Definition set_audio (w : TranscriptionWorker) (b : list (list Sample))
    (n : Z) : TranscriptionWorker :=
  mkWorker (on_transcript w) (sample_rate w) (vocabulary_boost w) (model w)
    b n (target_samples w) (initial_prompt w).

(** What the worker does with the audio it takes out of its buffer: the
    audio is dropped as silence, or handed to the model, whose text may
    then be passed to the callback; the reduction [max] raises
    [ValueError] on audio without samples. *)
Inductive Effect : Type :=
| quiet_dropped (audio : list Sample)
| raise_ValueError (audio : list Sample)
| model_transcribe (audio : list Sample)
| on_transcript_call (text : Py.str) (confidence : Z) (is_partial : bool).

Definition _transcribe_buffer (w : TranscriptionWorker)
    : TranscriptionWorker * list Effect :=
  match audio_buffer w with
  | [] => (w, [])
  | _ :: _ =>
      if negb (model w) then (w, [])
      else
        let audio := List.concat (audio_buffer w) in
        let w' := set_audio w [] 0 in
        match audio with
        | [] => (w', [raise_ValueError audio])
        | _ :: _ =>
            if quiet audio then (w', [quiet_dropped audio])
            else
              match transcribe audio with
              | None => (w', [model_transcribe audio])
              | Some (segments, language_probability) =>
                  let text_parts := filter Py.truthy (map Py.strip segments) in
                  if match text_parts with [] => false | _ => true end
                     && on_transcript w
                  then (w', [model_transcribe audio;
                             on_transcript_call
                               (Py.join (Py.lit " ") text_parts)
                               language_probability false])
                  else (w', [model_transcribe audio])
              end
        end
  end.

Definition add_audio (w : TranscriptionWorker) (chunk : list Sample)
    : TranscriptionWorker * list Effect :=
  let w1 :=
    set_audio w (audio_buffer w ++ [chunk])
      (buffer_samples w + Z.of_nat (List.length chunk)) in
  if buffer_samples w1 >=? target_samples w1
  then _transcribe_buffer w1
  else (w1, []).

(** [flush]: [buffer_samples > sample_rate * 0.5]. *)
Definition flush (w : TranscriptionWorker) : TranscriptionWorker * list Effect :=
  if match audio_buffer w with [] => false | _ => true end
     && (2 * buffer_samples w >? sample_rate w)
  then _transcribe_buffer w
  else (w, []).

End Worker.

End Transcription.

(** ** capture/clipboard.py *)

Module Clipboard.

Section Monitor.

(** [hashlib.md5(image_data).hexdigest()] *)
Variable md5 : list Byte.byte -> Py.str.

Record ClipboardMonitor : Type := mkMonitor {
  on_change : bool;           (* a callback is set *)
  on_image : bool;
  running : bool;
  last_content : Py.str;
  last_image_hash : Py.str;
  start_time : Z;
  thread : bool
}.

(** [ClipboardMonitor(on_change, on_image, poll_interval)] *)
Definition new (on_change on_image : bool) : ClipboardMonitor :=
  mkMonitor on_change on_image false [] [] 0 false.

Inductive Call : Type :=
| on_image_call (image_data : list Byte.byte) (timestamp_ms : Z)
| on_change_call (content : Py.str) (timestamp_ms : Z).

(** What one round of the loop reads: the image on the clipboard
    ([_get_clipboard_image_data], which never raises), the text
    ([pyperclip.paste()], [None] when it raises) and the clock. *)
Record Reading : Type := mkReading {
  image_data : option (list Byte.byte);
  paste : option Py.str;
  now : Z
}.

(** One round of [_monitor_loop]. *)
Definition poll (m : ClipboardMonitor) (r : Reading)
    : ClipboardMonitor * list Call :=
  match image_data r with
  | Some ((_ :: _) as data) =>
      let img_hash := md5 data in
      if negb (Py.str_eqb img_hash (last_image_hash m))
      then
        let timestamp_ms := ms_of_us (now r - start_time m) in
        (mkMonitor (on_change m) (on_image m) (running m) (last_content m)
           img_hash (start_time m) (thread m),
         if on_image m then [on_image_call data timestamp_ms] else [])
      else (m, [])
  | _ =>
      match paste r with
      | None => (m, [])
      | Some current =>
          if Py.truthy current && negb (Py.str_eqb current (last_content m))
          then
            let timestamp_ms := ms_of_us (now r - start_time m) in
            (mkMonitor (on_change m) (on_image m) (running m) current
               (last_image_hash m) (start_time m) (thread m),
             if on_change m then [on_change_call current timestamp_ms] else [])
          else (m, [])
      end
  end.

(** [_monitor_loop] over the rounds made while [running] is set. *)
Fixpoint _monitor_loop (m : ClipboardMonitor) (readings : list Reading)
    : ClipboardMonitor * list Call :=
  match readings with
  | [] => (m, [])
  | r :: rest =>
      let (m1, calls1) := poll m r in
      let (m2, calls2) := _monitor_loop m1 rest in
      (m2, calls1 ++ calls2)
  end.

(** [start]: the clipboard is read once, so that what it holds already
    is not reported. *)
Definition start (m : ClipboardMonitor) (start_time : Z) (r : Reading)
    : ClipboardMonitor :=
  mkMonitor (on_change m) (on_image m) true
    (match paste r with Some s => s | None => [] end)
    (match image_data r with
     | Some ((_ :: _) as data) => md5 data
     | _ => last_image_hash m
     end)
    start_time true.

Definition stop (m : ClipboardMonitor) : ClipboardMonitor :=
  mkMonitor (on_change m) (on_image m) false (last_content m)
    (last_image_hash m) (start_time m) false.

End Monitor.

End Clipboard.

(** ** capture/audio.py: the choice of the input device *)

Module Audio.

(** An entry of [sd.query_devices()]. *)
Record Device : Type := mkDevice {
  name : Py.str;
  max_input_channels : Z
}.

(** [self.device.lower() in d["name"].lower() and
    d["max_input_channels"] > 0] *)
Definition device_matches (device : Py.str) (d : Device) : bool :=
  Py.contains (Py.lower device) (Py.lower (name d)) &&
  (max_input_channels d >? 0).

(** The loop over [enumerate(devices)], [i] being the index of the head
    of [devices]. *)
Fixpoint find_from (device : Py.str) (i : Z) (devices : list Device)
    : option Z :=
  match devices with
  | [] => None
  | d :: rest =>
      if device_matches device d then Some i
      else find_from device (i + 1) rest
  end.

Definition _find_device_index (device : option Py.str)
    (devices : list Device) : option Z :=
  match device with
  | None => None
  | Some dev => find_from dev 0 devices
  end.

End Audio.

(** ** core/session.py: the consumer thread and the producers, interleaved *)

Module Consumer.

(** What the threads share: the events of the timeline, the event
    queue, the [running] flag, and of the consumer thread the event it
    has taken from the queue and not yet added ([event] in
    [_consume_events]) and whether it is still in its loop. *)
Record Shared : Type := mkShared {
  timeline : list Event;
  event_queue : list Event;
  running : bool;
  event : option Event;
  alive : bool
}.

(** One atomic step, with the events it puts on the queue:
    - a producer (a callback, [start], [stop]) puts an event;
    - [stop] clears [running];
    - the consumer gets the event at the head of the queue;
    - the consumer adds the event it holds to the timeline;
    - the consumer reads its loop condition, finds [running] cleared
      and the queue empty, and returns.
    A [get] that times out on an empty queue changes nothing. *)
Inductive Step : Shared -> list Event -> Shared -> Prop :=
| step_put (s : Shared) (e : Event) :
    Step s [e]
      (mkShared (timeline s) (event_queue s ++ [e]) (running s) (event s)
         (alive s))
| step_clear (s : Shared) :
    Step s [] (mkShared (timeline s) (event_queue s) false (event s) (alive s))
| step_get (s : Shared) (e : Event) (q : list Event) :
    alive s = true -> event s = None -> event_queue s = e :: q ->
    Step s [] (mkShared (timeline s) q (running s) (Some e) true)
| step_add_event (s : Shared) (e : Event) :
    alive s = true -> event s = Some e ->
    Step s [] (mkShared (timeline s ++ [e]) (event_queue s) (running s) None true)
| step_return (s : Shared) :
    alive s = true -> event s = None -> running s = false ->
    event_queue s = [] ->
    Step s [] (mkShared (timeline s) [] false None false).

(** Any number of steps, with the events put on the queue, in order. *)
Inductive Steps : Shared -> list Event -> Shared -> Prop :=
| steps_done (s : Shared) : Steps s [] s
| steps_step (s1 s2 s3 : Shared) (put1 put2 : list Event) :
    Step s1 put1 s2 -> Steps s2 put2 s3 -> Steps s1 (put1 ++ put2) s3.

End Consumer.

(* ================================================================= *)
(** * Vocabulary of the statements and proof tools *)

(** The order of a sort by [key]. *)
Definition key_le (A : Type) (key : A -> Z) (a b : A) : Prop := key a <= key b.

(** The elements with a given key, in the order of the list. *)
Definition with_key (A : Type) (key : A -> Z) (t : Z) (l : list A) : list A :=
  filter (fun a => key a =? t) l.

(** The buffer a plain keystroke is checked against: the entries younger
    than the timeout, then the new entry. *)
Definition window (kc : Keyboard.KeyboardCapture) (key_str : Py.str) (now : Z)
    : list (Py.str * Z) :=
  filter (fun kt => now - snd kt <? Keyboard.hotkey_timeout kc)
         (Keyboard.key_buffer kc) ++ [(key_str, now)].

(** The trailing entries of the window, as many as the hotkey has
    characters, spell the hotkey. *)
Definition spells (kc : Keyboard.KeyboardCapture) (w : list (Py.str * Z)) : Prop :=
  exists pre suf,
    w = pre ++ suf /\
    List.length suf = List.length (Keyboard.hotkey_screenshot kc) /\
    Py.join_empty (map fst suf) = Keyboard.hotkey_screenshot kc.

Definition spellsb (kc : Keyboard.KeyboardCapture) (w : list (Py.str * Z)) : bool :=
  let n := List.length (Keyboard.hotkey_screenshot kc) in
  (n <=? List.length w)%nat &&
  Py.str_eqb (Py.join_empty (map fst (slice_last n w)))
             (Keyboard.hotkey_screenshot kc).

(** A capture as the session starts it, with both callbacks set. *)
Definition fresh_capture (timeout : Z) (target : Py.str) (start_time : Z)
    : Keyboard.KeyboardCapture :=
  Keyboard.start (Keyboard.new true true timeout target) start_time.

(** The hotkey of the claims and its key. *)
Definition jj : Py.str := Py.lit "jj".

Definition j : Py.str := Py.lit "j".

Definition is_screenshot (e : Event) : bool := EventType_eqb (type e) SCREENSHOT.

(** A session after [start], on the default configuration. *)
Definition started_session : Session.RecordingSession :=
  Session.start (Session.new default_config) 0 0 (Py.lit "session_20250101_120000").

(** Projections of updated sessions. *)
Ltac session_simpl :=
  cbn [Session.config Session.timeline Session.event_queue Session.running
       Session.audio_stream Session.worker_model Session.keyboard_capture
       Session.clipboard_thread Session.screenshot_capture
       Session.consumer_alive Session.audio_alive Session.session_dir
       Session.audio_chunks Session.transcript_lines Session.full_transcript
       Session.screenshots Session.last_screenshot_trigger
       Session.clipboard_count Session._voice_stop_requested
       Session.set_timeline Session.set_queue Session.set_running
       Session.set_captures Session.set_threads Session.set_transcript_lines
       Session.set_full_transcript Session.set_screenshots
       Session.set_clipboard_count Session.set_voice_stop_requested
       Session.put fst snd].

Tactic Notation "session_simpl" "in" hyp(H) :=
  cbn [Session.config Session.timeline Session.event_queue Session.running
       Session.audio_stream Session.worker_model Session.keyboard_capture
       Session.clipboard_thread Session.screenshot_capture
       Session.consumer_alive Session.audio_alive Session.session_dir
       Session.audio_chunks Session.transcript_lines Session.full_transcript
       Session.screenshots Session.last_screenshot_trigger
       Session.clipboard_count Session._voice_stop_requested
       Session.set_timeline Session.set_queue Session.set_running
       Session.set_captures Session.set_threads Session.set_transcript_lines
       Session.set_full_transcript Session.set_screenshots
       Session.set_clipboard_count Session.set_voice_stop_requested
       Session.put fst snd] in H.

(** The part of a session that the callbacks leave alone: configuration,
    timeline, capture modules and threads. *)
Definition machinery (s : Session.RecordingSession) :=
  (Session.config s, Session.timeline s, Session.running s,
   Session.audio_stream s, Session.worker_model s,
   Session.keyboard_capture s, Session.clipboard_thread s,
   Session.screenshot_capture s, Session.consumer_alive s,
   Session.audio_alive s, Session.session_dir s, Session.audio_chunks s).

Local Open Scope nat_scope.

(** The row computed by [inner_loop], as a scan: [prev] is the part of
    the previous row from the current column on, [left] the entry just
    written. *)
Fixpoint next_row (c1 : ascii) (s2 : Py.str) (prev : list nat) (left : nat)
    : list nat :=
  match s2 with
  | [] => []
  | c2 :: s2' =>
      let v := Nat.min (nth 1 prev 0 + 1)
                 (Nat.min (left + 1)
                    (nth 0 prev 0 + (if ascii_dec c1 c2 then 0 else 1)))%nat in
      v :: next_row c1 s2' (tl prev) v
  end.

Local Close Scope nat_scope.

Local Open Scope nat_scope.

(** Column [j0 + k] of row [i] is at least the distance between [i] and
    the column: every entry of a row is bounded below by the difference
    of the two prefix lengths. *)
Definition row_above (i j0 : nat) (row : list nat) : Prop :=
  forall k, (k < List.length row)%nat ->
            (i - (j0 + k) <= nth k row 0 /\ (j0 + k) - i <= nth k row 0)%nat.

Local Close Scope nat_scope.

(** A word as [split] returns them: not empty, no whitespace. *)
Definition is_token (tok : Py.str) : Prop :=
  tok <> [] /\ Forall (fun c => Py.isspace c = false) tok.

Definition is_cp (c : ascii) : bool :=
  (if ascii_dec c "," then true else false) ||
  (if ascii_dec c "." then true else false).

Ltac ascii_cases c :=
  destruct c as [[] [] [] [] [] [] [] []]; vm_compute; try reflexivity;
  try discriminate; try tauto.

(** The last character read, [prev] if none was. *)
Fixpoint last_read (prev : option ascii) (s : Py.str) : option ascii :=
  match s with
  | [] => prev
  | c :: s' => last_read (Some c) s'
  end.

(** The scan of [Re.sub_word] for the command [W], with the fuel it needs. *)
Definition subw (W : Py.str) (s : Py.str) (prev : option ascii) : Py.str :=
  Re.sub_word_from (List.length s) W s prev.

(** [no_start prev pre]: no character of [pre] is a word character that
    follows a character that is not ([prev] being the character before
    [pre]). *)
Fixpoint no_start (prev : option ascii) (pre : Py.str) : bool :=
  match pre with
  | [] => true
  | c :: pre' =>
      (Re.is_word_opt prev || negb (Re.is_word_char c)) && no_start (Some c) pre'
  end.

(** Equality of two words under [re.IGNORECASE]. *)
Definition ci_eqb (a b : Py.str) : bool := Py.str_eqb (Py.lower a) (Py.lower b).

(** What follows a run of word characters: nothing, or a character that
    is not a word character. *)
Definition ends_word (Y : Py.str) : Prop :=
  Y = [] \/ exists c r, Y = c :: r /\ Re.is_word_char c = false.

(** The kind of the character before a position: whitespace or the start
    of the text, a word character, a comma or period. *)
Inductive kind : Type := KS | KW | KT.

(** A plain text: words made of word characters, each followed by any
    number of commas and periods, and separated by whitespace. *)
Fixpoint plain_from (k : kind) (s : Py.str) : bool :=
  match s with
  | [] => true
  | c :: s' =>
      if Py.isspace c then plain_from KS s'
      else if Re.is_word_char c
           then match k with KT => false | _ => plain_from KW s' end
           else if is_cp c
                then match k with KS => false | _ => plain_from KT s' end
                else false
  end.

Definition plain_text (s : Py.str) : bool := plain_from KS s.

Definition space_led (s : Py.str) : Prop :=
  s = [] \/ exists c r, s = c :: r /\ Py.isspace c = true.

(** A word of a plain text: word characters, then commas and periods. *)
Definition plain_token (tok : Py.str) : Prop :=
  exists w t, tok = w ++ t /\ w <> [] /\
              Forall (fun c => Re.is_word_char c = true) w /\
              Forall (fun c => is_cp c = true) t.

Fixpoint takewhile (p : ascii -> bool) (s : Py.str) : Py.str :=
  match s with
  | c :: s' => if p c then c :: takewhile p s' else []
  | [] => []
  end.

(** A word of the text whose word characters spell the command word
    [W], whatever the case. *)
Definition exactb (W : Py.str) (tok : Py.str) : bool :=
  ci_eqb (takewhile Re.is_word_char tok) W.

(** The test of the claim on a word: its form without the surrounding
    punctuation, lower-cased, is within edit distance 2 of the
    lower-cased command. *)
Definition within (cmd tok : Py.str) : bool :=
  Z.of_nat (Voice.edit_distance (Py.lower (Py.strip_by Voice.is_punct tok))
              (Py.lower cmd)) <=? 2.

(** A command made of one word: not empty, word characters only. *)
Definition command_word (w : Py.str) : bool :=
  Py.truthy w && forallb Re.is_word_char w.


(** The start timestamps of consecutive runs are more than 2000 ms
    apart. *)
Fixpoint starts_apart (starts : list Z) : Prop :=
  match starts with
  | a :: rest =>
      match rest with
      | b :: _ => b - a > 2000
      | [] => True
      end /\ starts_apart rest
  | [] => True
  end.

(** An event carries a string under the name key. *)
Definition has_key (e : Event) : Prop := exists k, data_str e "key" = Some k.


(** [int(s)] on a decimal literal with an optional minus sign. *)
Definition int_of_str (s : Py.str) : option Z :=
  option_map Z.of_int
    (DecimalString.NilZero.int_of_string (String.string_of_list_ascii s)).

(** Neither command is within the threshold of the word. *)
Definition kept (cfg : SessionConfig) (w : Py.str) : bool :=
  negb (within (voice_trigger cfg) w || within (voice_stop cfg) w).

(** A decimal number with [k] zeros written before it. *)
Fixpoint pad0 (k : nat) (d : Decimal.uint) : Decimal.uint :=
  match k with
  | O => d
  | S k' => Decimal.D0 (pad0 k' d)
  end.

Local Open Scope nat_scope.

(** The cost of putting character [j] of [s2] in the place of character
    [i] of [s1]: nothing when they are the same. *)
Definition subst_cost (s1 s2 : Py.str) (i j : nat) : nat :=
  match nth_error s1 i, nth_error s2 j with
  | Some a, Some b => if ascii_dec a b then 0 else 1
  | _, _ => 0
  end.

(** The Levenshtein distance, by its recurrence: [lev s1 s2 i j] is the
    distance between the first [i] characters of [s1] and the first [j]
    characters of [s2]. *)
Fixpoint lev (s1 s2 : Py.str) (i : nat) : nat -> nat :=
  match i with
  | O => fun j => j
  | S i' =>
      fix row (j : nat) : nat :=
        match j with
        | O => S i'
        | S j' =>
            Nat.min (lev s1 s2 i' (S j') + 1)
              (Nat.min (row j' + 1)
                 (lev s1 s2 i' j' + subst_cost s1 s2 i' j'))
        end
  end.

Local Close Scope nat_scope.

(** Entries of the structured report, by kind. *)
Definition is_sequence_entry (e : JsonOutput.Entry) : bool :=
  match e with JsonOutput.sequence_entry _ => true | _ => false end.

Definition entry_has_type (ty : EventType) (e : JsonOutput.Entry) : bool :=
  match e with
  | JsonOutput.event_entry t _ _ => EventType_eqb t ty
  | JsonOutput.sequence_entry _ => false
  end.

(** The entry made of an event of the timeline. *)
Definition entry_of (e : Event) : JsonOutput.Entry :=
  JsonOutput.event_entry (type e) (timestamp_ms e) (data e).

(** A text that neither starts nor ends with whitespace, and is not
    empty. *)
Definition trimmed (s : Py.str) : Prop :=
  exists a mid b,
    Py.isspace a = false /\ Py.isspace b = false /\
    (s = [a] \/ s = a :: mid ++ [b]).

(** The audio taken out of the buffer by a list of effects. *)
Definition consumed (Sample : Type)
    (effects : list (Transcription.Effect Sample)) : list Sample :=
  List.concat
    (map (fun e => match e with
                   | Transcription.quiet_dropped a => a
                   | Transcription.raise_ValueError a => a
                   | Transcription.model_transcribe a => a
                   | Transcription.on_transcript_call _ _ _ _ => []
                   end) effects).

(** The audio held in the buffer, and the invariant of its counter. *)
Definition held (Sample : Type) (w : Transcription.TranscriptionWorker Sample)
    : list Sample :=
  List.concat (Transcription.audio_buffer w).

Definition counted (Sample : Type)
    (w : Transcription.TranscriptionWorker Sample) : Prop :=
  Transcription.buffer_samples w = Z.of_nat (List.length (held w)).

(** What the callback of the worker is given: a final text, trimmed. *)
Definition clean_call (Sample : Type) (e : Transcription.Effect Sample) : Prop :=
  match e with
  | Transcription.on_transcript_call _ text _ is_partial =>
      is_partial = false /\ trimmed text /\ Py.strip text = text
  | _ => True
  end.

(** No element of the list equals the one before it, [prev] being the
    one before the first. *)
Fixpoint no_repeat (prev : Py.str) (l : list Py.str) : Prop :=
  match l with
  | [] => True
  | x :: rest => x <> prev /\ no_repeat x rest
  end.

(** The texts and the image hashes reported by the clipboard monitor. *)
Definition texts_of (calls : list Clipboard.Call) : list Py.str :=
  flat_map (fun c => match c with
                     | Clipboard.on_change_call t _ => [t]
                     | Clipboard.on_image_call _ _ => []
                     end) calls.

Definition hashes_of (md5 : list Byte.byte -> Py.str)
    (calls : list Clipboard.Call) : list Py.str :=
  flat_map (fun c => match c with
                     | Clipboard.on_image_call d _ => [md5 d]
                     | Clipboard.on_change_call _ _ => []
                     end) calls.


(** Every event the threads hold, from the oldest: the timeline, the
    event in the hands of the consumer, the queue. *)
Definition all_events (s : Consumer.Shared) : list Event :=
  Consumer.timeline s ++
  match Consumer.event s with Some e => [e] | None => [] end ++
  Consumer.event_queue s.

(** The pattern of the command [W] matches at some position of [s],
    [prev] being the character before [s]. *)
Fixpoint matches_in (W s : Py.str) (prev : option ascii) : bool :=
  match s with
  | [] => false
  | c :: s' =>
      match Re.match_here W s prev with Some _ => true | None => false end
      || matches_in W s' (Some c)
  end.

(** A word of the text that is the command [W] itself, whatever the
    case, with nothing but commas and periods after it. *)
Definition is_command (W tok : Py.str) : bool :=
  ci_eqb (takewhile Re.is_word_char tok) W &&
  forallb is_cp (Py.dropwhile Re.is_word_char tok).

(** A word on which the exact pass and the fuzzy pass for the command
    [W] agree: it is the command itself or the pattern of the command
    matches nowhere in it, and it is more than punctuation unless the
    command is longer than the threshold. *)
Definition settled (W tok : Py.str) : bool :=
  (is_command W tok || negb (matches_in W tok None)) &&
  (Py.truthy (Py.strip_by Voice.is_punct tok) || (2 <? List.length W)%nat).

Definition starts_cp (tok : Py.str) : bool :=
  match tok with c :: _ => is_cp c | [] => false end.

(** A tame word: it does not begin with a comma or a period, it is
    settled for the trigger command, and it is settled for the stop
    command unless the trigger command removes it. *)
Definition tame (cfg : SessionConfig) (tok : Py.str) : bool :=
  negb (starts_cp tok) && settled (voice_trigger cfg) tok &&
  (within (voice_trigger cfg) tok || settled (voice_stop cfg) tok).

(** A transcript of tame words. *)
Definition tame_text (cfg : SessionConfig) (text : Py.str) : bool :=
  forallb (tame cfg) (Py.split text).


(* ================================================================= *)
(** * Properties *)

(** ** Basic facts *)

Lemma str_eqb_eq (a b : Py.str) : Py.str_eqb a b = true <-> a = b.
Proof.
  unfold Py.str_eqb. destruct (list_eq_dec ascii_dec a b); split; congruence.
Qed.

Lemma str_eqb_refl (a : Py.str) : Py.str_eqb a a = true.
Proof. now apply str_eqb_eq. Qed.

Lemma EventType_eqb_eq (a b : EventType) : EventType_eqb a b = true <-> a = b.
Proof. destruct a, b; simpl; split; congruence. Qed.

Lemma keys_of_app (a b : list Event) (ka kb : list Py.str) :
  keys_of a = Some ka -> keys_of b = Some kb -> keys_of (a ++ b) = Some (ka ++ kb).
Proof.
  revert ka. induction a as [|e a IH]; simpl; intros ka Ha Hb.
  - now inversion Ha.
  - destruct (data_str e "key") as [k|]; [|discriminate].
    destruct (keys_of a) as [ks|]; [|discriminate].
    inversion Ha; subst. now rewrite (IH ks eq_refl Hb).
Qed.

(** The state of the structured pass while a run is open: [seqs] are the
    closed runs, [e :: grp] the events of the open one. *)
Lemma json_loop_runs (events : list Event) :
  forall (seqs : list Json.Sequence) (e : Event) (grp : list Event)
         (keys : list Py.str),
    keys_of (e :: grp) = Some keys ->
    Forall (fun e' => timestamp_ms e' - timestamp_ms e <= 2000) grp ->
    Forall (fun e' => exists k, data_str e' "key" = Some k) events ->
    exists st runs,
      Json.loop (Json.mkLoop seqs keys (timestamp_ms e)) events = Some st /\
      Json.current_keys st <> [] /\
      Json.sequences st ++
        [Json.close (Json.current_start st) (Json.current_keys st)] = seqs ++ runs /\
      Runs (e :: grp ++ events) runs.
Proof.
  induction events as [|e' events IH]; intros seqs e grp keys Hk Hg Hev.
  - exists (Json.mkLoop seqs keys (timestamp_ms e)),
           [Json.close (timestamp_ms e) keys].
    simpl. repeat split.
    + simpl in Hk. destruct (data_str e "key"); [|discriminate].
      destruct (keys_of grp); [|discriminate]. inversion Hk. discriminate.
    + apply Runs_cons; auto.
      * intros x Hx; discriminate.
      * constructor.
  - inversion Hev as [|? ? [k' Hk'] Hev']; subst.
    assert (Hne : exists k0 ks0, keys = k0 :: ks0).
    { simpl in Hk. destruct (data_str e "key"); [|discriminate].
      destruct (keys_of grp); [|discriminate]. inversion Hk. eauto. }
    destruct Hne as (k0 & ks0 & ->).
    simpl Json.loop. unfold Json.loop_body. rewrite Hk'. simpl Json.current_keys.
    simpl Json.current_start.
    destruct (timestamp_ms e' - timestamp_ms e >? 2000) eqn:Hgap.
    + simpl.
      destruct (IH (seqs ++ [Json.close (timestamp_ms e) (k0 :: ks0)]) e' [] [k'])
        as (st & runs & Hl & Hc & Hs & Hr); auto.
      { simpl. now rewrite Hk'. }
      exists st, (Json.close (timestamp_ms e) (k0 :: ks0) :: runs).
      repeat split; auto.
      * rewrite Hs. now rewrite <- app_assoc.
      * apply Runs_cons; auto.
        intros x Hx. simpl in Hx. inversion Hx; subst.
        apply Z.gtb_lt in Hgap. lia.
    + simpl.
      destruct (IH seqs e (grp ++ [e']) ((k0 :: ks0) ++ [k']))
        as (st & runs & Hl & Hc & Hs & Hr); auto.
      { change (e :: grp ++ [e']) with ((e :: grp) ++ [e']).
        apply keys_of_app; auto. simpl. now rewrite Hk'. }
      { apply Forall_app. split; auto. constructor; auto.
        rewrite Z.gtb_ltb in Hgap. apply Z.ltb_ge in Hgap. lia. }
      exists st, runs. repeat split; auto.
      now rewrite <- app_assoc in Hr.
Qed.

Lemma json_reconstruct_runs (events : list Event) :
  Forall (fun e' => exists k, data_str e' "key" = Some k)
         (filter is_keystroke events) ->
  exists runs,
    Json._reconstruct_keystroke_sequences events = Some runs /\
    Runs (filter is_keystroke events) runs.
Proof.
  unfold Json._reconstruct_keystroke_sequences.
  destruct (filter is_keystroke events) as [|e ks] eqn:Hf; intros Hall.
  - exists []. split; auto. constructor.
  - inversion Hall as [|? ? [k Hk] Hall']; subst.
    cbn [Json.loop]. unfold Json.loop_body. rewrite Hk. simpl.
    destruct (@json_loop_runs ks [] e [] [k])
      as (st & runs & Hl & Hc & Hs & Hr); auto.
    { simpl. now rewrite Hk. }
    rewrite Hl. exists runs. split; auto.
    destruct (Json.current_keys st) eqn:Hck; [congruence|].
    now rewrite Hs.
Qed.

(** The narrative pass against the structured pass. *)

Lemma keys_to_text_join (cur : list (Py.str * Value)) :
  Markdown._keys_to_text cur = Py.join_empty (map fst cur).
Proof.
  induction cur as [|[k v] cur IH]; simpl; auto.
  now rewrite IH.
Qed.

Lemma visible_snoc (runs : list Json.Sequence) (start : Z)
    (cur : list (Py.str * Value)) :
  Markdown.append_if_visible (visible runs) start cur =
  visible (runs ++ [Json.close start (map fst cur)]).
Proof.
  unfold Markdown.append_if_visible, visible.
  rewrite map_app, filter_app. simpl.
  rewrite keys_to_text_join.
  destruct (Py.truthy (Py.strip (Py.join_empty (map fst cur)))); simpl.
  - reflexivity.
  - now rewrite app_nil_r.
Qed.

Lemma same_runs_body (m : Markdown.LoopState) (j : Json.LoopState)
    (e : Event) (m' : Markdown.LoopState) :
  same_runs m j ->
  Markdown.loop_body m e = Some m' ->
  exists j', Json.loop_body j e = Some j' /\ same_runs m' j'.
Proof.
  intros (Hs & Hc & Ht). unfold Markdown.loop_body, Json.loop_body.
  destruct (data_str e "key") as [k|]; [|discriminate].
  destruct (data_any e "is_special") as [v|]; [|discriminate].
  intros H; inversion H; subst m'; clear H.
  eexists; split; [reflexivity|].
  destruct m as [ms mc mt], j as [js jc jt]; simpl in *. subst mt.
  destruct mc as [|c0 mc]; simpl in Hc; subst jc.
  - simpl. unfold same_runs; simpl. auto.
  - cbn [map]. destruct (timestamp_ms e - jt >? 2000).
    + unfold same_runs; simpl. repeat split; auto.
      rewrite Hs. apply (visible_snoc js jt (c0 :: mc)).
    + unfold same_runs; simpl. repeat split; auto.
      now rewrite map_app.
Qed.

Lemma same_runs_loop (events : list Event) :
  forall (m : Markdown.LoopState) (j : Json.LoopState) (m' : Markdown.LoopState),
    same_runs m j ->
    Markdown.loop m events = Some m' ->
    exists j', Json.loop j events = Some j' /\ same_runs m' j'.
Proof.
  induction events as [|e events IH]; simpl; intros m j m' HR Hm.
  - inversion Hm; subst. eauto.
  - destruct (Markdown.loop_body m e) as [m1|] eqn:Hb; [|discriminate].
    destruct (same_runs_body e HR Hb) as (j1 & Hj1 & HR1).
    rewrite Hj1. eauto.
Qed.

Lemma markdown_visible_json (events : list Event) (m : list (Z * Py.str)) :
  Markdown._reconstruct_keystrokes events = Some m ->
  exists j, Json._reconstruct_keystroke_sequences events = Some j /\
            m = visible j.
Proof.
  unfold Markdown._reconstruct_keystrokes, Json._reconstruct_keystroke_sequences.
  destruct (filter is_keystroke events) as [|first ks].
  - intros H; inversion H. exists []. auto.
  - destruct (Markdown.loop (Markdown.mkLoop [] [] (timestamp_ms first)) (first :: ks))
      as [m'|] eqn:Hm; [|discriminate].
    assert (HR : same_runs (Markdown.mkLoop [] [] (timestamp_ms first))
                           (Json.mkLoop [] [] (timestamp_ms first)))
      by (unfold same_runs; simpl; auto).
    destruct (same_runs_loop _ HR Hm) as (j' & Hj & (Hs & Hc & Ht)).
    rewrite Hj. intros H.
    destruct (Markdown.current_seq m') as [|c cs] eqn:Hcur; simpl in Hc;
      rewrite <- Hc; inversion H; subst m; clear H.
    + eauto.
    + eexists; split; [reflexivity|].
      rewrite Hs, Ht. apply (visible_snoc _ _ (c :: cs)).
Qed.

(** On events built as the sources build them, both passes return. *)
Lemma markdown_loop_total (events : list Event) :
  Forall (fun e => (exists k, data_str e "key" = Some k) /\
                   (exists v, data_any e "is_special" = Some v)) events ->
  forall m, exists m', Markdown.loop m events = Some m'.
Proof.
  induction 1 as [|e events [[k Hk] [v Hv]] _ IH]; intros m; simpl.
  - eauto.
  - unfold Markdown.loop_body. rewrite Hk, Hv. apply IH.
Qed.

Lemma well_formed_filter (events : list Event) :
  Forall well_formed_keystroke events ->
  Forall (fun e => (exists k, data_str e "key" = Some k) /\
                   (exists v, data_any e "is_special" = Some v))
         (filter is_keystroke events).
Proof.
  induction 1 as [|e events He _ IH]; simpl; auto.
  destruct (is_keystroke e) eqn:Hk; auto.
Qed.

Lemma markdown_total (events : list Event) :
  Forall well_formed_keystroke events ->
  exists m, Markdown._reconstruct_keystrokes events = Some m.
Proof.
  intros Hwf. apply well_formed_filter in Hwf.
  unfold Markdown._reconstruct_keystrokes.
  destruct (filter is_keystroke events) as [|first ks]; [eauto|].
  destruct (markdown_loop_total Hwf (Markdown.mkLoop [] [] (timestamp_ms first)))
    as [m' Hm].
  rewrite Hm. destruct (Markdown.current_seq m'); eauto.
Qed.

Lemma KeystrokeEvent_well_formed (ts : Z) (key : Py.str) (is_special : bool) :
  well_formed_keystroke (KeystrokeEvent ts key is_special).
Proof. intros _. split; eexists; reflexivity. Qed.

(** ** Keystroke coalescing (claims C1 and C3) *)

(** C1: what the code does, where it departs from the claim.  On every
    timeline whose keystroke events are well formed, the structured pass
    returns runs that cut the keystroke events into consecutive blocks,
    each block being its first event followed by the events at most
    2000 ms later than that first event, a run being closed by the first
    event further away; a run records the timestamp of its first event
    and its keys.  The gap is thus measured from the start of the run,
    where the claim, and the comment of the code on that test (a new
    sequence if the gap is over 2 seconds), measure it from the last
    event of the run.  The narrative pass returns the start and text of
    those runs that show a non-whitespace character.  Keys at 0, 500,
    900 and 4000 ms give the runs starting at 0 (three keys) and at
    4000, as the claim has it. *)
Theorem C1_runs_measured_from_start (events : list Event)
    (Hwf : Forall well_formed_keystroke events) :
  (exists runs,
     Json._reconstruct_keystroke_sequences events = Some runs /\
     Runs (filter is_keystroke events) runs /\
     Markdown._reconstruct_keystrokes events = Some (visible runs)) /\
  (forall k1 k2 k3 k4 s1 s2 s3 s4,
     Json._reconstruct_keystroke_sequences
       [KeystrokeEvent 0 k1 s1; KeystrokeEvent 500 k2 s2;
        KeystrokeEvent 900 k3 s3; KeystrokeEvent 4000 k4 s4] =
     Some [Json.close 0 [k1; k2; k3]; Json.close 4000 [k4]]).
Proof.
  split.
  - destruct (@json_reconstruct_runs events) as (runs & Hj & Hr).
    { eapply Forall_impl; [|apply well_formed_filter, Hwf]. now intros e [H _]. }
    destruct (markdown_total Hwf) as (m & Hm).
    destruct (markdown_visible_json _ Hm) as (j & Hj' & ->).
    exists runs. repeat split; auto. congruence.
  - intros. reflexivity.
Qed.

Lemma C1_runs_measured_from_start_witness :
  Forall well_formed_keystroke
    [KeystrokeEvent 0 (Py.lit "l") false; KeystrokeEvent 500 (Py.lit "s") false;
     mkEvent SESSION_END 600 []; KeystrokeEvent 4000 (Py.lit "<enter>") true] /\
  exists runs,
    Json._reconstruct_keystroke_sequences
      [KeystrokeEvent 0 (Py.lit "l") false; KeystrokeEvent 500 (Py.lit "s") false;
       mkEvent SESSION_END 600 []; KeystrokeEvent 4000 (Py.lit "<enter>") true]
    = Some runs /\ length runs = 2%nat.
Proof.
  assert (Hwf : Forall well_formed_keystroke
    [KeystrokeEvent 0 (Py.lit "l") false; KeystrokeEvent 500 (Py.lit "s") false;
     mkEvent SESSION_END 600 []; KeystrokeEvent 4000 (Py.lit "<enter>") true]).
  { repeat (apply Forall_cons; [first [apply KeystrokeEvent_well_formed
                                      | intros Hk; discriminate Hk]|]).
    apply Forall_nil. }
  split; [exact Hwf|].
  destruct (C1_runs_measured_from_start Hwf) as [(runs & Hj & _ & _) _].
  exists runs. split; [exact Hj|].
  vm_compute in Hj. inversion Hj. reflexivity.
Defined.

(** C1 fails on the code.  With keys at 0, 1500 and 3000 ms every gap to
    the previous key is 1500 ms, so the claim (gap to the last event of
    the run) keeps one run of three keys; the code closes the run at the
    third key, which is 3000 ms after the start of the run.  With a key
    every 500 ms from 0 to 5000 ms the claim keeps one run of eleven
    keys; the code cuts it at 2500 and at 5000 ms. *)
Lemma C1_counterexample :
  let a := Py.lit "a" in let b := Py.lit "b" in let c := Py.lit "c" in
  let every_500 := map (fun i => 500 * Z.of_nat i) (seq 0 11) in
  spec_runs [(0, a); (1500, b); (3000, c)] = [Json.close 0 [a; b; c]] /\
  Json._reconstruct_keystroke_sequences
    [KeystrokeEvent 0 a false; KeystrokeEvent 1500 b false;
     KeystrokeEvent 3000 c false]
  = Some [Json.close 0 [a; b]; Json.close 3000 [c]] /\
  Json._reconstruct_keystroke_sequences
    [KeystrokeEvent 0 a false; KeystrokeEvent 1500 b false;
     KeystrokeEvent 3000 c false]
  <> Some (spec_runs [(0, a); (1500, b); (3000, c)]) /\
  spec_runs (map (fun t => (t, a)) every_500) = [Json.close 0 (repeat a 11)] /\
  Json._reconstruct_keystroke_sequences
    (map (fun t => KeystrokeEvent t a false) every_500)
  = Some [Json.close 0 (repeat a 5); Json.close 2500 (repeat a 5);
          Json.close 5000 [a]].
Proof.
  repeat split; try reflexivity. vm_compute. discriminate.
Qed.

(** C3, as amended.  On every timeline whose keystroke events are well
    formed, both passes return, and the runs of the narrative (markdown)
    pass are the runs of the structured (JSON) pass, same order, same
    start timestamps, same concatenated text, except that the narrative
    pass leaves out every run whose text has no non-whitespace character;
    the structured pass emits those too. *)
Theorem C3_markdown_is_visible_json (events : list Event)
    (Hwf : Forall well_formed_keystroke events) :
  exists runs,
    Json._reconstruct_keystroke_sequences events = Some runs /\
    Markdown._reconstruct_keystrokes events =
      Some (filter (fun p => Py.truthy (Py.strip (snd p)))
              (map (fun s => (Json.seq_timestamp_ms s, Json.seq_reconstructed s))
                 runs)) /\
    Forall (fun s => Json.seq_reconstructed s = Py.join_empty (Json.seq_keys s))
      runs.
Proof.
  destruct (markdown_total Hwf) as (m & Hm).
  destruct (markdown_visible_json _ Hm) as (j & Hj & ->).
  exists j. repeat split; auto.
  destruct (@json_reconstruct_runs events) as (runs & Hj' & Hr).
  { eapply Forall_impl; [|apply well_formed_filter, Hwf]. now intros e [H _]. }
  assert (runs = j) by congruence. subst runs. clear - Hr.
  induction Hr; constructor; auto.
Qed.

Lemma C3_markdown_is_visible_json_witness :
  Forall well_formed_keystroke
    [KeystrokeEvent 0 (Py.lit "h") false; KeystrokeEvent 100 (Py.lit "i") false;
     KeystrokeEvent 5000 (Py.lit " ") false] /\
  Json._reconstruct_keystroke_sequences
    [KeystrokeEvent 0 (Py.lit "h") false; KeystrokeEvent 100 (Py.lit "i") false;
     KeystrokeEvent 5000 (Py.lit " ") false]
  = Some [Json.close 0 [Py.lit "h"; Py.lit "i"]; Json.close 5000 [Py.lit " "]] /\
  Markdown._reconstruct_keystrokes
    [KeystrokeEvent 0 (Py.lit "h") false; KeystrokeEvent 100 (Py.lit "i") false;
     KeystrokeEvent 5000 (Py.lit " ") false]
  = Some [(0, Py.lit "hi")].
Proof.
  assert (Hwf : Forall well_formed_keystroke
    [KeystrokeEvent 0 (Py.lit "h") false; KeystrokeEvent 100 (Py.lit "i") false;
     KeystrokeEvent 5000 (Py.lit " ") false])
    by (repeat (apply Forall_cons; [apply KeystrokeEvent_well_formed|]);
        apply Forall_nil).
  split; [exact Hwf|].
  destruct (C3_markdown_is_visible_json Hwf) as (runs & Hj & Hm & _).
  vm_compute in Hj. inversion Hj; subst runs. split; [reflexivity|].
  rewrite Hm. reflexivity.
Defined.

(** C3 as stated fails: a run made of a single space is emitted by the
    structured pass and dropped by the narrative pass, so the two passes
    do not give the same number of runs. *)
Lemma C3_counterexample :
  let events := [KeystrokeEvent 0 (Py.lit " ") false] in
  Json._reconstruct_keystroke_sequences events
    = Some [Json.close 0 [Py.lit " "]] /\
  Markdown._reconstruct_keystrokes events = Some [] /\
  ~ (exists j m,
       Json._reconstruct_keystroke_sequences events = Some j /\
       Markdown._reconstruct_keystrokes events = Some m /\
       length j = length m).
Proof.
  repeat split; try reflexivity.
  intros (j & m & Hj & Hm & Hlen).
  vm_compute in Hj, Hm. inversion Hj; inversion Hm; subst. discriminate Hlen.
Qed.

(** ** The chronological order of the reports (claim C5) *)

Section Sorting.

Variable A : Type.
Variable key : A -> Z.

Lemma sorted_insert_perm (x : A) (l : list A) :
  Permutation (sorted_insert key x l) (x :: l).
Proof.
  induction l as [|y l IH]; simpl; auto.
  destruct (key x <=? key y); auto.
  rewrite IH. apply perm_swap.
Qed.

Lemma py_sorted_perm (l : list A) : Permutation (py_sorted key l) l.
Proof.
  induction l as [|x l IH]; simpl; auto.
  rewrite sorted_insert_perm. now constructor.
Qed.

Lemma sorted_insert_sorted (x : A) (l : list A) :
  StronglySorted (key_le key) l -> StronglySorted (key_le key) (sorted_insert key x l).
Proof.
  induction 1 as [|y l Hs IH Hall]; simpl.
  - repeat constructor.
  - destruct (key x <=? key y) eqn:Hxy.
    + apply Z.leb_le in Hxy. constructor.
      * now constructor.
      * constructor; [exact Hxy|].
        eapply Forall_impl; [|exact Hall]. unfold key_le. intros; lia.
    + apply Z.leb_gt in Hxy. constructor; [exact IH|].
      rewrite (Forall_forall ((key_le key) y)). intros z Hz.
      apply (Permutation_in _ (sorted_insert_perm x l)) in Hz.
      destruct Hz as [<-|Hz].
      * unfold key_le; lia.
      * rewrite Forall_forall in Hall. now apply Hall.
Qed.

Lemma py_sorted_sorted (l : list A) : StronglySorted (key_le key) (py_sorted key l).
Proof.
  induction l as [|x l IH]; simpl.
  - constructor.
  - now apply sorted_insert_sorted.
Qed.

Lemma sorted_insert_with_key (t : Z) (x : A) (l : list A) :
  StronglySorted (key_le key) l ->
  with_key key t (sorted_insert key x l) = with_key key t (x :: l).
Proof.
  induction 1 as [|y l Hs IH Hall]; simpl; auto.
  destruct (key x <=? key y) eqn:Hxy; auto.
  apply Z.leb_gt in Hxy. simpl. fold (with_key key t (sorted_insert key x l)).
  rewrite IH. simpl.
  destruct (key y =? t) eqn:Hy, (key x =? t) eqn:Hx; auto.
  apply Z.eqb_eq in Hy, Hx. lia.
Qed.

Lemma py_sorted_stable (t : Z) (l : list A) :
  with_key key t (py_sorted key l) = with_key key t l.
Proof.
  induction l as [|x l IH]; simpl; auto.
  rewrite sorted_insert_with_key by apply py_sorted_sorted.
  simpl. fold (with_key key t (py_sorted key l)). now rewrite IH.
Qed.

Lemma with_key_In (a : A) (l : list A) : In a l -> In a (with_key key (key a) l).
Proof.
  intros H. apply filter_In. split; auto. apply Z.eqb_refl.
Qed.

(** Two key-sorted lists with the same elements under every key, in the
    same order, are the same list: a stable sort has one result. *)
Lemma stable_sorted_unique (l1 l2 : list A) :
  StronglySorted (key_le key) l1 -> StronglySorted (key_le key) l2 ->
  (forall t, with_key key t l1 = with_key key t l2) ->
  l1 = l2.
Proof.
  intros H1. revert l2.
  induction H1 as [|a l1 Hs1 IH Hall1]; intros l2 H2 Heq.
  - destruct l2 as [|b l2]; auto.
    specialize (Heq (key b)). simpl in Heq. rewrite Z.eqb_refl in Heq.
    discriminate.
  - destruct H2 as [|b l2 Hs2 Hall2].
    + specialize (Heq (key a)). simpl in Heq. rewrite Z.eqb_refl in Heq.
      discriminate.
    + assert (Hab : key a = key b).
      { assert (Ha : In a (with_key key (key a) (b :: l2))).
        { rewrite <- Heq. apply with_key_In. now left. }
        assert (Hb : In b (with_key key (key b) (a :: l1))).
        { rewrite Heq. apply with_key_In. now left. }
        apply filter_In in Ha. destruct Ha as [Ha _].
        apply filter_In in Hb. destruct Hb as [Hb _].
        rewrite Forall_forall in Hall1, Hall2. unfold key_le in *.
        destruct Ha as [->|Ha]; auto. destruct Hb as [->|Hb]; auto.
        specialize (Hall1 _ Hb). specialize (Hall2 _ Ha). lia. }
      assert (a = b).
      { specialize (Heq (key a)). simpl in Heq.
        rewrite Z.eqb_refl, <- Hab, Z.eqb_refl in Heq. congruence. }
      subst b. f_equal. apply IH; auto.
      intros t. specialize (Heq t). simpl in Heq.
      destruct (key a =? t); [congruence|exact Heq].
Qed.

End Sorting.

(** C5.  The order in which the report generators read the events of a
    timeline is a permutation of the timeline's events, sorted by
    [timestamp_ms], in which the events of any one timestamp keep the
    order they have on the timeline. *)
Theorem C5_chronological_stable (tl : Timeline) :
  Permutation (chronological tl) (events tl) /\
  StronglySorted (fun a b => timestamp_ms a <= timestamp_ms b) (chronological tl) /\
  forall t : Z,
    filter (fun e => timestamp_ms e =? t) (chronological tl) =
    filter (fun e => timestamp_ms e =? t) (events tl).
Proof.
  unfold chronological. split; [apply py_sorted_perm|].
  split; [apply py_sorted_sorted|].
  intros t. apply py_sorted_stable.
Qed.

(** ** Hotkey detection (claims C7 to C10) *)

Lemma slice_last_app (A : Type) (pre suf : list A) :
  suf <> [] -> slice_last (List.length suf) (pre ++ suf) = suf.
Proof.
  intros Hne. unfold slice_last.
  destruct (List.length suf) eqn:Hlen.
  - destruct suf; [congruence|discriminate].
  - rewrite <- Hlen, length_app.
    replace (List.length pre + List.length suf - List.length suf)%nat
      with (List.length pre + 0)%nat by lia.
    rewrite skipn_app, Nat.add_0_r, skipn_all, Nat.sub_diag. reflexivity.
Qed.

Lemma slice_last_split (A : Type) (n : nat) (l : list A) :
  (0 < n <= List.length l)%nat ->
  exists pre, l = pre ++ slice_last n l /\ List.length (slice_last n l) = n.
Proof.
  intros Hn. unfold slice_last. destruct n as [|n]; [lia|].
  exists (firstn (List.length l - S n) l). split.
  - now rewrite firstn_skipn.
  - rewrite length_skipn. lia.
Qed.

Lemma spellsb_spells (kc : Keyboard.KeyboardCapture) (w : list (Py.str * Z)) :
  Keyboard.hotkey_screenshot kc <> [] ->
  spellsb kc w = true <-> spells kc w.
Proof.
  intros Hne. unfold spellsb, spells.
  assert (Hpos : (0 < List.length (Keyboard.hotkey_screenshot kc))%nat).
  { destruct (Keyboard.hotkey_screenshot kc); [congruence|simpl; lia]. }
  rewrite andb_true_iff, Nat.leb_le, str_eqb_eq. split.
  - intros [Hlen Heq].
    destruct (@slice_last_split _ (List.length (Keyboard.hotkey_screenshot kc)) w)
      as (pre & Hw & Hl); [lia|].
    exists pre, (slice_last (List.length (Keyboard.hotkey_screenshot kc)) w).
    auto.
  - intros (pre & suf & -> & Hlen & Heq). split.
    + rewrite length_app. lia.
    + rewrite <- Hlen, slice_last_app; auto.
      intros ->. simpl in Hlen. lia.
Qed.

(** What [_on_press] does with a plain character, in one equation. *)
Lemma on_press_plain (kc : Keyboard.KeyboardCapture) (c : ascii) (cs : Py.str)
    (vk : option Z) (now : Z) :
  0 < Keyboard.hotkey_timeout kc ->
  Keyboard._on_press kc (Keyboard.KeyCode (Some (c :: cs)) vk) now =
  let w := window kc (c :: cs) now in
  let ts := ms_of_us (now - Keyboard.start_time kc) in
  if spellsb kc w && Keyboard.on_hotkey kc
  then (Keyboard.mkCapture (Keyboard.on_keystroke kc) (Keyboard.on_hotkey kc)
          (Keyboard.hotkey_timeout kc) (Keyboard.hotkey_screenshot kc)
          (Keyboard.listener kc) (Keyboard.start_time kc) []
          (Keyboard.total_keystrokes kc + 1) (Keyboard.hotkeys_triggered kc + 1),
        [Keyboard.on_hotkey_call (Py.lit "screenshot")])
  else (Keyboard.mkCapture (Keyboard.on_keystroke kc) (Keyboard.on_hotkey kc)
          (Keyboard.hotkey_timeout kc) (Keyboard.hotkey_screenshot kc)
          (Keyboard.listener kc) (Keyboard.start_time kc) w
          (Keyboard.total_keystrokes kc + 1) (Keyboard.hotkeys_triggered kc),
        if Keyboard.on_keystroke kc
        then [Keyboard.on_keystroke_call (c :: cs) ts false]
        else []).
Proof.
  intros Hpos.
  unfold Keyboard._on_press, Keyboard._check_hotkey, spellsb, window.
  cbn [Keyboard._get_key_str negb Keyboard.set_buffer Keyboard.key_buffer
       Keyboard.hotkey_timeout Keyboard.hotkey_screenshot Keyboard.on_hotkey
       Keyboard.on_keystroke Keyboard.start_time Keyboard.listener
       Keyboard.total_keystrokes Keyboard.hotkeys_triggered].
  rewrite filter_app. cbn [filter snd].
  replace (now - now <? Keyboard.hotkey_timeout kc) with true
    by (symmetry; apply Z.ltb_lt; lia).
  match goal with
  | |- context [filter ?f ?l ++ ?x] => set (w := filter f l ++ x)
  end.
  destruct (List.length (Keyboard.hotkey_screenshot kc) <=? List.length w)%nat;
    cbn [andb].
  - destruct (Py.str_eqb _ (Keyboard.hotkey_screenshot kc)); cbn.
    + destruct (Keyboard.on_hotkey kc); cbn; auto.
      destruct (Keyboard.on_keystroke kc); reflexivity.
    + destruct (Keyboard.on_keystroke kc); reflexivity.
  - cbn. destruct (Keyboard.on_keystroke kc); reflexivity.
Qed.





(** Whatever the key, a press that calls the hotkey callback calls
    nothing else, empties the buffer and counts one hotkey. *)
Lemma on_press_fired (kc : Keyboard.KeyboardCapture) (key : Keyboard.PynputKey)
    (now : Z) :
  existsb Keyboard.is_hotkey_call (snd (Keyboard._on_press kc key now)) = true ->
  snd (Keyboard._on_press kc key now) =
    [Keyboard.on_hotkey_call (Py.lit "screenshot")] /\
  Keyboard.key_buffer (fst (Keyboard._on_press kc key now)) = [] /\
  Keyboard.hotkeys_triggered (fst (Keyboard._on_press kc key now)) =
    Keyboard.hotkeys_triggered kc + 1.
Proof.
  unfold Keyboard._on_press, Keyboard._check_hotkey.
  destruct (Keyboard._get_key_str key) as [key_str is_special].
  destruct is_special; cbn [negb].
  - destruct (Keyboard.on_keystroke kc); simpl; discriminate.
  - cbn [Keyboard.set_buffer Keyboard.key_buffer Keyboard.hotkey_timeout
         Keyboard.hotkey_screenshot Keyboard.on_hotkey Keyboard.on_keystroke
         Keyboard.start_time Keyboard.listener Keyboard.total_keystrokes
         Keyboard.hotkeys_triggered].
    repeat match goal with
    | |- context [if ?b then _ else _] => destruct b; cbn
    end; intros H; try discriminate H; auto.
Qed.

(** A press that does not call the hotkey callback reports the key, when
    the keystroke callback is set. *)
Lemma on_press_not_fired (kc : Keyboard.KeyboardCapture)
    (key : Keyboard.PynputKey) (now : Z) :
  existsb Keyboard.is_hotkey_call (snd (Keyboard._on_press kc key now)) = false ->
  snd (Keyboard._on_press kc key now) =
    if Keyboard.on_keystroke kc
    then [Keyboard.on_keystroke_call (fst (Keyboard._get_key_str key))
            (ms_of_us (now - Keyboard.start_time kc))
            (snd (Keyboard._get_key_str key))]
    else [].
Proof.
  unfold Keyboard._on_press, Keyboard._check_hotkey.
  destruct (Keyboard._get_key_str key) as [key_str is_special].
  destruct is_special; cbn [negb fst snd].
  - destruct (Keyboard.on_keystroke kc); reflexivity.
  - cbn [Keyboard.set_buffer Keyboard.key_buffer Keyboard.hotkey_timeout
         Keyboard.hotkey_screenshot Keyboard.on_hotkey Keyboard.on_keystroke
         Keyboard.start_time Keyboard.listener Keyboard.total_keystrokes
         Keyboard.hotkeys_triggered].
    repeat match goal with
    | |- context [if ?b then _ else _] => destruct b; cbn
    end; intros H; try discriminate H; auto.
Qed.

(** The first and the second j of a pair, on a capture that listens for
    jj with both callbacks set. *)
Lemma press_first_j (kc : Keyboard.KeyboardCapture) (t : Z) :
  Keyboard.key_buffer kc = [] ->
  Keyboard.hotkey_screenshot kc = jj ->
  0 < Keyboard.hotkey_timeout kc ->
  Keyboard.on_keystroke kc = true ->
  Keyboard._on_press kc (Keyboard.plain j) t =
  (Keyboard.mkCapture true (Keyboard.on_hotkey kc) (Keyboard.hotkey_timeout kc)
     jj (Keyboard.listener kc) (Keyboard.start_time kc) [(j, t)]
     (Keyboard.total_keystrokes kc + 1) (Keyboard.hotkeys_triggered kc),
   [Keyboard.on_keystroke_call j (ms_of_us (t - Keyboard.start_time kc)) false]).
Proof.
  intros Hb Ht Hpos Hk. unfold Keyboard.plain, j. cbn [Py.lit String.list_ascii_of_string].
  rewrite on_press_plain by assumption.
  unfold window, spellsb. rewrite Hb, Ht, Hk. reflexivity.
Qed.

Lemma press_second_j (kc : Keyboard.KeyboardCapture) (t1 t2 : Z) :
  Keyboard.key_buffer kc = [(j, t1)] ->
  Keyboard.hotkey_screenshot kc = jj ->
  0 < Keyboard.hotkey_timeout kc ->
  t2 - t1 < Keyboard.hotkey_timeout kc ->
  Keyboard.on_hotkey kc = true ->
  Keyboard._on_press kc (Keyboard.plain j) t2 =
  (Keyboard.mkCapture (Keyboard.on_keystroke kc) true (Keyboard.hotkey_timeout kc)
     jj (Keyboard.listener kc) (Keyboard.start_time kc) []
     (Keyboard.total_keystrokes kc + 1) (Keyboard.hotkeys_triggered kc + 1),
   [Keyboard.on_hotkey_call (Py.lit "screenshot")]).
Proof.
  intros Hb Ht Hpos Hgap Hh. unfold Keyboard.plain, j.
  cbn [Py.lit String.list_ascii_of_string].
  rewrite on_press_plain by assumption.
  unfold window, spellsb. rewrite Hb, Ht, Hh. cbn [filter snd].
  replace (t2 - t1 <? Keyboard.hotkey_timeout kc) with true
    by (symmetry; apply Z.ltb_lt; lia).
  reflexivity.
Qed.

(** C8.  Four j typed with every gap below the 300 ms timeout, on a
    capture that listens for jj: the hotkey is called after the second
    and after the fourth key and at no other time, two calls in all;
    and whatever the state and the key, a press that fires calls
    the hotkey callback once and leaves the key buffer empty. *)
Theorem C8_non_overlapping (start t1 t2 t3 t4 : Z)
    (H12 : 0 <= t2 - t1 < 300000) (H23 : 0 <= t3 - t2 < 300000)
    (H34 : 0 <= t4 - t3 < 300000) :
  let r := Keyboard.press_all (fresh_capture 300000 jj start)
             [(Keyboard.plain j, t1); (Keyboard.plain j, t2);
              (Keyboard.plain j, t3); (Keyboard.plain j, t4)] in
  snd r = [Keyboard.on_keystroke_call j (ms_of_us (t1 - start)) false;
           Keyboard.on_hotkey_call (Py.lit "screenshot");
           Keyboard.on_keystroke_call j (ms_of_us (t3 - start)) false;
           Keyboard.on_hotkey_call (Py.lit "screenshot")] /\
  List.length (filter Keyboard.is_hotkey_call (snd r)) = 2%nat /\
  Keyboard.hotkeys_triggered (fst r) = 2 /\
  Keyboard.key_buffer (fst r) = [] /\
  (forall kc key now,
     existsb Keyboard.is_hotkey_call (snd (Keyboard._on_press kc key now)) = true ->
     filter Keyboard.is_hotkey_call (snd (Keyboard._on_press kc key now)) =
       [Keyboard.on_hotkey_call (Py.lit "screenshot")] /\
     Keyboard.key_buffer (fst (Keyboard._on_press kc key now)) = []).
Proof.
  intros r.
  assert (Hr : r =
    (Keyboard.mkCapture true true 300000 jj true start [] 4 2,
     [Keyboard.on_keystroke_call j (ms_of_us (t1 - start)) false;
      Keyboard.on_hotkey_call (Py.lit "screenshot");
      Keyboard.on_keystroke_call j (ms_of_us (t3 - start)) false;
      Keyboard.on_hotkey_call (Py.lit "screenshot")])).
  { subst r. unfold fresh_capture, Keyboard.new, Keyboard.start.
    cbn [Keyboard.press_all Keyboard.on_keystroke Keyboard.on_hotkey
         Keyboard.hotkey_timeout Keyboard.hotkey_screenshot Keyboard.key_buffer
         Keyboard.total_keystrokes Keyboard.hotkeys_triggered].
    rewrite press_first_j by (simpl; auto; lia).
    cbn [Keyboard.on_keystroke Keyboard.on_hotkey Keyboard.listener
         Keyboard.hotkey_timeout Keyboard.start_time
         Keyboard.total_keystrokes Keyboard.hotkeys_triggered].
    rewrite (@press_second_j _ t1 t2) by (simpl; auto; lia).
    cbn [Keyboard.on_keystroke Keyboard.on_hotkey Keyboard.listener
         Keyboard.hotkey_timeout Keyboard.start_time
         Keyboard.total_keystrokes Keyboard.hotkeys_triggered].
    rewrite press_first_j by (simpl; auto; lia).
    cbn [Keyboard.on_keystroke Keyboard.on_hotkey Keyboard.listener
         Keyboard.hotkey_timeout Keyboard.start_time
         Keyboard.total_keystrokes Keyboard.hotkeys_triggered].
    rewrite (@press_second_j _ t3 t4) by (simpl; auto; lia).
    reflexivity. }
  rewrite Hr. repeat split.
  - destruct (on_press_fired kc key now H) as (-> & _ & _). reflexivity.
  - now destruct (on_press_fired kc key now H) as (_ & -> & _).
Qed.

Lemma C8_non_overlapping_witness :
  0 <= 100000 - 0 < 300000 /\ 0 <= 250000 - 100000 < 300000 /\
  0 <= 400000 - 250000 < 300000 /\
  List.length
    (filter Keyboard.is_hotkey_call
       (snd (Keyboard.press_all (fresh_capture 300000 jj 0)
               [(Keyboard.plain j, 0); (Keyboard.plain j, 100000);
                (Keyboard.plain j, 250000); (Keyboard.plain j, 400000)])))
  = 2%nat.
Proof.
  assert (H12 : 0 <= 100000 - 0 < 300000) by lia.
  assert (H23 : 0 <= 250000 - 100000 < 300000) by lia.
  assert (H34 : 0 <= 400000 - 250000 < 300000) by lia.
  split; [exact H12|]. split; [exact H23|]. split; [exact H34|].
  exact (proj1 (proj2 (@C8_non_overlapping 0 0 100000 250000 400000 H12 H23 H34))).
Defined.

(** C9.  A special key (a [Key] of the enumeration, a [KeyCode] with no
    character, any other object) leaves the hotkey buffer and the hotkey
    count as they are and is reported to the keystroke callback with
    [is_special] true.  So j, shift, j inside the timeout window fire
    the hotkey jj, and the shift is reported. *)
Theorem C9_special_keys (kc : Keyboard.KeyboardCapture)
    (key : Keyboard.PynputKey) (now : Z)
    (Hspecial : snd (Keyboard._get_key_str key) = true) :
  let r := Keyboard._on_press kc key now in
  Keyboard.key_buffer (fst r) = Keyboard.key_buffer kc /\
  Keyboard.hotkeys_triggered (fst r) = Keyboard.hotkeys_triggered kc /\
  snd r =
    (if Keyboard.on_keystroke kc
     then [Keyboard.on_keystroke_call (fst (Keyboard._get_key_str key))
             (ms_of_us (now - Keyboard.start_time kc)) true]
     else []) /\
  snd (Keyboard.press_all (fresh_capture 300000 jj 0)
         [(Keyboard.plain j, 0); (Keyboard.Key (Py.lit "shift"), 100000);
          (Keyboard.plain j, 200000)]) =
    [Keyboard.on_keystroke_call j 0 false;
     Keyboard.on_keystroke_call (Py.lit "<shift>") 100 true;
     Keyboard.on_hotkey_call (Py.lit "screenshot")].
Proof.
  intros r. subst r. unfold Keyboard._on_press.
  destruct (Keyboard._get_key_str key) as [key_str is_special].
  simpl in Hspecial. subst is_special. cbn [negb fst snd].
  destruct (Keyboard.on_keystroke kc); repeat split; reflexivity.
Qed.

Lemma C9_special_keys_witness :
  snd (Keyboard._get_key_str (Keyboard.Key (Py.lit "shift"))) = true /\
  Keyboard.key_buffer
    (fst (Keyboard._on_press
            (Keyboard.set_buffer (fresh_capture 300000 jj 0) [(j, 0)])
            (Keyboard.Key (Py.lit "shift")) 100000)) = [(j, 0)].
Proof.
  split; [reflexivity|].
  exact (proj1 (@C9_special_keys
                  (Keyboard.set_buffer (fresh_capture 300000 jj 0) [(j, 0)])
                  (Keyboard.Key (Py.lit "shift")) 100000 eq_refl)).
Defined.

Lemma drain_events (s : Session.RecordingSession) :
  events (Session.timeline (Session.drain s)) =
  events (Session.timeline s) ++ Session.event_queue s.
Proof.
  unfold Session.drain. cbn [Session.set_queue Session.set_timeline Session.timeline].
  generalize (Session.timeline s) as tl.
  induction (Session.event_queue s) as [|e q IH]; intros tl; simpl.
  - now rewrite app_nil_r.
  - rewrite IH. simpl. now rewrite <- app_assoc.
Qed.

Lemma capture_screenshot_keystrokes (s : Session.RecordingSession)
    (trigger : Py.str) (now : Z) :
  filter is_keystroke
    (Session.event_queue (fst (fst (Session._capture_screenshot s trigger now)))) =
  filter is_keystroke (Session.event_queue s).
Proof.
  unfold Session._capture_screenshot.
  destruct (Session.screenshot_capture s); cbn; auto.
  rewrite filter_app. cbn. now rewrite app_nil_r.
Qed.

(** C10.  With the keystroke callback set, a key press either calls the
    hotkey callback, and then it is the only call made: the key that
    completes the hotkey is not reported; or it reports the key and
    nothing else.  In a session, the keystroke events put on the queue
    by a press are the reported key, or nothing when the press fired the
    hotkey; the consumer appends the queue to the timeline as it is.  Of
    the two j of a fired jj only the first becomes a keystroke event. *)
Theorem C10_hotkey_key_not_reported (s : Session.RecordingSession)
    (kc : Keyboard.KeyboardCapture) (key : Keyboard.PynputKey)
    (now now_shot : Z)
    (Hkc : Session.keyboard_capture s = Some kc)
    (Hcallback : Keyboard.on_keystroke kc = true) :
  let r := Keyboard._on_press kc key now in
  let fired := existsb Keyboard.is_hotkey_call (snd r) in
  let reported :=
    Keyboard.on_keystroke_call (fst (Keyboard._get_key_str key))
      (ms_of_us (now - Keyboard.start_time kc))
      (snd (Keyboard._get_key_str key)) in
  let s' := fst (Session.key_press s key now now_shot) in
  snd r = (if fired then [Keyboard.on_hotkey_call (Py.lit "screenshot")]
           else [reported]) /\
  filter is_keystroke (Session.event_queue s') =
    filter is_keystroke (Session.event_queue s) ++
    (if fired then []
     else [KeystrokeEvent (ms_of_us (now - Keyboard.start_time kc))
             (fst (Keyboard._get_key_str key))
             (snd (Keyboard._get_key_str key))]) /\
  events (Session.timeline (Session.drain s')) =
    events (Session.timeline s') ++ Session.event_queue s' /\
  snd (Keyboard.press_all (fresh_capture 300000 jj 0)
         [(Keyboard.plain j, 0); (Keyboard.plain j, 200000)]) =
    [Keyboard.on_keystroke_call j 0 false;
     Keyboard.on_hotkey_call (Py.lit "screenshot")].
Proof.
  intros r fired reported s'. subst s' reported fired r.
  unfold Session.key_press. rewrite Hkc.
  pose proof (on_press_fired kc key now) as Hf.
  pose proof (on_press_not_fired kc key now) as Hn.
  destruct (Keyboard._on_press kc key now) as [kc' calls].
  cbn [fst snd] in *.
  split; [|split; [|split; [apply drain_events|reflexivity]]].
  - destruct (existsb Keyboard.is_hotkey_call calls).
    + now destruct (Hf eq_refl) as (-> & _).
    + now rewrite (Hn eq_refl), Hcallback.
  - destruct (existsb Keyboard.is_hotkey_call calls).
    + destruct (Hf eq_refl) as (-> & _).
      cbn [Session.deliver_calls Session.deliver_call].
      unfold Session._on_hotkey. rewrite str_eqb_refl.
      match goal with
      | |- context [Session._capture_screenshot ?a ?b ?c] =>
          pose proof (capture_screenshot_keystrokes a b c) as Hc;
          destruct (Session._capture_screenshot a b c) as [[s1 f1] e1]
      end.
      cbn in Hc |- *. rewrite Hc. now rewrite app_nil_r.
    + rewrite (Hn eq_refl), Hcallback. cbn. now rewrite filter_app.
Qed.

Lemma C10_hotkey_key_not_reported_witness :
  let s := Session.start (Session.new default_config) 0 0 (Py.lit "session_x") in
  let s1 := fst (Session.key_press s (Keyboard.plain j) 100000 100001) in
  let s2 := fst (Session.key_press s1 (Keyboard.plain j) 300000 300001) in
  (exists kc, Session.keyboard_capture s1 = Some kc /\
              Keyboard.on_keystroke kc = true) /\
  filter is_keystroke (Session.event_queue s2) = [KeystrokeEvent 100 j false].
Proof.
  intros s s1 s2.
  destruct (Session.keyboard_capture s1) as [kc|] eqn:Hkc;
    [|vm_compute in Hkc; discriminate Hkc].
  assert (Hcb : Keyboard.on_keystroke kc = true).
  { vm_compute in Hkc. inversion Hkc. reflexivity. }
  split; [exists kc; split; [reflexivity|exact Hcb]|].
  pose proof (proj1 (proj2 (@C10_hotkey_key_not_reported s1 kc
                              (Keyboard.plain j) 300000 300001 Hkc Hcb))) as H.
  fold s2 in H. rewrite H.
  vm_compute in Hkc. inversion Hkc; subst kc. reflexivity.
Defined.

(** ** Voice commands on an utterance (claim C2) *)

Lemma capture_screenshot_started (s : Session.RecordingSession)
    (trigger : Py.str) (now : Z) :
  Session.screenshot_capture s = true ->
  Session._capture_screenshot s trigger now =
  let ts := get_timestamp_ms now (Session.timeline s) in
  (Session.set_screenshots
     (Session.put (ScreenshotEvent ts (Session.capture ts) trigger) s)
     (Session.screenshots s ++ [Session.capture ts]) trigger,
   Some (Session.capture ts),
   [Session.write_file (Session.capture ts);
    Session.notify_screenshot_taken (Session.capture ts)]).
Proof.
  unfold Session._capture_screenshot. now intros ->.
Qed.

(** C2, as amended.  On a finalized utterance the trigger check is exact,
    not fuzzy: a screenshot is taken (its event queued after the
    transcript event, with the trigger label voice: and the word) if and
    only if the lower-cased trigger word is not empty and occurs as a
    substring of the lower-cased utterance.  Only the stop check is
    tolerant of mis-transcription: the stop request is raised if and only
    if the stop phrase is not empty and some word of the utterance,
    lower-cased and stripped of punctuation, is within edit distance 2 of
    it.  The two checks are made one after the other on every finalized
    utterance, so one utterance can satisfy both; a partial utterance
    runs neither. *)
Theorem C2_trigger_exact_stop_fuzzy (s : Session.RecordingSession)
    (text : Py.str) (confidence now now_shot : Z)
    (Hcapture : Session.screenshot_capture s = true) :
  let r := Session._on_transcript s text confidence false now now_shot in
  let trigger_word := Py.lower (voice_trigger (Session.config s)) in
  let stop_phrase := voice_stop (Session.config s) in
  let triggered :=
    Py.truthy trigger_word && Py.contains trigger_word (Py.lower text) in
  let stopped :=
    Py.truthy stop_phrase && Voice._sounds_like text stop_phrase 2 in
  let ts := get_timestamp_ms now_shot (Session.timeline s) in
  Session.event_queue (fst r) =
    Session.event_queue s ++
    TranscriptEvent (get_timestamp_ms now (Session.timeline s)) text confidence false ::
    (if triggered
     then [ScreenshotEvent ts (Session.capture ts) (Py.lit "voice:" ++ trigger_word)]
     else []) /\
  Session._voice_stop_requested (fst r) =
    (Session._voice_stop_requested s || stopped) /\
  Session.event_queue
    (fst (Session._on_transcript s text confidence true now now_shot)) =
    Session.event_queue s ++
    [TranscriptEvent (get_timestamp_ms now (Session.timeline s)) text confidence true] /\
  Session._voice_stop_requested
    (fst (Session._on_transcript s text confidence true now now_shot)) =
    Session._voice_stop_requested s /\
  (let r2 := Session._on_transcript started_session
               (Py.lit "Marco, we are done. Finito!") 90 false 5000000 5000100 in
   existsb is_screenshot (Session.event_queue (fst r2)) = true /\
   Session._voice_stop_requested (fst r2) = true).
Proof.
  intros r trigger_word stop_phrase triggered stopped ts.
  subst r ts stopped triggered stop_phrase trigger_word.
  unfold Session._on_transcript. cbn [negb].
  rewrite capture_screenshot_started by exact Hcapture.
  session_simpl.
  split; [|split; [|split; [reflexivity|split; [reflexivity|]]]].
  - destruct (Py.truthy (Py.lower (voice_trigger (Session.config s))) &&
              Py.contains (Py.lower (voice_trigger (Session.config s)))
                (Py.lower text));
      session_simpl;
      destruct (Py.truthy (voice_stop (Session.config s)) &&
                Voice._sounds_like text (voice_stop (Session.config s)) 2);
      session_simpl; auto; now rewrite <- app_assoc.
  - destruct (Py.truthy (Py.lower (voice_trigger (Session.config s))) &&
              Py.contains (Py.lower (voice_trigger (Session.config s)))
                (Py.lower text));
      session_simpl;
      destruct (Py.truthy (voice_stop (Session.config s)) &&
                Voice._sounds_like text (voice_stop (Session.config s)) 2);
      session_simpl; auto using orb_true_r, orb_false_r.
  - vm_compute. split; reflexivity.
Qed.

Lemma C2_trigger_exact_stop_fuzzy_witness :
  Session.screenshot_capture started_session = true /\
  existsb is_screenshot
    (Session.event_queue
       (fst (Session._on_transcript started_session
               (Py.lit "ok marco") 90 false 5000000 5000100))) = true.
Proof.
  split; [reflexivity|].
  rewrite (proj1 (@C2_trigger_exact_stop_fuzzy started_session
                    (Py.lit "ok marco") 90 5000000 5000100 eq_refl)).
  reflexivity.
Defined.

(** C2 as stated fails in both directions.  The utterance Margo has a
    word within edit distance 1 of the trigger word marco, and no
    screenshot is taken; the utterance Marcopolo has no word within
    edit distance 2 of marco, and a screenshot is taken. *)
Lemma C2_counterexample :
  let trigger := voice_trigger (Session.config started_session) in
  let shots text :=
    existsb is_screenshot
      (Session.event_queue
         (fst (Session._on_transcript started_session text 90 false
                 5000000 5000100))) in
  (Voice._sounds_like (Py.lit "Margo") trigger 2 = true /\
   shots (Py.lit "Margo") = false) /\
  (Voice._sounds_like (Py.lit "Marcopolo") trigger 2 = false /\
   shots (Py.lit "Marcopolo") = true).
Proof. vm_compute. repeat split. Qed.

(** ** Stopping the session (claim C4) *)

Lemma keyboard_stop_idempotent (kc : Keyboard.KeyboardCapture) :
  Keyboard.stop (Keyboard.stop kc) = Keyboard.stop kc.
Proof.
  unfold Keyboard.stop. destruct (Keyboard.listener kc) eqn:Hl; cbn; auto.
  now rewrite Hl.
Qed.

Lemma capture_screenshot_machinery (s : Session.RecordingSession)
    (trigger : Py.str) (now : Z) :
  machinery (fst (fst (Session._capture_screenshot s trigger now))) = machinery s.
Proof.
  unfold Session._capture_screenshot.
  destruct (Session.screenshot_capture s); reflexivity.
Qed.

Lemma on_transcript_machinery (s : Session.RecordingSession) (text : Py.str)
    (confidence : Z) (is_partial : bool) (now now_shot : Z) :
  machinery (fst (Session._on_transcript s text confidence is_partial now now_shot))
  = machinery s.
Proof.
  unfold Session._on_transcript.
  destruct is_partial; cbn [negb]; [reflexivity|].
  match goal with
  | |- context [Session._capture_screenshot ?a ?b ?c] =>
      pose proof (capture_screenshot_machinery a b c) as Hc;
      destruct (Session._capture_screenshot a b c) as [[s1 f1] e1]
  end.
  cbn [fst] in Hc.
  destruct (Py.truthy _ && Py.contains _ _).
  - assert (Hcfg : Session.config s1 = Session.config s)
      by (unfold machinery in Hc; session_simpl in Hc; congruence).
    rewrite Hcfg.
    unfold machinery in Hc |- *. session_simpl in Hc.
    destruct (Py.truthy _ && Voice._sounds_like _ _ _); session_simpl;
      exact Hc.
  - session_simpl.
    destruct (Py.truthy _ && Voice._sounds_like _ _ _); reflexivity.
Qed.

Lemma stop_fst (s : Session.RecordingSession) (env : Session.StopEnv) :
  fst (Session.stop s env) =
  fst (Session.finish
         (Session.join_consumer
            (fst (Session.join_audio
                    (Session.stop_captures (Session.signal_stop s env)) env)))
         env).
Proof.
  unfold Session.stop.
  destruct (Session.join_audio _ env) as [sa ea].
  destruct (Session.finish _ env) as [sf ef]. reflexivity.
Qed.

Lemma join_audio_machinery (s : Session.RecordingSession) (env : Session.StopEnv) :
  machinery (fst (Session.join_audio s env)) =
  machinery (Session.set_threads s (Session.consumer_alive s) false).
Proof.
  unfold Session.join_audio.
  destruct (Session.audio_alive s) eqn:Ha.
  - destruct (Session.worker_model _) as [[|]|];
      destruct (Session.flushed env) as [[[[text c] t1] t2]|];
      try reflexivity.
    apply on_transcript_machinery.
  - unfold machinery. session_simpl. now rewrite Ha.
Qed.

Lemma join_audio_queue_idle (s : Session.RecordingSession) (env : Session.StopEnv) :
  Session.audio_alive s = false ->
  Session.join_audio s env = (s, []).
Proof. unfold Session.join_audio. now intros ->. Qed.

Lemma join_consumer_machinery (s : Session.RecordingSession) :
  Session.audio_stream (Session.join_consumer s) = Session.audio_stream s /\
  Session.keyboard_capture (Session.join_consumer s) = Session.keyboard_capture s /\
  Session.clipboard_thread (Session.join_consumer s) = Session.clipboard_thread s /\
  Session.running (Session.join_consumer s) = Session.running s /\
  Session.audio_alive (Session.join_consumer s) = Session.audio_alive s /\
  Session.consumer_alive (Session.join_consumer s) = false.
Proof.
  unfold Session.join_consumer, Session.drain.
  destruct (Session.consumer_alive s) eqn:Hc; session_simpl; auto 10.
Qed.

Lemma finish_frame (s : Session.RecordingSession) (env : Session.StopEnv) :
  machinery (fst (Session.finish s env)) = machinery s /\
  Session.event_queue (fst (Session.finish s env)) = Session.event_queue s /\
  Session.timeline (fst (Session.finish s env)) = Session.timeline s.
Proof.
  unfold Session.finish, Session._run_full_transcription. session_simpl.
  destruct (save_audio (Session.config s) && _ && _); session_simpl; auto.
  destruct (Session.worker_model s) as [[|]|], (Session.segments env);
    session_simpl; auto.
Qed.

(** What [stop] leaves of the threads and the capture modules, whatever
    the session and the outside. *)
Lemma stop_fields (s : Session.RecordingSession) (env : Session.StopEnv) :
  let s' := fst (Session.stop s env) in
  Session.audio_alive s' = false /\
  Session.consumer_alive s' = false /\
  Session.running s' = false /\
  Session.audio_stream s' =
    match Session.audio_stream s with Some _ => Some false | None => None end /\
  Session.keyboard_capture s' =
    option_map Keyboard.stop (Session.keyboard_capture s) /\
  Session.clipboard_thread s' =
    match Session.clipboard_thread s with Some _ => Some false | None => None end.
Proof.
  intros s'. subst s'. rewrite stop_fst.
  remember (Session.stop_captures (Session.signal_stop s env)) as s0 eqn:Hs0.
  remember (fst (Session.join_audio s0 env)) as sa eqn:Hsa.
  pose proof (join_audio_machinery s0 env) as Hja. rewrite <- Hsa in Hja.
  pose proof (join_consumer_machinery sa) as (J1 & J2 & J3 & J4 & J5 & J6).
  pose proof (finish_frame (Session.join_consumer sa) env) as [Hf _].
  remember (Session.join_consumer sa) as sc eqn:Hsc.
  remember (fst (Session.finish sc env)) as sf eqn:Hsf.
  unfold machinery in Hf, Hja. session_simpl in Hja.
  inversion Hf as [[F1 F2 F3 F4 F5 F6 F7 F8 F9 F10 F11 F12]].
  inversion Hja as [[A1 A2 A3 A4 A5 A6 A7 A8 A9 A10 A11 A12]].
  rewrite F10, F9, F3, F4, F6, F7.
  rewrite J1, J2, J3, J4, J5, J6, A3, A4, A6, A7, A10.
  subst s0. unfold Session.stop_captures, Session.signal_stop. session_simpl.
  repeat split.
Qed.

(** A session whose threads have returned: [stop] only signals, stops
    the capture modules and finishes. *)
Lemma stop_after_threads (s : Session.RecordingSession) (env : Session.StopEnv) :
  Session.audio_alive s = false ->
  Session.consumer_alive s = false ->
  fst (Session.stop s env) =
  fst (Session.finish (Session.stop_captures (Session.signal_stop s env)) env).
Proof.
  intros Ha Hc. rewrite stop_fst.
  rewrite join_audio_queue_idle by exact Ha. cbn [fst].
  unfold Session.join_consumer.
  replace (Session.consumer_alive (Session.stop_captures (Session.signal_stop s env)))
    with false by (symmetry; exact Hc).
  reflexivity.
Qed.

(** C4, as amended.  Stopping is not idempotent for the session: a
    second call to stop overwrites the end instant of the timeline with
    the time of the second call and puts one more SessionEnd event on
    the event queue; the timeline's events stay as they were, the
    consumer thread having returned.  The producers' stop operations are
    idempotent: the audio stream, the keyboard capture and the clipboard
    thread are after the second call as they were after the first. *)
Theorem C4_stop_twice (s : Session.RecordingSession)
    (env1 env2 : Session.StopEnv) :
  let s1 := fst (Session.stop s env1) in
  let s2 := fst (Session.stop s1 env2) in
  Session.event_queue s2 =
    Session.event_queue s1 ++
    [mkEvent SESSION_END
       (get_timestamp_ms (Session.now env2) (Session.timeline s1)) []] /\
  ended_at (Session.timeline s2) = Some (Session.now_dt env2) /\
  events (Session.timeline s2) = events (Session.timeline s1) /\
  Session.audio_stream s2 = Session.audio_stream s1 /\
  Session.keyboard_capture s2 = Session.keyboard_capture s1 /\
  Session.clipboard_thread s2 = Session.clipboard_thread s1 /\
  Session.running s2 = false.
Proof.
  intros s1 s2.
  destruct (stop_fields s env1) as (Ha & Hc & _ & Hau & Hkc & Hcl).
  fold s1 in Ha, Hc, Hau, Hkc, Hcl.
  destruct (stop_fields s1 env2) as (_ & _ & Hr2 & Hau2 & Hkc2 & Hcl2).
  fold s2 in Hr2, Hau2, Hkc2, Hcl2.
  assert (Hs2 : s2 = fst (Session.finish
                            (Session.stop_captures (Session.signal_stop s1 env2))
                            env2))
    by (subst s2; now apply stop_after_threads).
  destruct (finish_frame (Session.stop_captures (Session.signal_stop s1 env2)) env2)
    as (_ & Hq & Ht).
  rewrite <- Hs2 in Hq, Ht.
  split; [|split; [|split; [|split; [|split; [|split]]]]].
  - rewrite Hq. reflexivity.
  - rewrite Ht. reflexivity.
  - rewrite Ht. reflexivity.
  - rewrite Hau2, Hau. now destruct (Session.audio_stream s).
  - rewrite Hkc2, Hkc. destruct (Session.keyboard_capture s); cbn; auto.
    now rewrite keyboard_stop_idempotent.
  - rewrite Hcl2, Hcl. now destruct (Session.clipboard_thread s).
  - exact Hr2.
Qed.

(** C4 as stated fails: stopping a started session twice, even with the
    same clock readings, leaves a SessionEnd event on the queue that the
    first stop did not leave, so the second call changed the state. *)
Lemma C4_counterexample :
  let env := Session.mkStopEnv 9000000 9000000 None None in
  let s1 := fst (Session.stop started_session env) in
  let s2 := fst (Session.stop s1 env) in
  Session.event_queue s1 = [] /\
  Session.event_queue s2 = [mkEvent SESSION_END 9000 []] /\
  s2 <> s1.
Proof.
  intros env s1 s2. split; [reflexivity|]. split; [reflexivity|].
  intros H. apply (f_equal Session.event_queue) in H.
  vm_compute in H. discriminate H.
Qed.

(** ** The edit distance of the voice matcher *)

Local Open Scope nat_scope.

Lemma nth_skipn (A : Type) (l : list A) (j k : nat) (d : A) :
  nth k (skipn j l) d = nth (j + k) l d.
Proof.
  revert l. induction j as [|j IH]; intros l; simpl; auto.
  destruct l as [|x l]; simpl.
  - now destruct k.
  - apply IH.
Qed.

Lemma tl_skipn (A : Type) (l : list A) (j : nat) :
  tl (skipn j l) = skipn (S j) l.
Proof.
  revert l. induction j as [|j IH]; intros l.
  - now destruct l.
  - destruct l as [|x l]; auto. apply (IH l).
Qed.

Lemma inner_loop_scan (c1 : ascii) (s2 : Py.str) :
  forall (j : nat) (prev curr : list nat),
    List.length curr = S j ->
    Voice.inner_loop c1 s2 j prev curr =
    curr ++ next_row c1 s2 (skipn j prev) (nth j curr 0%nat).
Proof.
  induction s2 as [|c2 s2 IH]; intros j prev curr Hlen; simpl.
  - now rewrite app_nil_r.
  - rewrite IH by (rewrite length_app; simpl; lia).
    rewrite <- app_assoc. simpl. rewrite !nth_skipn, tl_skipn.
    rewrite Nat.add_0_r.
    replace (nth (S j) (curr ++ _) 0%nat) with
      (Nat.min (nth (j + 1) prev 0 + 1)
         (Nat.min (nth j curr 0 + 1)
            (nth j prev 0 + (if ascii_dec c1 c2 then 0 else 1))))%nat.
    + reflexivity.
    + rewrite app_nth2 by lia. rewrite Hlen, Nat.sub_diag. reflexivity.
Qed.

(** The rows of [outer_loop], one character of [s1] at a time. *)
Lemma outer_loop_step (c1 : ascii) (s1 : Py.str) (i : nat) (s2 : Py.str)
    (prev : list nat) :
  Voice.outer_loop (c1 :: s1) i s2 prev =
  Voice.outer_loop s1 (S i) s2 (S i :: next_row c1 s2 prev (S i)).
Proof.
  simpl. rewrite inner_loop_scan by reflexivity. simpl.
  now rewrite Nat.add_1_r.
Qed.

Lemma next_row_length (c1 : ascii) (s2 : Py.str) (prev : list nat) (left : nat) :
  List.length (next_row c1 s2 prev left) = List.length s2.
Proof.
  revert prev left. induction s2 as [|c2 s2 IH]; intros; simpl; auto.
Qed.

Lemma next_row_above (c1 : ascii) (s2 : Py.str) :
  forall (prev : list nat) (left i j0 : nat),
    (List.length s2 < List.length prev)%nat ->
    row_above i j0 prev ->
    (S i - j0 <= left /\ j0 - S i <= left)%nat ->
    row_above (S i) (S j0) (next_row c1 s2 prev left).
Proof.
  induction s2 as [|c2 s2 IH]; intros prev left i j0 Hlen Hprev Hleft k Hk;
    simpl in Hk; [lia|].
  destruct prev as [|p0 [|p1 prev]]; simpl in Hlen; try lia.
  pose proof (Hprev 0%nat ltac:(simpl; lia)) as H0.
  pose proof (Hprev 1%nat ltac:(simpl; lia)) as H1.
  simpl in H0, H1.
  destruct k as [|k].
  - simpl. clear Hk IH Hprev. destruct (ascii_dec c1 c2); lia.
  - cbn [next_row nth tl].
    assert (Hrec : row_above (S i) (S (S j0))
              (next_row c1 s2 (p1 :: prev)
                 (Nat.min (p1 + 1)
                    (Nat.min (left + 1)
                       (p0 + (if ascii_dec c1 c2 then 0 else 1)))))).
    { apply IH.
      - simpl; lia.
      - intros k' Hk'. specialize (Hprev (S k') ltac:(simpl in *; lia)).
        simpl in Hprev. replace (S j0 + k')%nat with (j0 + S k')%nat by lia.
        exact Hprev.
      - clear Hk IH Hprev. destruct (ascii_dec c1 c2); lia. }
    rewrite next_row_length in Hk.
    specialize (Hrec k ltac:(rewrite next_row_length; lia)).
    replace (S j0 + S k)%nat with (S (S j0) + k)%nat by lia. exact Hrec.
Qed.

Lemma outer_loop_above (s1 s2 : Py.str) :
  forall (i : nat) (prev : list nat),
    List.length prev = S (List.length s2) ->
    row_above i 0 prev ->
    List.length (Voice.outer_loop s1 i s2 prev) = S (List.length s2) /\
    row_above (i + List.length s1) 0 (Voice.outer_loop s1 i s2 prev).
Proof.
  induction s1 as [|c1 s1 IH]; intros i prev Hlen Hprev.
  - simpl. rewrite Nat.add_0_r. auto.
  - rewrite outer_loop_step.
    replace (i + List.length (c1 :: s1))%nat with (S i + List.length s1)%nat
      by (simpl; lia).
    apply IH.
    + simpl. now rewrite next_row_length.
    + intros k Hk. destruct k as [|k].
      * simpl. lia.
      * simpl in Hk. rewrite next_row_length in Hk.
        pose proof (@next_row_above c1 s2 prev (S i) i 0%nat
                      ltac:(lia) Hprev ltac:(lia) k
                      ltac:(rewrite next_row_length; lia)) as H.
        simpl. simpl in H. exact H.
Qed.

Lemma seq_above (n : nat) : row_above 0 0 (seq 0 n).
Proof.
  intros k Hk. rewrite length_seq in Hk. rewrite seq_nth by exact Hk. lia.
Qed.

Lemma last_nth (l : list nat) (d : nat) :
  last l d = nth (List.length l - 1) l d.
Proof.
  induction l as [|x [|y l] IH]; auto.
  change (last (x :: y :: l) d) with (last (y :: l) d). rewrite IH.
  simpl. now rewrite Nat.sub_0_r.
Qed.

(** The distance is at least the difference of the lengths: the length
    test made before [edit_distance] never hides a match. *)
Lemma edit_distance_length_diff (s1 s2 : Py.str) :
  (List.length s1 - List.length s2 <= Voice.edit_distance s1 s2 /\
   List.length s2 - List.length s1 <= Voice.edit_distance s1 s2)%nat.
Proof.
  assert (Hgen : forall a b : Py.str,
             (List.length b <= List.length a)%nat ->
             (List.length a - List.length b <=
              (if (List.length b =? 0)%nat then List.length a
               else last (Voice.outer_loop a 0 b (seq 0 (List.length b + 1))) 0))%nat).
  { intros a b Hab. destruct (List.length b =? 0)%nat eqn:Hb0; [lia|].
    apply Nat.eqb_neq in Hb0.
    destruct (@outer_loop_above a b 0%nat (seq 0 (List.length b + 1)))
      as [Hlen Hrow].
    - rewrite length_seq. lia.
    - apply seq_above.
    - rewrite last_nth, Hlen.
      specialize (Hrow (List.length b) ltac:(lia)). simpl in Hrow.
      replace (S (List.length b) - 1)%nat with (List.length b) by lia. lia. }
  unfold Voice.edit_distance.
  destruct (List.length s1 <? List.length s2)%nat eqn:Hlt.
  - apply Nat.ltb_lt in Hlt. specialize (Hgen s2 s1 ltac:(lia)). lia.
  - apply Nat.ltb_ge in Hlt. specialize (Hgen s1 s2 Hlt). lia.
Qed.

Local Close Scope nat_scope.

Local Open Scope nat_scope.

Lemma next_row_substitution (c1 : ascii) (s2 : Py.str) :
  forall (prev : list nat) (left k : nat) (c2 : ascii),
    nth_error s2 k = Some c2 ->
    nth k (next_row c1 s2 prev left) 0 <=
    nth k prev 0 + (if ascii_dec c1 c2 then 0 else 1).
Proof.
  induction s2 as [|c s2 IH]; intros prev left k c2 Hk.
  - destruct k; discriminate.
  - destruct k as [|k]; simpl in Hk.
    + inversion Hk; subst. simpl. lia.
    + cbn [next_row nth]. etransitivity; [apply (IH _ _ _ _ Hk)|].
      destruct prev; simpl; [destruct k|]; lia.
Qed.

Lemma skipn_cons_nth_error (A : Type) (l : list A) (i : nat) (x : A)
    (rest : list A) :
  skipn i l = x :: rest -> nth_error l i = Some x /\ skipn (S i) l = rest.
Proof.
  revert l. induction i as [|i IH]; intros l H.
  - simpl in H. subst. auto.
  - destruct l as [|y l]; [discriminate|]. apply (IH l H).
Qed.

Lemma outer_loop_diagonal (s2 rest : Py.str) :
  forall (i : nat) (prev : list nat),
    i <= List.length s2 ->
    skipn i s2 = rest ->
    nth i prev 0 = 0 ->
    nth (List.length s2) (Voice.outer_loop rest i s2 prev) 0 = 0.
Proof.
  induction rest as [|c1 rest IH]; intros i prev Hi Hskip Hdiag.
  - simpl. assert (List.length (skipn i s2) = 0) by now rewrite Hskip.
    rewrite length_skipn in H. replace (List.length s2) with i by lia.
    exact Hdiag.
  - rewrite outer_loop_step.
    destruct (skipn_cons_nth_error _ _ Hskip) as [Hc Hrest].
    apply IH; auto.
    + apply nth_error_Some. intros E. rewrite E in Hc. discriminate.
    + cbn [nth].
      pose proof (@next_row_substitution c1 s2 prev (S i) i c1 Hc) as H.
      rewrite Hdiag in H. destruct (ascii_dec c1 c1); [lia|congruence].
Qed.

(** A string is at distance 0 from itself. *)
Lemma edit_distance_same (x : Py.str) : Voice.edit_distance x x = 0.
Proof.
  unfold Voice.edit_distance. rewrite Nat.ltb_irrefl.
  destruct (List.length x =? 0) eqn:H0.
  - now apply Nat.eqb_eq.
  - apply Nat.eqb_neq in H0.
    destruct (@outer_loop_above x x 0 (seq 0 (List.length x + 1))) as [Hlen _].
    + rewrite length_seq. lia.
    + apply seq_above.
    + rewrite last_nth, Hlen.
      replace (S (List.length x) - 1) with (List.length x) by lia.
      apply outer_loop_diagonal; [lia|reflexivity|].
      rewrite Nat.add_1_r. reflexivity.
Qed.

Local Close Scope nat_scope.

(** ** Filtering the transcript (claim C6) *)

(** *** Words of a text *)

Lemma split_aux_token (tok : Py.str) :
  Forall (fun c => Py.isspace c = false) tok ->
  forall cur rest, Py.split_aux cur (tok ++ rest) = Py.split_aux (rev tok ++ cur) rest.
Proof.
  induction 1 as [|c tok Hc _ IH]; intros cur rest; simpl; auto.
  rewrite Hc, IH. now rewrite <- app_assoc.
Qed.

Lemma split_token_end (tok : Py.str) :
  is_token tok -> Py.split tok = [tok].
Proof.
  intros [Hne Hall]. unfold Py.split.
  rewrite <- (app_nil_r tok) at 1. rewrite split_aux_token by exact Hall.
  simpl. rewrite app_nil_r.
  destruct (rev tok) eqn:Hr.
  - apply (f_equal (@rev ascii)) in Hr. rewrite rev_involutive in Hr.
    simpl in Hr. congruence.
  - now rewrite <- Hr, rev_involutive.
Qed.

Lemma split_token_space (tok : Py.str) (c : ascii) (rest : Py.str) :
  is_token tok -> Py.isspace c = true ->
  Py.split (tok ++ c :: rest) = tok :: Py.split rest.
Proof.
  intros [Hne Hall] Hc. unfold Py.split.
  rewrite split_aux_token by exact Hall. simpl. rewrite Hc, app_nil_r.
  destruct (rev tok) eqn:Hr.
  - apply (f_equal (@rev ascii)) in Hr. rewrite rev_involutive in Hr.
    simpl in Hr. congruence.
  - now rewrite <- Hr, rev_involutive.
Qed.

Lemma split_space (c : ascii) (s : Py.str) :
  Py.isspace c = true -> Py.split (c :: s) = Py.split s.
Proof. intros Hc. unfold Py.split. simpl. now rewrite Hc. Qed.

Lemma split_join (toks : list Py.str) :
  Forall is_token toks -> Py.split (Py.join (Py.lit " ") toks) = toks.
Proof.
  induction 1 as [|tok toks Htok Htoks IH]; auto.
  destruct toks as [|tok2 toks].
  - simpl. now apply split_token_end.
  - change (Py.join (Py.lit " ") (tok :: tok2 :: toks))
      with (tok ++ " "%char :: Py.join (Py.lit " ") (tok2 :: toks)).
    rewrite split_token_space by (auto; reflexivity). now rewrite IH.
Qed.



(** The last clean-up of [_filter_voice_commands] changes nothing in
    words joined by single spaces. *)
Lemma sub_spaces_token (tok : Py.str) (rest : Py.str) (b : bool) :
  Forall (fun c => Py.isspace c = false) tok -> tok <> [] ->
  Re.sub_spaces_from b (tok ++ rest) = tok ++ Re.sub_spaces_from false rest.
Proof.
  intros Hall. revert b. induction Hall as [|c tok Hc Hall IH]; intros b Hne.
  - congruence.
  - simpl. rewrite Hc. f_equal.
    destruct tok as [|c2 tok]; [reflexivity|].
    apply IH. discriminate.
Qed.

Lemma sub_spaces_from_join (toks : list Py.str) :
  Forall is_token toks ->
  forall b, Re.sub_spaces_from b (Py.join (Py.lit " ") toks) =
            Py.join (Py.lit " ") toks.
Proof.
  induction 1 as [|tok toks [Hne Hall] Htoks IH]; intros b; auto.
  destruct toks as [|tok2 toks].
  - simpl. rewrite <- (app_nil_r tok) at 1.
    rewrite sub_spaces_token by auto. simpl. now rewrite app_nil_r.
  - change (Py.join (Py.lit " ") (tok :: tok2 :: toks))
      with (tok ++ " "%char :: Py.join (Py.lit " ") (tok2 :: toks)).
    rewrite sub_spaces_token by auto. f_equal.
    cbn [Re.sub_spaces_from]. change (Py.isspace " ") with true. cbn iota.
    f_equal. apply IH.
Qed.

Lemma sub_spaces_join (toks : list Py.str) :
  Forall is_token toks ->
  Re.sub_spaces (Py.join (Py.lit " ") toks) = Py.join (Py.lit " ") toks.
Proof. intros H. now apply sub_spaces_from_join. Qed.

Lemma dropwhile_not_head (p : ascii -> bool) (c : ascii) (s : Py.str) :
  p c = false -> Py.dropwhile p (c :: s) = c :: s.
Proof. intros H. simpl. now rewrite H. Qed.

Lemma join_head_last (toks : list Py.str) :
  Forall is_token toks -> toks <> [] ->
  exists a mid b,
    Py.isspace a = false /\ Py.isspace b = false /\
    (Py.join (Py.lit " ") toks = [a] \/
     Py.join (Py.lit " ") toks = a :: mid ++ [b]).
Proof.
  induction 1 as [|tok toks [Hne Hall] Htoks IH]; intros Hn; [congruence|].
  destruct tok as [|a tok]; [congruence|].
  inversion Hall as [|? ? Ha Hall']; subst.
  destruct toks as [|tok2 toks].
  - simpl. destruct (@exists_last _ (a :: tok) ltac:(discriminate)) as (l & b & E).
    destruct l as [|a' l]; simpl in E.
    + inversion E; subst. exists b, [], b. auto.
    + injection E as Ea Et. subst a'. exists a, l, b.
      split; [exact Ha|]. split.
      * rewrite Forall_forall in Hall'. apply Hall'. rewrite Et.
        apply in_or_app. right. now left.
      * right. now rewrite Et.
  - destruct (IH ltac:(discriminate)) as (a2 & mid & b & Ha2 & Hb & Hj).
    change (Py.join (Py.lit " ") ((a :: tok) :: tok2 :: toks))
      with (a :: tok ++ " "%char :: Py.join (Py.lit " ") (tok2 :: toks)).
    destruct Hj as [Hj|Hj]; rewrite Hj.
    + exists a, (tok ++ [" "%char]), a2.
      split; [exact Ha|]. split; [exact Ha2|]. right.
      now rewrite <- app_assoc.
    + exists a, (tok ++ " "%char :: a2 :: mid), b.
      split; [exact Ha|]. split; [exact Hb|]. right.
      rewrite <- app_assoc. reflexivity.
Qed.

Lemma strip_by_ends (p : ascii -> bool) (a b : ascii) (mid : Py.str) :
  p a = false -> p b = false ->
  Py.strip_by p (a :: mid ++ [b]) = a :: mid ++ [b].
Proof.
  intros Ha Hb. unfold Py.strip_by, Py.lstrip_by, Py.rstrip_by.
  rewrite dropwhile_not_head by exact Ha.
  change (a :: mid ++ [b]) with ((a :: mid) ++ [b]).
  rewrite rev_unit, dropwhile_not_head by exact Hb.
  rewrite <- rev_unit. apply rev_involutive.
Qed.

Lemma strip_by_single (p : ascii -> bool) (a : ascii) :
  p a = false -> Py.strip_by p [a] = [a].
Proof.
  intros Ha. unfold Py.strip_by, Py.lstrip_by, Py.rstrip_by.
  simpl. rewrite Ha. simpl. now rewrite Ha.
Qed.

Lemma strip_join (toks : list Py.str) :
  Forall is_token toks ->
  Py.strip (Py.join (Py.lit " ") toks) = Py.join (Py.lit " ") toks.
Proof.
  intros Htoks. destruct toks as [|t toks]; [reflexivity|].
  destruct (join_head_last Htoks ltac:(discriminate))
    as (a & mid & b & Ha & Hb & [E|E]); rewrite E; unfold Py.strip.
  - now apply strip_by_single.
  - now apply strip_by_ends.
Qed.

(** *** Character classes *)

Lemma word_not_space (c : ascii) :
  Re.is_word_char c = true -> Py.isspace c = false.
Proof. ascii_cases c. Qed.

Lemma word_not_cp (c : ascii) : Re.is_word_char c = true -> is_cp c = false.
Proof. ascii_cases c. Qed.

Lemma word_not_punct (c : ascii) :
  Re.is_word_char c = true -> Voice.is_punct c = false.
Proof. ascii_cases c. Qed.

Lemma cp_not_space (c : ascii) : is_cp c = true -> Py.isspace c = false.
Proof. ascii_cases c. Qed.

Lemma cp_not_word (c : ascii) : is_cp c = true -> Re.is_word_char c = false.
Proof. ascii_cases c. Qed.

Lemma cp_is_punct (c : ascii) : is_cp c = true -> Voice.is_punct c = true.
Proof. ascii_cases c. Qed.

Lemma space_not_word (c : ascii) :
  Py.isspace c = true -> Re.is_word_char c = false.
Proof. ascii_cases c. Qed.

Lemma is_trail_cases (c : ascii) : Re.is_trail c = is_cp c || Py.isspace c.
Proof. reflexivity. Qed.

Lemma lower_char_word (c : ascii) :
  Re.is_word_char (Py.lower_char c) = Re.is_word_char c.
Proof. ascii_cases c. Qed.




Lemma last_read_app (prev : option ascii) (a b : Py.str) :
  last_read prev (a ++ b) = last_read (last_read prev a) b.
Proof.
  revert prev. induction a as [|c a IH]; intros prev; simpl; auto.
Qed.

Lemma last_read_cons (prev : option ascii) (c : ascii) (s : Py.str) :
  last_read prev (c :: s) = last_read (Some c) s.
Proof. reflexivity. Qed.

Lemma last_read_word (prev : option ascii) (s : Py.str) :
  s <> [] -> Forall (fun c => Re.is_word_char c = true) s ->
  Re.is_word_opt (last_read prev s) = true.
Proof.
  intros Hne Hall. revert prev. induction Hall as [|c s Hc Hall IH]; intros prev.
  - congruence.
  - rewrite last_read_cons. destruct s as [|c2 s]; [exact Hc|].
    apply IH. discriminate.
Qed.

Lemma last_read_nonword (prev : option ascii) (s : Py.str) :
  s <> [] -> Forall (fun c => Re.is_word_char c = false) s ->
  Re.is_word_opt (last_read prev s) = false.
Proof.
  intros Hne Hall. revert prev. induction Hall as [|c s Hc Hall IH]; intros prev.
  - congruence.
  - rewrite last_read_cons. destruct s as [|c2 s]; [exact Hc|].
    apply IH. discriminate.
Qed.

(** *** The deletion of the exact occurrences of a command word *)

Section Scan.

Variable W : Py.str.
Hypothesis W_not_empty : W <> [].
Hypothesis W_word : Forall (fun c => Re.is_word_char c = true) W.

Lemma match_literal_length (word s : Py.str) :
  forall prev lr rest,
    Re.match_literal word s prev = Some (lr, rest) ->
    List.length s = (List.length word + List.length rest)%nat.
Proof.
  revert s. induction word as [|p word IH]; intros s prev lr rest H; simpl in H.
  - inversion H; subst. reflexivity.
  - destruct s as [|c s]; [discriminate|].
    destruct (ascii_dec (Py.lower_char p) (Py.lower_char c)); [|discriminate].
    apply IH in H. simpl. lia.
Qed.

Lemma match_trail_length (s : Py.str) :
  forall prev, (List.length (snd (Re.match_trail s prev)) <= List.length s)%nat.
Proof.
  induction s as [|c s IH]; intros prev; simpl; auto.
  destruct (Re.is_trail c); simpl; auto.
Qed.

Lemma match_here_shorter (s : Py.str) (prev lr : option ascii) (rest : Py.str) :
  Re.match_here W s prev = Some (lr, rest) ->
  (List.length rest < List.length s)%nat.
Proof.
  unfold Re.match_here. destruct (Re.boundary prev (hd_error s)); [|discriminate].
  destruct (Re.match_literal W s prev) as [[lr' rest']|] eqn:Hm; [|discriminate].
  destruct (Re.boundary lr' (hd_error rest')); [|discriminate].
  intros H. injection H as H. apply match_literal_length in Hm.
  pose proof (match_trail_length rest' lr') as Ht. rewrite H in Ht. simpl in Ht.
  destruct W; [congruence|]. simpl in Hm. lia.
Qed.

Lemma sub_fuel (f1 : nat) :
  forall (f2 : nat) (s : Py.str) (prev : option ascii),
    (List.length s <= f1)%nat -> (List.length s <= f2)%nat ->
    Re.sub_word_from f1 W s prev = Re.sub_word_from f2 W s prev.
Proof.
  induction f1 as [|f1 IH]; intros f2 s prev H1 H2.
  - destruct s; [|simpl in H1; lia]. destruct f2; reflexivity.
  - destruct f2 as [|f2].
    + destruct s; [reflexivity|simpl in H2; lia].
    + destruct s as [|c s]; [reflexivity|].
      cbn [Re.sub_word_from].
      destruct (Re.match_here W (c :: s) prev) as [[lr rest]|] eqn:Hm.
      * apply match_here_shorter in Hm. simpl in *. apply IH; lia.
      * f_equal. simpl in *. apply IH; lia.
Qed.

Lemma subw_nil (prev : option ascii) : subw W [] prev = [].
Proof. reflexivity. Qed.

Lemma subw_cons (c : ascii) (s : Py.str) (prev : option ascii) :
  subw W (c :: s) prev =
  match Re.match_here W (c :: s) prev with
  | Some (lr, rest) => subw W rest lr
  | None => c :: subw W s (Some c)
  end.
Proof.
  unfold subw. cbn [List.length Re.sub_word_from].
  destruct (Re.match_here W (c :: s) prev) as [[lr rest]|] eqn:Hm; auto.
  apply match_here_shorter in Hm. simpl in Hm. apply sub_fuel; lia.
Qed.

Lemma lower_char_eq_word (p c : ascii) :
  Py.lower_char p = Py.lower_char c -> Re.is_word_char p = Re.is_word_char c.
Proof.
  intros H. rewrite <- (lower_char_word p), <- (lower_char_word c). now rewrite H.
Qed.

(** No occurrence starts on a character that is not a word character,
    nor inside a run of word characters. *)
Lemma no_match_nonword (c : ascii) (s : Py.str) (prev : option ascii) :
  Re.is_word_char c = false -> Re.match_here W (c :: s) prev = None.
Proof.
  intros Hc. unfold Re.match_here.
  destruct (Re.boundary prev (hd_error (c :: s))); auto.
  destruct W as [|p W']; [congruence|]. simpl.
  destruct (ascii_dec (Py.lower_char p) (Py.lower_char c)) as [E|]; auto.
  apply lower_char_eq_word in E. inversion W_word; subst. congruence.
Qed.

Lemma no_match_inside (c : ascii) (s : Py.str) (prev : option ascii) :
  Re.is_word_opt prev = true -> Re.is_word_char c = true ->
  Re.match_here W (c :: s) prev = None.
Proof.
  intros Hp Hc. unfold Re.match_here, Re.boundary. simpl. now rewrite Hp, Hc.
Qed.

Lemma subw_no_start (pre : Py.str) :
  forall (prev : option ascii) (X : Py.str),
    no_start prev pre = true ->
    subw W (pre ++ X) prev = pre ++ subw W X (last_read prev pre).
Proof.
  induction pre as [|c pre IH]; intros prev X H; auto.
  simpl in H. apply andb_true_iff in H. destruct H as [Hc Hpre].
  simpl app. rewrite subw_cons.
  assert (Hm : Re.match_here W (c :: pre ++ X) prev = None).
  { destruct (Re.is_word_char c) eqn:Hw.
    - apply no_match_inside; auto. simpl in Hc.
      now rewrite orb_false_r in Hc.
    - now apply no_match_nonword. }
  rewrite Hm. f_equal. now apply IH.
Qed.

Lemma no_start_word (pre : Py.str) (prev : option ascii) :
  Re.is_word_opt prev = true ->
  Forall (fun c => Re.is_word_char c = true) pre ->
  no_start prev pre = true.
Proof.
  intros Hp Hall. revert prev Hp.
  induction Hall as [|c pre Hc Hall IH]; intros prev Hp; auto.
  simpl. rewrite Hp. simpl. now apply IH.
Qed.

Lemma no_start_nonword (pre : Py.str) (prev : option ascii) :
  Forall (fun c => Re.is_word_char c = false) pre ->
  no_start prev pre = true.
Proof.
  intros Hall. revert prev.
  induction Hall as [|c pre Hc Hall IH]; intros prev; auto.
  simpl. rewrite Hc. simpl. rewrite orb_true_r. apply IH.
Qed.

Lemma no_start_app (a b : Py.str) (prev : option ascii) :
  no_start prev (a ++ b) = no_start prev a && no_start (last_read prev a) b.
Proof.
  revert prev. induction a as [|c a IH]; intros prev; simpl; auto.
  rewrite IH. now rewrite andb_assoc.
Qed.

Lemma ends_word_hd (Y : Py.str) :
  ends_word Y -> Re.is_word_opt (hd_error Y) = false.
Proof. intros [->|(c & r & -> & Hc)]; auto. Qed.

Lemma match_literal_exact (word : Py.str) :
  forall (w Y : Py.str) (prev : option ascii),
    Py.lower word = Py.lower w ->
    Re.match_literal word (w ++ Y) prev = Some (last_read prev w, Y).
Proof.
  induction word as [|p word IH]; intros w Y prev H.
  - destruct w; [reflexivity|discriminate].
  - destruct w as [|c w]; [discriminate|]. simpl in H. injection H as Hc Hw.
    simpl. destruct (ascii_dec (Py.lower_char p) (Py.lower_char c)); [|congruence].
    now apply IH.
Qed.

Lemma match_literal_word (word : Py.str) :
  Forall (fun c => Re.is_word_char c = true) word ->
  forall (w Y : Py.str) (prev lr : option ascii) (rest : Py.str),
    Forall (fun c => Re.is_word_char c = true) w ->
    ends_word Y ->
    Re.match_literal word (w ++ Y) prev = Some (lr, rest) ->
    exists w1 w2,
      w = w1 ++ w2 /\ Py.lower word = Py.lower w1 /\
      rest = w2 ++ Y /\ lr = last_read prev w1.
Proof.
  induction 1 as [|p word Hp Hword IH]; intros w Y prev lr rest Hw HY Hm.
  - simpl in Hm. injection Hm as <- <-. exists [], w. auto.
  - simpl in Hm. destruct w as [|c w].
    + simpl in Hm. destruct HY as [->|(c & r & -> & Hc)]; [discriminate|].
      destruct (ascii_dec (Py.lower_char p) (Py.lower_char c)) as [E|];
        [|discriminate].
      apply lower_char_eq_word in E. congruence.
    + simpl in Hm.
      destruct (ascii_dec (Py.lower_char p) (Py.lower_char c)) as [E|];
        [|discriminate].
      inversion Hw; subst.
      destruct (IH w Y (Some c) lr rest) as (w1 & w2 & -> & Hl & -> & ->); auto.
      exists (c :: w1), w2. repeat split; auto. simpl. now rewrite E, Hl.
Qed.

Lemma ci_eqb_true (a b : Py.str) : ci_eqb a b = true <-> Py.lower a = Py.lower b.
Proof. unfold ci_eqb. apply str_eqb_eq. Qed.

(** At the start of a run of word characters, the pattern matches if
    and only if the run is the command word, whatever the case. *)
Lemma match_here_token (w Y : Py.str) (prev : option ascii) :
  Re.is_word_opt prev = false ->
  w <> [] -> Forall (fun c => Re.is_word_char c = true) w ->
  ends_word Y ->
  Re.match_here W (w ++ Y) prev =
  if ci_eqb w W then Some (Re.match_trail Y (last_read prev w)) else None.
Proof.
  intros Hprev Hne Hw HY. unfold Re.match_here.
  assert (Hb : Re.boundary prev (hd_error (w ++ Y)) = true).
  { unfold Re.boundary. rewrite Hprev. destruct w as [|c w]; [congruence|].
    simpl. now inversion Hw. }
  rewrite Hb.
  destruct (ci_eqb w W) eqn:Hci.
  - apply ci_eqb_true in Hci.
    rewrite (@match_literal_exact W w Y prev) by (symmetry; exact Hci).
    unfold Re.boundary. rewrite (last_read_word prev Hne Hw), (ends_word_hd HY).
    reflexivity.
  - destruct (Re.match_literal W (w ++ Y) prev) as [[lr rest]|] eqn:Hm; auto.
    destruct (@match_literal_word W W_word w Y prev lr rest Hw HY Hm)
      as (w1 & w2 & -> & Hl & -> & ->).
    assert (Hw1 : w1 <> []).
    { intros ->. destruct W; [congruence|discriminate]. }
    apply Forall_app in Hw. destruct Hw as [Hw1w Hw2w].
    unfold Re.boundary. rewrite (last_read_word prev Hw1 Hw1w).
    destruct w2 as [|c2 w2].
    + rewrite app_nil_r in Hci.
      assert (ci_eqb w1 W = true) by (apply ci_eqb_true; auto). congruence.
    + simpl. inversion Hw2w; subst.
      replace (Re.is_word_char c2) with true by auto. reflexivity.
Qed.

Lemma match_trail_app (t : Py.str) :
  forall (rest : Py.str) (prev : option ascii),
    Forall (fun c => Re.is_trail c = true) t ->
    Re.match_trail (t ++ rest) prev = Re.match_trail rest (last_read prev t).
Proof.
  induction t as [|c t IH]; intros rest prev Hall; auto.
  inversion Hall; subst. simpl. replace (Re.is_trail c) with true by auto.
  now apply IH.
Qed.

Lemma match_trail_stop (rest : Py.str) (prev : option ascii) :
  Re.is_word_opt (hd_error rest) = true \/ rest = [] ->
  Re.match_trail rest prev = (prev, rest).
Proof.
  destruct rest as [|c rest]; auto. intros [H|H]; [|discriminate].
  simpl in H. simpl.
  replace (Re.is_trail c) with false; auto.
  rewrite is_trail_cases.
  destruct (is_cp c) eqn:E1; [apply cp_not_word in E1; congruence|].
  destruct (Py.isspace c) eqn:E2; [apply space_not_word in E2; congruence|].
  reflexivity.
Qed.

End Scan.

(** *** Plain transcripts *)

Lemma plain_spaces (s : Py.str) :
  plain_from KS s = true ->
  exists ws rest,
    s = ws ++ rest /\ Forall (fun c => Py.isspace c = true) ws /\
    plain_from KS rest = true /\
    (rest = [] \/ Re.is_word_opt (hd_error rest) = true).
Proof.
  induction s as [|c s IH]; intros H.
  - exists [], []. auto.
  - simpl in H. destruct (Py.isspace c) eqn:Hc.
    + destruct (IH H) as (ws & rest & -> & Hws & Hr & Hh).
      exists (c :: ws), rest. auto.
    + destruct (Re.is_word_char c) eqn:Hw.
      * exists [], (c :: s). split; [reflexivity|]. split; [constructor|].
        split; [simpl; now rewrite Hc, Hw|right; exact Hw].
      * destruct (is_cp c); discriminate.
Qed.

Lemma plain_trail (s : Py.str) :
  plain_from KT s = true ->
  exists t rest,
    s = t ++ rest /\ Forall (fun c => is_cp c = true) t /\
    plain_from KS rest = true /\ space_led rest.
Proof.
  induction s as [|c s IH]; intros H.
  - exists [], []. split; [reflexivity|]. split; [constructor|].
    split; [reflexivity|now left].
  - simpl in H. destruct (Py.isspace c) eqn:Hc.
    + exists [], (c :: s). split; [reflexivity|]. split; [constructor|].
      split; [simpl; now rewrite Hc|right; eauto].
    + destruct (Re.is_word_char c) eqn:Hw; [discriminate|].
      destruct (is_cp c) eqn:Hp; [|discriminate].
      destruct (IH H) as (t & rest & -> & Ht & Hr & Hl).
      exists (c :: t), rest. auto.
Qed.

Lemma plain_word (s : Py.str) :
  plain_from KW s = true ->
  exists w t rest,
    s = w ++ t ++ rest /\ Forall (fun c => Re.is_word_char c = true) w /\
    Forall (fun c => is_cp c = true) t /\
    plain_from KS rest = true /\ space_led rest.
Proof.
  induction s as [|c s IH]; intros H.
  - exists [], [], []. split; [reflexivity|]. split; [constructor|].
    split; [constructor|]. split; [reflexivity|now left].
  - simpl in H. destruct (Py.isspace c) eqn:Hc.
    + exists [], [], (c :: s). split; [reflexivity|]. split; [constructor|].
      split; [constructor|]. split; [simpl; now rewrite Hc|right; eauto].
    + destruct (Re.is_word_char c) eqn:Hw.
      * destruct (IH H) as (w & t & rest & -> & Hwd & Ht & Hr & Hl).
        exists (c :: w), t, rest. auto.
      * destruct (is_cp c) eqn:Hp; [|discriminate].
        destruct (plain_trail _ H) as (t & rest & -> & Ht & Hr & Hl).
        exists [], (c :: t), rest. auto.
Qed.

Lemma takewhile_word (w t : Py.str) :
  Forall (fun c => Re.is_word_char c = true) w ->
  Forall (fun c => is_cp c = true) t ->
  takewhile Re.is_word_char (w ++ t) = w.
Proof.
  intros Hw Ht. induction Hw as [|c w Hc Hw IH]; simpl.
  - destruct Ht as [|c t Hc Ht]; auto. simpl.
    now rewrite (cp_not_word _ Hc).
  - now rewrite Hc, IH.
Qed.

Lemma plain_token_is_token (tok : Py.str) : plain_token tok -> is_token tok.
Proof.
  intros (w & t & -> & Hne & Hw & Ht). split.
  - destruct w; [congruence|discriminate].
  - apply Forall_app. split.
    + eapply Forall_impl; [|exact Hw]. apply word_not_space.
    + eapply Forall_impl; [|exact Ht]. apply cp_not_space.
Qed.

Lemma split_token_rest (tok rest : Py.str) :
  is_token tok -> space_led rest ->
  Py.split (tok ++ rest) = tok :: Py.split rest.
Proof.
  intros Htok [->|(c & r & -> & Hc)].
  - rewrite app_nil_r. now apply split_token_end.
  - rewrite split_token_space by auto. now rewrite split_space.
Qed.

Lemma split_spaces (ws rest : Py.str) :
  Forall (fun c => Py.isspace c = true) ws ->
  Py.split (ws ++ rest) = Py.split rest.
Proof.
  induction 1 as [|c ws Hc _ IH]; auto.
  simpl app. now rewrite split_space.
Qed.

Section ScanPlain.

Variable W : Py.str.
Hypothesis W_not_empty : W <> [].
Hypothesis W_word : Forall (fun c => Re.is_word_char c = true) W.

Lemma subw_space (c : ascii) (s : Py.str) (prev : option ascii) :
  Py.isspace c = true -> subw W (c :: s) prev = c :: subw W s (Some c).
Proof.
  intros Hc. rewrite subw_cons by assumption.
  rewrite no_match_nonword; auto using space_not_word.
Qed.

Lemma subw_space_led (rest : Py.str) (prev : option ascii) :
  space_led rest -> space_led (subw W rest prev).
Proof.
  intros [->|(c & r & -> & Hc)]; [now left|].
  rewrite subw_space by exact Hc. right. eauto.
Qed.

Lemma subw_split_gen (n : nat) :
  forall (s : Py.str) (prev : option ascii),
    (List.length s <= n)%nat ->
    plain_from KS s = true ->
    Re.is_word_opt prev = false \/ space_led s ->
    Py.split (subw W s prev) =
    filter (fun tok => negb (exactb W tok)) (Py.split s).
Proof.
  induction n as [|n IH]; intros s prev Hlen Hplain Hstate.
  - destruct s; [reflexivity|simpl in Hlen; lia].
  - destruct s as [|c s]; [reflexivity|].
    simpl in Hlen. pose proof Hplain as Hplain0. simpl in Hplain.
    destruct (Py.isspace c) eqn:Hc.
    + rewrite subw_space, !split_space by exact Hc.
      apply IH; [lia|exact Hplain|].
      left. simpl. now apply space_not_word.
    + assert (Hprev : Re.is_word_opt prev = false).
      { destruct Hstate as [H|[H|(c' & r & H & Hc')]]; auto; [discriminate|].
        injection H as <- <-. congruence. }
      destruct (Re.is_word_char c) eqn:Hw;
        [|destruct (is_cp c); discriminate].
      destruct (plain_word _ Hplain) as (w & t & rest & -> & Hwd & Ht & Hr & Hl).
      assert (Hwf : Forall (fun x => Re.is_word_char x = true) (c :: w))
        by (constructor; auto).
      assert (Htok : is_token ((c :: w) ++ t)).
      { apply plain_token_is_token. exists (c :: w), t.
        repeat split; auto. discriminate. }
      assert (HY : ends_word (t ++ rest)).
      { destruct t as [|c' t].
        - destruct Hl as [->|(c' & r & -> & Hc')]; [now left|].
          right. exists c', r. split; auto. now apply space_not_word.
        - right. exists c', (t ++ rest). split; auto.
          inversion Ht; subst. now apply cp_not_word. }
      assert (Hsplit : Py.split (c :: w ++ t ++ rest) =
                       ((c :: w) ++ t) :: Py.split rest).
      { change (c :: w ++ t ++ rest) with ((c :: w) ++ t ++ rest).
        rewrite app_assoc. now apply split_token_rest. }
      rewrite Hsplit. cbn [filter]. unfold exactb at 1.
      rewrite (takewhile_word Hwf Ht).
      rewrite subw_cons by assumption.
      change (c :: w ++ t ++ rest) with ((c :: w) ++ t ++ rest).
      rewrite (@match_here_token W W_not_empty W_word (c :: w) (t ++ rest) prev)
        by (auto; discriminate).
      destruct (ci_eqb (c :: w) W) eqn:Hci; cbn [negb].
      * (* the word is the command: it goes, with what trails it *)
        destruct (plain_spaces _ Hr) as (ws & rest' & -> & Hws & Hr' & Hh).
        rewrite match_trail_app
          by (eapply Forall_impl; [|exact Ht]; intros x Hx;
              rewrite is_trail_cases, Hx; reflexivity).
        rewrite match_trail_app
          by (eapply Forall_impl; [|exact Hws]; intros x Hx;
              rewrite is_trail_cases, Hx; apply orb_true_r).
        rewrite match_trail_stop by (destruct Hh; auto).
        rewrite split_spaces by exact Hws.
        apply IH; auto.
        -- rewrite !length_app in Hlen. lia.
        -- destruct Hh as [->|Hh]; [right; now left|]. left.
           apply last_read_nonword.
           ++ intros ->. simpl in Hl.
              destruct Hl as [->|(c' & r & -> & Hc')]; [discriminate|].
              simpl in Hh. apply space_not_word in Hc'. congruence.
           ++ eapply Forall_impl; [|exact Hws]. apply space_not_word.
      * (* any other word stays *)
        rewrite app_assoc.
        rewrite (@subw_no_start W W_not_empty W_word (w ++ t) (Some c) rest).
        2:{ rewrite no_start_app. apply andb_true_iff. split.
            - apply no_start_word; auto.
            - apply no_start_nonword.
              eapply Forall_impl; [|exact Ht]. apply cp_not_word. }
        change (c :: (w ++ t) ++ subw W rest (last_read (Some c) (w ++ t)))
          with (((c :: w) ++ t) ++ subw W rest (last_read (Some c) (w ++ t))).
        rewrite split_token_rest by (auto using subw_space_led).
        f_equal. apply IH; auto.
        rewrite !length_app in Hlen. lia.
Qed.

(** On a plain text, deleting the occurrences of the command word
    deletes the words that spell it, and only them. *)
Lemma sub_word_split (s : Py.str) :
  plain_from KS s = true ->
  Py.split (Re.sub_word W s) =
  filter (fun tok => negb (exactb W tok)) (Py.split s).
Proof.
  intros H. apply (@subw_split_gen (List.length s) s None); auto.
Qed.

End ScanPlain.

(** *** The words of a plain transcript *)

Lemma plain_token_app (tok Y : Py.str) :
  plain_token tok -> space_led Y ->
  plain_from KS (tok ++ Y) = plain_from KS Y.
Proof.
  intros (w & t & -> & Hne & Hw & Ht) HY.
  assert (HYk : forall k, plain_from k Y = plain_from KS Y).
  { intros k. destruct HY as [->|(c & r & -> & Hc)]; [reflexivity|].
    simpl. now rewrite Hc. }
  assert (Htk : forall k, k <> KS -> plain_from k (t ++ Y) = plain_from KS Y).
  { clear Hne Hw. induction Ht as [|c t Hc Ht IH]; intros k Hk; [apply HYk|].
    simpl. rewrite (cp_not_space _ Hc), (cp_not_word _ Hc), Hc.
    destruct k; [congruence| |]; apply IH; discriminate. }
  assert (Hwk : forall k, k <> KT -> w <> [] ->
                          plain_from k (w ++ t ++ Y) = plain_from KS Y).
  { clear Hne. induction Hw as [|c w Hc Hw IH]; intros k Hk Hne; [congruence|].
    simpl. rewrite (word_not_space _ Hc), Hc.
    assert (Hrec : plain_from KW (w ++ t ++ Y) = plain_from KS Y).
    { destruct w as [|c2 w]; [apply Htk; discriminate|].
      apply IH; discriminate. }
    destruct k; [exact Hrec|exact Hrec|congruence]. }
  rewrite <- app_assoc. apply Hwk; [discriminate|exact Hne].
Qed.

Lemma plain_split_gen (n : nat) :
  forall s : Py.str,
    (List.length s <= n)%nat -> plain_from KS s = true ->
    Forall plain_token (Py.split s).
Proof.
  induction n as [|n IH]; intros s Hlen Hplain.
  - destruct s; [constructor|simpl in Hlen; lia].
  - destruct s as [|c s]; [constructor|].
    simpl in Hlen. simpl in Hplain.
    destruct (Py.isspace c) eqn:Hc.
    + rewrite split_space by exact Hc. apply IH; [lia|exact Hplain].
    + destruct (Re.is_word_char c) eqn:Hw;
        [|destruct (is_cp c); discriminate].
      destruct (plain_word _ Hplain) as (w & t & rest & -> & Hwd & Ht & Hr & Hl).
      assert (Htok : plain_token ((c :: w) ++ t)).
      { exists (c :: w), t. repeat split; auto. discriminate. }
      change (c :: w ++ t ++ rest) with ((c :: w) ++ t ++ rest).
      rewrite app_assoc, split_token_rest
        by (auto using plain_token_is_token).
      constructor; [exact Htok|]. apply IH; [|exact Hr].
      rewrite !length_app in Hlen. lia.
Qed.

Lemma plain_split (s : Py.str) :
  plain_from KS s = true -> Forall plain_token (Py.split s).
Proof. apply (@plain_split_gen (List.length s)). lia. Qed.

Lemma join_space_led (toks : list Py.str) (tok : Py.str) :
  space_led (match toks with
             | [] => []
             | _ => " "%char :: Py.join (Py.lit " ") toks
             end).
Proof. destruct toks; [now left|]. right. eauto. Qed.

Lemma plain_join (toks : list Py.str) :
  Forall plain_token toks ->
  plain_from KS (Py.join (Py.lit " ") toks) = true.
Proof.
  induction 1 as [|tok toks Htok Htoks IH]; auto.
  destruct toks as [|tok2 toks].
  - simpl. rewrite <- (app_nil_r tok). rewrite plain_token_app; auto. now left.
  - change (Py.join (Py.lit " ") (tok :: tok2 :: toks))
      with (tok ++ " "%char :: Py.join (Py.lit " ") (tok2 :: toks)).
    rewrite plain_token_app; auto. right. eauto.
Qed.

Lemma Forall_filter (A : Type) (P : A -> Prop) (f : A -> bool) (l : list A) :
  Forall P l -> Forall P (filter f l).
Proof.
  induction 1 as [|x l Hx _ IH]; simpl; auto. destruct (f x); auto.
Qed.

(** *** The fuzzy test on a word of a plain transcript *)

Lemma dropwhile_all (p : ascii -> bool) (l r : Py.str) :
  Forall (fun c => p c = true) l -> Py.dropwhile p (l ++ r) = Py.dropwhile p r.
Proof.
  induction 1 as [|c l Hc _ IH]; auto. simpl. now rewrite Hc.
Qed.

Lemma strip_by_core (p : ascii -> bool) (w t : Py.str) :
  w <> [] ->
  Forall (fun c => p c = false) w -> Forall (fun c => p c = true) t ->
  Py.strip_by p (w ++ t) = w.
Proof.
  intros Hne Hw Ht. unfold Py.strip_by, Py.lstrip_by, Py.rstrip_by.
  destruct w as [|a w]; [congruence|].
  inversion Hw as [|? ? Ha Hw']; subst.
  simpl app. rewrite dropwhile_not_head by exact Ha.
  change (a :: w ++ t) with ((a :: w) ++ t).
  rewrite rev_app_distr, dropwhile_all by (apply Forall_rev; exact Ht).
  destruct (rev (a :: w)) as [|b l] eqn:Hr.
  - apply (f_equal (@rev ascii)) in Hr. rewrite rev_involutive in Hr.
    discriminate.
  - assert (Hb : p b = false).
    { assert (Hin : In b (rev (a :: w))) by (rewrite Hr; now left).
      apply in_rev in Hin. rewrite Forall_forall in Hw. now apply Hw. }
    rewrite dropwhile_not_head by exact Hb.
    rewrite <- Hr. apply rev_involutive.
Qed.

Lemma lower_word (w : Py.str) :
  Forall (fun c => Re.is_word_char c = true) w ->
  Forall (fun c => Re.is_word_char c = true) (Py.lower w).
Proof.
  induction 1 as [|c w Hc _ IH]; simpl; constructor; auto.
  now rewrite lower_char_word.
Qed.

Lemma sounds_like_word (w cmd : Py.str) :
  w <> [] -> Forall (fun c => Re.is_word_char c = true) w ->
  Voice._sounds_like w cmd 2 =
  (Z.of_nat (Voice.edit_distance (Py.lower w) (Py.lower cmd)) <=? 2).
Proof.
  intros Hne Hw. unfold Voice._sounds_like.
  pose proof (lower_word Hw) as Hlw.
  assert (Hlne : Py.lower w <> []) by (destruct w; [congruence|discriminate]).
  rewrite split_token_end.
  2:{ split; auto. eapply Forall_impl; [|exact Hlw]. apply word_not_space. }
  cbn [existsb]. rewrite orb_false_r. unfold Voice.word_matches.
  assert (Hstrip : Py.strip_by Voice.is_punct (Py.lower w) = Py.lower w).
  { rewrite <- (app_nil_r (Py.lower w)) at 1.
    apply strip_by_core; auto.
    eapply Forall_impl; [|exact Hlw]. apply word_not_punct. }
  rewrite Hstrip.
  destruct (Voice.len_diff (Py.lower w) (Py.lower cmd) >? 2) eqn:Hd; auto.
  symmetry. apply Z.leb_gt. apply Z.gtb_lt in Hd.
  unfold Voice.len_diff in Hd.
  pose proof (edit_distance_length_diff (Py.lower w) (Py.lower cmd)). lia.
Qed.

Lemma sounds_like_plain_token (tok cmd : Py.str) :
  plain_token tok ->
  Voice._sounds_like (Py.strip_by Voice.is_punct tok) cmd 2 = within cmd tok.
Proof.
  intros (w & t & -> & Hne & Hw & Ht). unfold within.
  rewrite strip_by_core; auto.
  - now apply sounds_like_word.
  - eapply Forall_impl; [|exact Hw]. apply word_not_punct.
  - eapply Forall_impl; [|exact Ht]. apply cp_is_punct.
Qed.

Lemma exactb_within (cmd tok : Py.str) :
  plain_token tok -> exactb cmd tok = true -> within cmd tok = true.
Proof.
  intros (w & t & -> & Hne & Hw & Ht). unfold exactb, within.
  rewrite (takewhile_word Hw Ht). intros H. apply ci_eqb_true in H.
  rewrite strip_by_core; auto.
  - rewrite H, edit_distance_same. reflexivity.
  - eapply Forall_impl; [|exact Hw]. apply word_not_punct.
  - eapply Forall_impl; [|exact Ht]. apply cp_is_punct.
Qed.

(** *** The filter on a plain transcript *)

Lemma command_word_spec (w : Py.str) :
  command_word w = true ->
  w <> [] /\ Forall (fun c => Re.is_word_char c = true) w.
Proof.
  unfold command_word. intros H. apply andb_true_iff in H. destruct H as [Ht Hf].
  split; [destruct w; [discriminate|discriminate]|].
  rewrite forallb_forall in Hf. now apply Forall_forall.
Qed.

Lemma filter_narrow (A : Type) (f g : A -> bool) (l : list A) :
  (forall x, In x l -> f x = true -> g x = true) ->
  filter f (filter g l) = filter f l.
Proof.
  induction l as [|x l IH]; intros H; simpl; auto.
  assert (IH' : filter f (filter g l) = filter f l)
    by (apply IH; intros y Hy; apply H; now right).
  destruct (g x) eqn:Hg; simpl.
  - now rewrite IH'.
  - destruct (f x) eqn:Hf; auto.
    rewrite (H x (or_introl eq_refl) Hf) in Hg. discriminate.
Qed.

Lemma filter_word_plain (text W : Py.str) :
  W <> [] -> Forall (fun c => Re.is_word_char c = true) W ->
  plain_from KS text = true ->
  Session.filter_word text W =
  Py.join (Py.lit " ") (filter (fun tok => negb (within W tok)) (Py.split text)).
Proof.
  intros Hne HW Hplain. unfold Session.filter_word.
  rewrite sub_word_split by assumption. f_equal.
  pose proof (plain_split _ Hplain) as Htoks.
  rewrite (@filter_ext_in _
             (fun w => negb (Voice._sounds_like
                               (Py.strip_by Voice.is_punct w) W 2))
             (fun tok => negb (within W tok))).
  - apply filter_narrow. intros tok Hin Hw.
    rewrite Forall_forall in Htoks.
    destruct (exactb W tok) eqn:He; auto.
    rewrite (@exactb_within W tok (Htoks _ Hin) He) in Hw. discriminate.
  - intros tok Hin. apply filter_In in Hin. destruct Hin as [Hin _].
    rewrite Forall_forall in Htoks.
    now rewrite (@sounds_like_plain_token tok W (Htoks _ Hin)).
Qed.

Lemma filter_filter (A : Type) (f g : A -> bool) (l : list A) :
  filter f (filter g l) = filter (fun x => g x && f x) l.
Proof.
  induction l as [|x l IH]; simpl; auto.
  destruct (g x); simpl; [destruct (f x)|]; now rewrite IH.
Qed.

(** *** Words of any transcript *)








Section ScanTame.

Variable W : Py.str.
Hypothesis W_not_empty : W <> [].
Hypothesis W_word : Forall (fun c => Re.is_word_char c = true) W.











End ScanTame.

(** *** The fuzzy test on a word of any transcript *)


Lemma dropwhile_suffix (p : ascii -> bool) (s : Py.str) :
  exists x, s = x ++ Py.dropwhile p s.
Proof.
  induction s as [|c s [x IH]]; [now exists []|]. simpl.
  destruct (p c); [exists (c :: x); simpl; now rewrite <- IH|now exists []].
Qed.

Lemma dropwhile_head (p : ascii -> bool) (s : Py.str) (a : ascii) (r : Py.str) :
  Py.dropwhile p s = a :: r -> p a = false.
Proof.
  induction s as [|c s IH]; simpl; [discriminate|].
  destruct (p c) eqn:Hc; auto. intros H. injection H as <- _. exact Hc.
Qed.








(** *** The filter on a transcript of tame words *)





(** *** Plain transcripts are transcripts of tame words *)

Section PlainTame.

Variable W : Py.str.
Hypothesis W_not_empty : W <> [].
Hypothesis W_word : Forall (fun c => Re.is_word_char c = true) W.

Lemma matches_in_no_start (pre : Py.str) :
  forall prev : option ascii,
    no_start prev pre = true -> matches_in W pre prev = false.
Proof.
  induction pre as [|c pre IH]; intros prev H; auto. simpl in H |- *.
  apply andb_true_iff in H. destruct H as [Hc Hrest].
  rewrite IH by exact Hrest. rewrite orb_false_r.
  destruct (Re.is_word_char c) eqn:Hw.
  - rewrite orb_false_r in Hc. now rewrite no_match_inside.
  - now rewrite no_match_nonword.
Qed.

Lemma plain_token_settled (tok : Py.str) :
  plain_token tok -> settled W tok = true /\ starts_cp tok = false.
Proof.
  intros (w & t & -> & Hne & Hw & Ht).
  assert (Htn : Forall (fun c => Re.is_word_char c = false) t)
    by (eapply Forall_impl; [|exact Ht]; apply cp_not_word).
  assert (HY : ends_word t).
  { destruct t as [|c t]; [now left|]. right. exists c, t.
    split; auto. now inversion Htn. }
  destruct w as [|c w]; [congruence|]. split.
  - unfold settled. apply andb_true_iff. split.
    + unfold is_command. rewrite (takewhile_word Hw Ht).
      destruct (ci_eqb (c :: w) W) eqn:Hci; cbn [andb orb].
      * rewrite dropwhile_all by exact Hw.
        assert (Hd : Py.dropwhile Re.is_word_char t = t).
        { destruct t as [|d t]; auto. apply dropwhile_not_head.
          now inversion Htn. }
        assert (Hcp : forallb is_cp t = true)
          by (apply forallb_forall; now apply Forall_forall).
        now rewrite Hd, Hcp.
      * apply negb_true_iff. cbn [app matches_in].
        change (c :: w ++ t) with ((c :: w) ++ t).
        rewrite (@match_here_token W W_not_empty W_word (c :: w) t None)
          by auto.
        rewrite Hci. cbn [orb]. apply matches_in_no_start.
        rewrite no_start_app. apply andb_true_iff. split.
        -- apply no_start_word; [now inversion Hw|now inversion Hw].
        -- now apply no_start_nonword.
    + rewrite strip_by_core; auto.
      * eapply Forall_impl; [|exact Hw]. apply word_not_punct.
      * eapply Forall_impl; [|exact Ht]. apply cp_is_punct.
  - simpl. apply word_not_cp. now inversion Hw.
Qed.

End PlainTame.

(** A plain transcript (words of letters, digits and underscores, each
    followed by any number of commas and periods) is a transcript of
    tame words. *)
Lemma plain_text_tame (cfg : SessionConfig) (text : Py.str) :
  command_word (voice_trigger cfg) = true ->
  command_word (voice_stop cfg) = true ->
  plain_text text = true -> tame_text cfg text = true.
Proof.
  intros Htrigger Hstop Htext.
  destruct (command_word_spec _ Htrigger) as [Htne Htw].
  destruct (command_word_spec _ Hstop) as [Hsne Hsw].
  pose proof (plain_split _ Htext) as Hp. rewrite Forall_forall in Hp.
  unfold tame_text. apply forallb_forall. intros tok Hin.
  destruct (@plain_token_settled _ Htne Htw tok (Hp _ Hin)) as [H1 H2].
  destruct (@plain_token_settled _ Hsne Hsw tok (Hp _ Hin)) as [H3 _].
  unfold tame. rewrite H1, H2, H3. cbn. apply orb_true_r.
Qed.

(** ** More on the voice matcher *)

Local Open Scope nat_scope.

Lemma outer_loop_below (s1 s2 : Py.str) :
  forall (i : nat) (prev : list nat),
    List.length prev = S (List.length s2) ->
    (forall k, k <= List.length s2 -> nth k prev 0 <= Nat.max i k) ->
    forall k, k <= List.length s2 ->
              nth k (Voice.outer_loop s1 i s2 prev) 0 <=
              Nat.max (i + List.length s1) k.
Proof.
  induction s1 as [|c1 s1 IH]; intros i prev Hlen Hprev k Hk.
  - simpl. rewrite Nat.add_0_r. now apply Hprev.
  - rewrite outer_loop_step.
    replace (i + List.length (c1 :: s1)) with (S i + List.length s1)
      by (simpl; lia).
    apply IH; auto.
    + simpl. now rewrite next_row_length.
    + intros k' Hk'. destruct k' as [|k']; [simpl; lia|].
      cbn [nth].
      destruct (nth_error s2 k') as [c2|] eqn:Hc2.
      * pose proof (@next_row_substitution c1 s2 prev (S i) k' c2 Hc2) as H.
        specialize (Hprev k' ltac:(lia)).
        destruct (ascii_dec c1 c2); lia.
      * apply nth_error_None in Hc2. lia.
Qed.

(** The distance lies between the difference of the two lengths and the
    greater of them. *)
Theorem edit_distance_bounds (s1 s2 : Py.str) :
  List.length s1 - List.length s2 <= Voice.edit_distance s1 s2 /\
  List.length s2 - List.length s1 <= Voice.edit_distance s1 s2 /\
  Voice.edit_distance s1 s2 <= Nat.max (List.length s1) (List.length s2).
Proof.
  destruct (edit_distance_length_diff s1 s2) as [H1 H2].
  split; [exact H1|]. split; [exact H2|].
  assert (Hgen : forall a b : Py.str,
             (if List.length b =? 0 then List.length a
              else last (Voice.outer_loop a 0 b (seq 0 (List.length b + 1))) 0)
             <= Nat.max (List.length a) (List.length b)).
  { intros a b. destruct (List.length b =? 0) eqn:Hb0; [lia|].
    destruct (@outer_loop_above a b 0 (seq 0 (List.length b + 1)))
      as [Hlen _].
    - rewrite length_seq. lia.
    - apply seq_above.
    - rewrite last_nth, Hlen.
      replace (S (List.length b) - 1) with (List.length b) by lia.
      apply (@outer_loop_below a b 0 (seq 0 (List.length b + 1))); auto.
      + rewrite length_seq. lia.
      + intros k Hk. rewrite seq_nth by lia. lia. }
  unfold Voice.edit_distance.
  destruct (List.length s1 <? List.length s2).
  - specialize (Hgen s2 s1). lia.
  - apply Hgen.
Qed.

Local Close Scope nat_scope.

Lemma length_prefilter_redundant_aux (target_lower word : Py.str)
    (threshold : Z) :
  Voice.word_matches target_lower threshold word =
  (Z.of_nat (Voice.edit_distance (Py.strip_by Voice.is_punct word) target_lower)
   <=? threshold).
Proof.
  unfold Voice.word_matches.
  destruct (Voice.len_diff _ target_lower >? threshold) eqn:Hd; auto.
  symmetry. apply Z.leb_gt. apply Z.gtb_lt in Hd. unfold Voice.len_diff in Hd.
  pose proof (edit_distance_length_diff
                (Py.strip_by Voice.is_punct word) target_lower).
  lia.
Qed.

(** The length test made on a word before its distance is computed
    changes no answer: a word matches exactly when the distance of its
    stripped form to the target is within the threshold. *)
Theorem length_prefilter_redundant (target_lower word : Py.str) (threshold : Z) :
  Voice.word_matches target_lower threshold word =
  (Z.of_nat (Voice.edit_distance (Py.strip_by Voice.is_punct word) target_lower)
   <=? threshold).
Proof. apply length_prefilter_redundant_aux. Qed.

Lemma lower_char_idempotent (c : ascii) :
  Py.lower_char (Py.lower_char c) = Py.lower_char c.
Proof. ascii_cases c. Qed.

Lemma lower_idempotent (s : Py.str) : Py.lower (Py.lower s) = Py.lower s.
Proof.
  unfold Py.lower. rewrite map_map. apply map_ext. apply lower_char_idempotent.
Qed.

(** Matching ignores the case of the text and of the target. *)
Theorem sounds_like_ignores_case (text target : Py.str) (threshold : Z) :
  Voice._sounds_like text target threshold =
  Voice._sounds_like (Py.lower text) (Py.lower target) threshold.
Proof.
  unfold Voice._sounds_like. now rewrite !lower_idempotent.
Qed.

(** A text that holds the target as one of its words, in any case and
    with any of the stripped punctuation around it, matches under every
    threshold that is not negative. *)
Theorem sounds_like_exact_word (text target w : Py.str) (threshold : Z)
    (Hthreshold : 0 <= threshold)
    (Hin : In w (Py.split (Py.lower text)))
    (Hw : Py.strip_by Voice.is_punct w = Py.lower target) :
  Voice._sounds_like text target threshold = true.
Proof.
  unfold Voice._sounds_like. apply existsb_exists. exists w. split; auto.
  rewrite length_prefilter_redundant_aux, Hw, edit_distance_same.
  apply Z.leb_le. exact Hthreshold.
Qed.

Lemma sounds_like_exact_word_witness :
  Voice._sounds_like (Py.lit "Ok... 'FINITO!' he said") (Py.lit "Finito") 0 = true.
Proof.
  apply (@sounds_like_exact_word _ _ (Py.lit "'finito!'") 0).
  - lia.
  - vm_compute. right. left. reflexivity.
  - reflexivity.
Defined.

(** Under a negative threshold, and on a text without words (empty or
    whitespace only), nothing matches. *)
Theorem sounds_like_never (text target : Py.str) (threshold : Z)
    (H : threshold < 0 \/ Py.split (Py.lower text) = []) :
  Voice._sounds_like text target threshold = false.
Proof.
  unfold Voice._sounds_like. destruct H as [Hth| ->]; [|reflexivity].
  apply not_true_is_false. intros H.
  apply existsb_exists in H. destruct H as (w & _ & Hw).
  rewrite length_prefilter_redundant_aux in Hw. apply Z.leb_le in Hw. lia.
Qed.

Lemma sounds_like_never_witness :
  Voice._sounds_like (Py.lit "finito") (Py.lit "finito") (-1) = false /\
  Voice._sounds_like (Py.lit "   ") (Py.lit "") 2 = false.
Proof.
  split.
  - apply sounds_like_never. left. lia.
  - apply sounds_like_never. right. reflexivity.
Defined.

Local Open Scope nat_scope.

Lemma next_row_zero (c1 : ascii) (s2 : Py.str) :
  forall (prev : list nat) (left k : nat) (c2 : ascii),
    nth_error s2 k = Some c2 ->
    nth k (next_row c1 s2 prev left) 0 = 0 ->
    nth k prev 0 = 0 /\ c1 = c2.
Proof.
  induction s2 as [|c s2 IH]; intros prev left k c2 Hk Hz.
  - destruct k; discriminate.
  - destruct k as [|k]; simpl in Hk.
    + inversion Hk; subst. simpl in Hz.
      destruct (ascii_dec c1 c2); [split; auto; lia|lia].
    + cbn [next_row nth] in Hz.
      destruct (IH _ _ _ _ Hk Hz) as [Hp Hc]. split; auto.
      destruct prev; simpl in *; auto.
Qed.

Lemma firstn_snoc_nth (A : Type) (l : list A) (i : nat) (x : A) :
  nth_error l i = Some x -> firstn (S i) l = firstn i l ++ [x].
Proof.
  revert l. induction i as [|i IH]; intros l H; destruct l as [|y l];
    try discriminate.
  - simpl in H. inversion H. reflexivity.
  - simpl in H.
    change (y :: firstn (S i) l = y :: (firstn i l ++ [x])).
    f_equal. apply IH, H.
Qed.

Lemma outer_loop_zero (s2 rest : Py.str) :
  forall (done : Py.str) (prev : list nat),
    List.length done + List.length rest = List.length s2 ->
    (nth (List.length done) prev 0 = 0 -> done = firstn (List.length done) s2) ->
    nth (List.length s2)
        (Voice.outer_loop rest (List.length done) s2 prev) 0 = 0 ->
    done ++ rest = s2.
Proof.
  induction rest as [|c1 rest IH]; intros done prev Hlen Hinv Hz.
  - simpl in *. rewrite Nat.add_0_r in Hlen. rewrite <- Hlen in Hz.
    rewrite app_nil_r, (Hinv Hz), Hlen. apply firstn_all.
  - rewrite outer_loop_step in Hz.
    assert (Hl1 : List.length (done ++ [c1]) = S (List.length done))
      by (rewrite length_app; simpl; lia).
    rewrite <- Hl1 in Hz.
    replace (done ++ c1 :: rest) with ((done ++ [c1]) ++ rest)
      by (now rewrite <- app_assoc).
    apply IH with (prev := List.length (done ++ [c1]) ::
                    next_row c1 s2 prev (List.length (done ++ [c1]))).
    + rewrite Hl1. simpl in Hlen. lia.
    + rewrite Hl1. cbn [nth]. intros Hd.
      destruct (nth_error s2 (List.length done)) as [c2|] eqn:Hc2.
      * destruct (@next_row_zero c1 s2 prev _ _ c2 Hc2 Hd) as [Hp ->].
        rewrite (firstn_snoc_nth _ _ Hc2). now rewrite <- (Hinv Hp).
      * apply nth_error_None in Hc2. simpl in Hlen. lia.
    + exact Hz.
Qed.

(** Two strings are at distance 0 if and only if they are the same. *)
Theorem edit_distance_zero_iff (s1 s2 : Py.str) :
  Voice.edit_distance s1 s2 = 0 <-> s1 = s2.
Proof.
  split; [|intros ->; apply edit_distance_same].
  intros H0.
  destruct (edit_distance_length_diff s1 s2) as [H1 H2].
  assert (Hlen : List.length s1 = List.length s2) by lia.
  revert H0. unfold Voice.edit_distance.
  rewrite Hlen, Nat.ltb_irrefl.
  destruct (List.length s2 =? 0) eqn:Hz.
  - apply Nat.eqb_eq in Hz. intros _.
    destruct s1, s2; simpl in *; try lia. reflexivity.
  - apply Nat.eqb_neq in Hz.
    destruct (@outer_loop_above s1 s2 0 (seq 0 (List.length s2 + 1)))
      as [Hl _].
    + rewrite length_seq. lia.
    + apply seq_above.
    + rewrite last_nth, Hl.
      replace (S (List.length s2) - 1) with (List.length s2) by lia.
      intros H.
      apply (@outer_loop_zero s2 s1 [] (seq 0 (List.length s2 + 1)) Hlen);
        [reflexivity|exact H].
Qed.

Local Close Scope nat_scope.

(** ** More on the keyboard capture *)

(** The settings of a capture are not touched by a key press. *)
Lemma on_press_settings (kc : Keyboard.KeyboardCapture)
    (key : Keyboard.PynputKey) (now : Z) :
  let kc' := fst (Keyboard._on_press kc key now) in
  Keyboard.on_keystroke kc' = Keyboard.on_keystroke kc /\
  Keyboard.on_hotkey kc' = Keyboard.on_hotkey kc /\
  Keyboard.hotkey_timeout kc' = Keyboard.hotkey_timeout kc /\
  Keyboard.hotkey_screenshot kc' = Keyboard.hotkey_screenshot kc /\
  Keyboard.listener kc' = Keyboard.listener kc /\
  Keyboard.start_time kc' = Keyboard.start_time kc /\
  Keyboard.total_keystrokes kc' = Keyboard.total_keystrokes kc + 1.
Proof.
  unfold Keyboard._on_press, Keyboard._check_hotkey.
  destruct (Keyboard._get_key_str key) as [key_str is_special].
  destruct is_special; cbn [negb].
  - destruct (Keyboard.on_keystroke kc); cbn; repeat split; reflexivity.
  - cbn [Keyboard.set_buffer Keyboard.key_buffer Keyboard.hotkey_timeout
         Keyboard.hotkey_screenshot Keyboard.on_hotkey Keyboard.on_keystroke
         Keyboard.start_time Keyboard.listener Keyboard.total_keystrokes
         Keyboard.hotkeys_triggered].
    repeat match goal with
    | |- context [if ?b then _ else _] => destruct b; cbn
    end; repeat split; reflexivity.
Qed.

(** A press makes at most one call, and the hotkey count grows by the
    number of hotkey calls it makes. *)
Lemma on_press_calls (kc : Keyboard.KeyboardCapture)
    (key : Keyboard.PynputKey) (now : Z) :
  let r := Keyboard._on_press kc key now in
  (List.length (snd r) <= 1)%nat /\
  (Keyboard.on_keystroke kc = true -> Keyboard.on_hotkey kc = true ->
   List.length (snd r) = 1%nat) /\
  Keyboard.hotkeys_triggered (fst r) =
    Keyboard.hotkeys_triggered kc +
    Z.of_nat (List.length (filter Keyboard.is_hotkey_call (snd r))).
Proof.
  unfold Keyboard._on_press, Keyboard._check_hotkey.
  destruct (Keyboard._get_key_str key) as [key_str is_special].
  destruct is_special; cbn [negb].
  - destruct (Keyboard.on_keystroke kc); cbn; repeat split; auto; try lia;
      discriminate.
  - cbn [Keyboard.set_buffer Keyboard.key_buffer Keyboard.hotkey_timeout
         Keyboard.hotkey_screenshot Keyboard.on_hotkey Keyboard.on_keystroke
         Keyboard.start_time Keyboard.listener Keyboard.total_keystrokes
         Keyboard.hotkeys_triggered].
    repeat match goal with
    | |- context [if ?b then _ else _] => destruct b; cbn
    end; repeat split; auto; try lia; discriminate.
Qed.

(** For every hotkey that is not empty and every positive timeout, a
    plain keystroke is checked against the buffer entries younger than
    the timeout followed by the keystroke itself: the hotkey fires if
    and only if the trailing entries of that window spell it, and the
    buffer is left as that window unless it fired. *)
Theorem hotkey_fires_iff_window_spells (kc : Keyboard.KeyboardCapture)
    (c : ascii) (cs : Py.str) (vk : option Z) (now : Z)
    (Htimeout : 0 < Keyboard.hotkey_timeout kc)
    (Htarget : Keyboard.hotkey_screenshot kc <> [])
    (Hcallback : Keyboard.on_hotkey kc = true) :
  let w := window kc (c :: cs) now in
  let r := Keyboard._on_press kc (Keyboard.KeyCode (Some (c :: cs)) vk) now in
  (In (Keyboard.on_hotkey_call (Py.lit "screenshot")) (snd r) <-> spells kc w) /\
  Keyboard.key_buffer (fst r) =
    (if existsb Keyboard.is_hotkey_call (snd r) then [] else w).
Proof.
  intros w r. subst r.
  rewrite on_press_plain by assumption. fold w. cbv zeta.
  rewrite Hcallback, andb_true_r.
  pose proof (@spellsb_spells kc w Htarget) as Hsp.
  destruct (spellsb kc w) eqn:Hs; cbn [fst snd].
  - split; [|reflexivity].
    split; [intros _; now apply Hsp | intros _; now left].
  - split.
    + split.
      * destruct (Keyboard.on_keystroke kc); simpl; intros H;
          [destruct H as [H|[]]; discriminate H | destruct H].
      * intros H. apply Hsp in H. discriminate.
    + destruct (Keyboard.on_keystroke kc); reflexivity.
Qed.

Lemma hotkey_fires_iff_window_spells_witness :
  let kc :=
    Keyboard.set_buffer (fresh_capture 500000 (Py.lit "abc") 0)
      [(Py.lit "x", 0); (Py.lit "a", 100000); (Py.lit "b", 300000)] in
  In (Keyboard.on_hotkey_call (Py.lit "screenshot"))
     (snd (Keyboard._on_press kc (Keyboard.plain (Py.lit "c")) 550000)).
Proof.
  intros kc.
  apply (proj1 (@hotkey_fires_iff_window_spells kc "c"%char [] None 550000
                  ltac:(simpl; lia) ltac:(discriminate) eq_refl)).
  exists [], [(Py.lit "a", 100000); (Py.lit "b", 300000); (Py.lit "c", 550000)].
  split; [reflexivity|]. split; reflexivity.
Defined.

(** After a plain keystroke every entry of the buffer is younger than
    the timeout, was in the buffer before or is the keystroke itself,
    and the buffer has grown by one entry at most. *)
Theorem buffer_after_plain_press (kc : Keyboard.KeyboardCapture)
    (c : ascii) (cs : Py.str) (vk : option Z) (now : Z) :
  let r := Keyboard._on_press kc (Keyboard.KeyCode (Some (c :: cs)) vk) now in
  Forall (fun kt => now - snd kt < Keyboard.hotkey_timeout kc)
         (Keyboard.key_buffer (fst r)) /\
  incl (Keyboard.key_buffer (fst r)) (Keyboard.key_buffer kc ++ [(c :: cs, now)]) /\
  (List.length (Keyboard.key_buffer (fst r)) <=
   List.length (Keyboard.key_buffer kc) + 1)%nat.
Proof.
  intros r.
  assert (Hfil :
    Keyboard.key_buffer (fst r) = [] \/
    Keyboard.key_buffer (fst r) =
      filter (fun kt => now - snd kt <? Keyboard.hotkey_timeout kc)
             (Keyboard.key_buffer kc ++ [(c :: cs, now)])).
  { subst r. unfold Keyboard._on_press, Keyboard._check_hotkey.
    cbn [Keyboard._get_key_str negb Keyboard.set_buffer Keyboard.key_buffer
         Keyboard.hotkey_timeout Keyboard.hotkey_screenshot Keyboard.on_hotkey
         Keyboard.on_keystroke Keyboard.start_time Keyboard.listener
         Keyboard.total_keystrokes Keyboard.hotkeys_triggered].
    repeat match goal with
    | |- context [if ?b then _ else _] => destruct b; cbn
    end; auto. }
  destruct Hfil as [-> | ->].
  - split; [constructor|]. split; [intros x []|simpl; lia].
  - split; [|split].
    + apply Forall_forall. intros kt Hin. apply filter_In in Hin.
      destruct Hin as [_ Hlt]. now apply Z.ltb_lt in Hlt.
    + apply incl_filter.
    + etransitivity; [apply filter_length_le|].
      rewrite length_app. simpl. lia.
Qed.

(** Over any stream of key presses the keystroke counter counts the
    presses and the hotkey counter the calls of the hotkey callback;
    no press makes more than one call, and with both callbacks set every
    press makes exactly one. *)
Theorem press_all_counters (presses : list (Keyboard.PynputKey * Z)) :
  forall kc : Keyboard.KeyboardCapture,
    let r := Keyboard.press_all kc presses in
    Keyboard.total_keystrokes (fst r) =
      Keyboard.total_keystrokes kc + Z.of_nat (List.length presses) /\
    Keyboard.hotkeys_triggered (fst r) =
      Keyboard.hotkeys_triggered kc +
      Z.of_nat (List.length (filter Keyboard.is_hotkey_call (snd r))) /\
    (List.length (snd r) <= List.length presses)%nat /\
    (Keyboard.on_keystroke kc = true -> Keyboard.on_hotkey kc = true ->
     List.length (snd r) = List.length presses).
Proof.
  induction presses as [|[key t] rest IH]; intros kc.
  - cbn. repeat split; auto; lia.
  - cbn [Keyboard.press_all].
    pose proof (on_press_settings kc key t) as Hs.
    pose proof (on_press_calls kc key t) as Hc.
    destruct (Keyboard._on_press kc key t) as [kc1 calls1].
    cbn [fst snd] in Hs, Hc.
    destruct Hs as (Hk & Hh & _ & _ & _ & _ & Htot).
    destruct Hc as (Hle & Hone & Hcount).
    specialize (IH kc1).
    destruct (Keyboard.press_all kc1 rest) as [kc2 calls2].
    cbn [fst snd] in IH |- *.
    destruct IH as (IHtot & IHcount & IHle & IHone).
    rewrite filter_app, !length_app. cbn [List.length].
    repeat split; try lia.
    intros Hks Hhs. rewrite Hone, IHone by congruence. reflexivity.
Qed.

(** A hotkey that is not empty never fires under a timeout that is not
    positive: the buffer stays empty, whatever is typed. *)
Theorem nonpositive_timeout_never_fires
    (presses : list (Keyboard.PynputKey * Z)) (kc : Keyboard.KeyboardCapture)
    (Htarget : Keyboard.hotkey_screenshot kc <> [])
    (Htimeout : Keyboard.hotkey_timeout kc <= 0)
    (Hbuffer : Keyboard.key_buffer kc = []) :
  existsb Keyboard.is_hotkey_call (snd (Keyboard.press_all kc presses)) = false /\
  Keyboard.key_buffer (fst (Keyboard.press_all kc presses)) = [].
Proof.
  revert kc Htarget Htimeout Hbuffer.
  induction presses as [|[key t] rest IH]; intros kc Htarget Htimeout Hbuffer.
  - cbn. auto.
  - cbn [Keyboard.press_all].
    pose proof (on_press_settings kc key t) as Hs.
    assert (Hstep :
      existsb Keyboard.is_hotkey_call (snd (Keyboard._on_press kc key t)) = false /\
      Keyboard.key_buffer (fst (Keyboard._on_press kc key t)) = []).
    { unfold Keyboard._on_press, Keyboard._check_hotkey.
      destruct (Keyboard._get_key_str key) as [key_str is_special].
      destruct is_special; cbn [negb].
      - destruct (Keyboard.on_keystroke kc); cbn; auto.
      - cbn [Keyboard.set_buffer Keyboard.key_buffer Keyboard.hotkey_timeout
             Keyboard.hotkey_screenshot Keyboard.on_hotkey Keyboard.on_keystroke
             Keyboard.start_time Keyboard.listener Keyboard.total_keystrokes
             Keyboard.hotkeys_triggered].
        rewrite Hbuffer. cbn [app filter snd].
        replace (t - t <? Keyboard.hotkey_timeout kc) with false
          by (symmetry; apply Z.ltb_ge; lia).
        destruct (Keyboard.hotkey_screenshot kc) as [|h hs]; [congruence|].
        cbn. destruct (Keyboard.on_keystroke kc); cbn; auto. }
    destruct (Keyboard._on_press kc key t) as [kc1 calls1].
    cbn [fst snd] in Hs, Hstep.
    destruct Hs as (_ & _ & Hto & Hhk & _).
    destruct Hstep as [Hcalls Hbuf].
    specialize (IH kc1 ltac:(congruence) ltac:(lia) Hbuf).
    destruct (Keyboard.press_all kc1 rest) as [kc2 calls2].
    cbn [fst snd] in IH |- *. destruct IH as [IHc IHb].
    split; [|exact IHb].
    rewrite existsb_app, Hcalls, IHc. reflexivity.
Qed.

Lemma nonpositive_timeout_never_fires_witness :
  existsb Keyboard.is_hotkey_call
    (snd (Keyboard.press_all (fresh_capture 0 jj 0)
            [(Keyboard.plain j, 10); (Keyboard.plain j, 10)])) = false.
Proof.
  apply (@nonpositive_timeout_never_fires
           [(Keyboard.plain j, 10); (Keyboard.plain j, 10)]
           (fresh_capture 0 jj 0)).
  - discriminate.
  - simpl. lia.
  - reflexivity.
Defined.

(** The empty hotkey: with a positive timeout it never fires, since the
    window holds the key just typed; with a timeout that is not positive
    the window is empty and spells it, so every plain key fires (the
    buffer holding no entry from the future). *)
Theorem empty_hotkey_fires_iff (kc : Keyboard.KeyboardCapture)
    (c : ascii) (cs : Py.str) (vk : option Z) (now : Z)
    (Htarget : Keyboard.hotkey_screenshot kc = [])
    (Hcallback : Keyboard.on_hotkey kc = true)
    (Hpast : Forall (fun kt => snd kt <= now) (Keyboard.key_buffer kc)) :
  existsb Keyboard.is_hotkey_call
    (snd (Keyboard._on_press kc (Keyboard.KeyCode (Some (c :: cs)) vk) now)) =
  (Keyboard.hotkey_timeout kc <=? 0).
Proof.
  unfold Keyboard._on_press, Keyboard._check_hotkey.
  cbn [Keyboard._get_key_str negb Keyboard.set_buffer Keyboard.key_buffer
       Keyboard.hotkey_timeout Keyboard.hotkey_screenshot Keyboard.on_hotkey
       Keyboard.on_keystroke Keyboard.start_time Keyboard.listener
       Keyboard.total_keystrokes Keyboard.hotkeys_triggered].
  rewrite Htarget, Hcallback. cbn [List.length Nat.leb slice_last].
  rewrite filter_app, map_app. cbn [filter snd].
  unfold Py.join_empty. rewrite concat_app.
  destruct (Keyboard.hotkey_timeout kc <=? 0) eqn:Hto.
  - apply Z.leb_le in Hto.
    replace (now - now <? Keyboard.hotkey_timeout kc) with false
      by (symmetry; apply Z.ltb_ge; lia).
    assert (Hnil : filter (fun kt => now - snd kt <? Keyboard.hotkey_timeout kc)
                          (Keyboard.key_buffer kc) = []).
    { induction Hpast as [|kt l Hkt _ IH]; [reflexivity|].
      cbn [filter].
      replace (now - snd kt <? Keyboard.hotkey_timeout kc) with false
        by (symmetry; apply Z.ltb_ge; lia).
      exact IH. }
    rewrite Hnil. reflexivity.
  - apply Z.leb_gt in Hto.
    replace (now - now <? Keyboard.hotkey_timeout kc) with true
      by (symmetry; apply Z.ltb_lt; lia).
    cbn [map fst List.concat app].
    replace (Py.str_eqb _ []) with false.
    + cbn. destruct (Keyboard.on_keystroke kc); reflexivity.
    + symmetry. apply not_true_is_false. intros H. apply str_eqb_eq in H.
      apply app_eq_nil in H. destruct H as [_ H]. discriminate H.
Qed.

Lemma empty_hotkey_fires_iff_witness :
  existsb Keyboard.is_hotkey_call
    (snd (Keyboard._on_press (fresh_capture 0 [] 0) (Keyboard.plain j) 5)) = true /\
  existsb Keyboard.is_hotkey_call
    (snd (Keyboard._on_press (fresh_capture 300000 [] 0) (Keyboard.plain j) 5))
  = false.
Proof.
  split.
  - apply (@empty_hotkey_fires_iff (fresh_capture 0 [] 0) "j"%char [] None 5
             eq_refl eq_refl (Forall_nil _)).
  - apply (@empty_hotkey_fires_iff (fresh_capture 300000 [] 0) "j"%char [] None 5
             eq_refl eq_refl (Forall_nil _)).
Defined.

(** ** More on the timeline *)

Lemma sorted_insert_head (A : Type) (key : A -> Z) (x : A) (l : list A) :
  Forall (fun y => key x <= key y) l -> sorted_insert key x l = x :: l.
Proof.
  intros H. destruct H as [|y l Hy _]; [reflexivity|].
  simpl. now replace (key x <=? key y) with true by (symmetry; apply Z.leb_le; lia).
Qed.

(** A timeline whose events are already in the order of their
    timestamps is reported in the order it holds them. *)
Theorem chronological_of_sorted (tl : Timeline)
    (Hsorted : StronglySorted (key_le timestamp_ms) (events tl)) :
  chronological tl = events tl.
Proof.
  unfold chronological. revert Hsorted. generalize (events tl) as l.
  induction 1 as [|x l Hs IH Hx]; [reflexivity|].
  simpl. rewrite IH. now apply sorted_insert_head.
Qed.

Lemma chronological_of_sorted_witness :
  let tl :=
    add_event (KeystrokeEvent 700 (Py.lit "b") false)
      (add_event (KeystrokeEvent 700 (Py.lit "a") false)
         (add_event (mkEvent SESSION_START 0 []) Timeline_new)) in
  chronological tl = events tl.
Proof.
  intros tl. apply chronological_of_sorted.
  repeat (apply SSorted_cons;
          [|repeat (apply Forall_cons; [unfold key_le; simpl; lia|]);
            apply Forall_nil]).
  apply SSorted_nil.
Defined.

(** ** More on the keystroke runs *)

Lemma json_loop_keys (events : list Event) :
  forall st st', Json.loop st events = Some st' -> Forall has_key events.
Proof.
  induction events as [|e events IH]; intros st st' H; [constructor|].
  simpl in H. unfold Json.loop_body in H.
  destruct (data_str e "key") as [k|] eqn:Hk; [|discriminate].
  constructor; [now exists k|]. eapply IH. exact H.
Qed.

Lemma json_reconstruct_keys (events : list Event) (runs : list Json.Sequence) :
  Json._reconstruct_keystroke_sequences events = Some runs ->
  Forall has_key (filter is_keystroke events).
Proof.
  unfold Json._reconstruct_keystroke_sequences.
  destruct (filter is_keystroke events) as [|e ks]; [constructor|].
  destruct (Json.loop _ (e :: ks)) as [st|] eqn:Hl; [|discriminate].
  intros _. eapply json_loop_keys. exact Hl.
Qed.

Lemma json_reconstruct_some_runs (events : list Event) (runs : list Json.Sequence) :
  Json._reconstruct_keystroke_sequences events = Some runs ->
  Runs (filter is_keystroke events) runs.
Proof.
  intros H.
  destruct (@json_reconstruct_runs events (json_reconstruct_keys _ H))
    as (runs' & H' & Hr).
  congruence.
Qed.

Lemma markdown_loop_keys (events : list Event) :
  forall st st',
    Markdown.loop st events = Some st' ->
    Forall (fun e => has_key e /\ exists v, data_any e "is_special" = Some v)
           events.
Proof.
  induction events as [|e events IH]; intros st st' H; [constructor|].
  simpl in H. unfold Markdown.loop_body in H.
  destruct (data_str e "key") as [k|] eqn:Hk; [|discriminate].
  destruct (data_any e "is_special") as [v|] eqn:Hv; [|discriminate].
  constructor; [split; [now exists k|now exists v]|]. eapply IH. exact H.
Qed.

(** The two passes raise on different inputs: the structured pass
    returns exactly when every keystroke event holds a string under
    key, the narrative pass exactly when every keystroke event holds
    that and something under is_special. *)
Theorem reconstruction_returns_iff (events : list Event) :
  ((exists runs, Json._reconstruct_keystroke_sequences events = Some runs) <->
   Forall has_key (filter is_keystroke events)) /\
  ((exists seqs, Markdown._reconstruct_keystrokes events = Some seqs) <->
   Forall (fun e => has_key e /\ exists v, data_any e "is_special" = Some v)
          (filter is_keystroke events)).
Proof.
  split; split.
  - intros [runs H]. eapply json_reconstruct_keys. exact H.
  - intros H. destruct (json_reconstruct_runs events H) as (runs & Hr & _).
    now exists runs.
  - intros [seqs H]. unfold Markdown._reconstruct_keystrokes in H.
    destruct (filter is_keystroke events) as [|e ks]; [constructor|].
    destruct (Markdown.loop _ (e :: ks)) as [st|] eqn:Hl; [|discriminate].
    eapply markdown_loop_keys. exact Hl.
  - intros H. unfold Markdown._reconstruct_keystrokes.
    destruct (filter is_keystroke events) as [|e ks]; [eauto|].
    destruct (markdown_loop_total H (Markdown.mkLoop [] [] (timestamp_ms e)))
      as [m' Hm].
    rewrite Hm. destruct (Markdown.current_seq m'); eauto.
Qed.

Lemma runs_keys (events : list Event) (runs : list Json.Sequence) :
  Runs events runs ->
  keys_of events = Some (List.concat (map Json.seq_keys runs)) /\
  Forall (fun r => Json.seq_keys r <> [] /\
                   Json.seq_reconstructed r = Py.join_empty (Json.seq_keys r))
         runs.
Proof.
  induction 1 as [|e grp rest keys runs Hk Hg Hn Hr [IHk IHf]].
  - split; [reflexivity|constructor].
  - split.
    + change (e :: grp ++ rest) with ((e :: grp) ++ rest).
      cbn [map List.concat Json.close Json.seq_keys].
      now apply keys_of_app.
    + constructor; [|exact IHf]. split; [|reflexivity].
      cbn [Json.close Json.seq_keys]. simpl in Hk.
      destruct (data_str e "key"); [|discriminate].
      destruct (keys_of grp); [|discriminate]. inversion Hk. discriminate.
Qed.

Lemma runs_starts (events : list Event) (runs : list Json.Sequence) :
  Runs events runs ->
  starts_apart (map Json.seq_timestamp_ms runs) /\
  option_map Json.seq_timestamp_ms (hd_error runs) =
  option_map timestamp_ms (hd_error events).
Proof.
  induction 1 as [|e grp rest keys runs Hk Hg Hn Hr [IHa IHh]].
  - split; [exact I|reflexivity].
  - split; [|reflexivity].
    cbn [map starts_apart Json.close Json.seq_timestamp_ms].
    split; [|exact IHa].
    destruct runs as [|r2 runs]; [exact I|].
    cbn [map]. destruct rest as [|e' rest]; [discriminate IHh|].
    cbn in IHh. inversion IHh as [Heq]. rewrite Heq.
    apply Hn. reflexivity.
Qed.

(** No key is lost, added or moved by the structured pass: the keys of
    its runs, one run after the other, are the keys of the keystroke
    events in their order; no run is empty, and the text of a run is the
    concatenation of its keys. *)
Theorem runs_keep_every_key (events : list Event) (runs : list Json.Sequence)
    (Hruns : Json._reconstruct_keystroke_sequences events = Some runs) :
  keys_of (filter is_keystroke events) =
    Some (List.concat (map Json.seq_keys runs)) /\
  Forall (fun r => Json.seq_keys r <> [] /\
                   Json.seq_reconstructed r = Py.join_empty (Json.seq_keys r))
         runs.
Proof. apply runs_keys. now apply json_reconstruct_some_runs. Qed.

Lemma runs_keep_every_key_witness :
  let evs :=
    [KeystrokeEvent 0 (Py.lit "l") false; mkEvent SESSION_END 10 [];
     KeystrokeEvent 500 (Py.lit "s") false;
     KeystrokeEvent 4000 (Py.lit "<enter>") true] in
  keys_of (filter is_keystroke evs) =
    Some (List.concat
            (map Json.seq_keys
               [Json.close 0 [Py.lit "l"; Py.lit "s"];
                Json.close 4000 [Py.lit "<enter>"]])).
Proof.
  intros evs.
  exact (proj1 (@runs_keep_every_key evs
                  [Json.close 0 [Py.lit "l"; Py.lit "s"];
                   Json.close 4000 [Py.lit "<enter>"]] eq_refl)).
Defined.

(** The runs of the structured pass start more than 2000 ms apart: each
    run starts more than 2000 ms after the start of the run before
    it. *)
Theorem run_starts_apart (events : list Event) (runs : list Json.Sequence)
    (Hruns : Json._reconstruct_keystroke_sequences events = Some runs) :
  starts_apart (map Json.seq_timestamp_ms runs).
Proof.
  apply (proj1 (runs_starts (json_reconstruct_some_runs _ Hruns))).
Qed.

Lemma run_starts_apart_witness :
  starts_apart
    (map Json.seq_timestamp_ms
       [Json.close 0 [Py.lit "a"; Py.lit "b"]; Json.close 3000 [Py.lit "c"]]).
Proof.
  apply (@run_starts_apart
           [KeystrokeEvent 0 (Py.lit "a") false;
            KeystrokeEvent 1500 (Py.lit "b") false;
            KeystrokeEvent 3000 (Py.lit "c") false]).
  reflexivity.
Defined.

(** ** More on the transcript filter *)

Lemma filter_plain_aux (cfg : SessionConfig) (text : Py.str) :
  command_word (voice_trigger cfg) = true ->
  command_word (voice_stop cfg) = true ->
  plain_text text = true ->
  Session._filter_voice_commands cfg text =
  Py.join (Py.lit " ") (filter (kept cfg) (Py.split text)).
Proof.
  intros Htrigger Hstop Htext.
  destruct (command_word_spec _ Htrigger) as [Htne Htw].
  destruct (command_word_spec _ Hstop) as [Hsne Hsw].
  unfold Session._filter_voice_commands, Session.words_to_remove, kept.
  destruct (voice_trigger cfg) as [|t0 trig] eqn:Et; [congruence|].
  destruct (voice_stop cfg) as [|s0 stop] eqn:Es; [congruence|].
  cbn [Py.truthy app fold_left].
  pose proof (plain_split _ Htext) as Htoks.
  rewrite (@filter_word_plain text (t0 :: trig) Htne Htw Htext).
  set (toks1 := filter (fun tok => negb (within (t0 :: trig) tok))
                       (Py.split text)).
  assert (Htoks1 : Forall plain_token toks1) by now apply Forall_filter.
  rewrite (@filter_word_plain _ (s0 :: stop) Hsne Hsw (plain_join Htoks1)).
  rewrite split_join
    by (eapply Forall_impl; [|exact Htoks1]; apply plain_token_is_token).
  subst toks1. rewrite filter_filter.
  set (toks2 := filter _ (Py.split text)).
  assert (Htoks2 : Forall is_token toks2).
  { eapply Forall_impl; [apply plain_token_is_token|].
    now apply Forall_filter. }
  rewrite sub_spaces_join, strip_join by exact Htoks2.
  subst toks2. f_equal. apply filter_ext. intros w.
  now rewrite negb_orb.
Qed.

Lemma filter_idem (A : Type) (f : A -> bool) (l : list A) :
  filter f (filter f l) = filter f l.
Proof.
  rewrite filter_filter. apply filter_ext. intros x. now destruct (f x).
Qed.

(** On a plain transcript, with commands of one word each, the filter
    leaves a plain transcript in which no word is within edit distance
    2 of a command, and filtering once more changes nothing. *)
Theorem filter_idempotent_on_plain (cfg : SessionConfig) (text : Py.str)
    (Htrigger : command_word (voice_trigger cfg) = true)
    (Hstop : command_word (voice_stop cfg) = true)
    (Htext : plain_text text = true) :
  let out := Session._filter_voice_commands cfg text in
  plain_text out = true /\
  Forall (fun w => within (voice_trigger cfg) w = false /\
                   within (voice_stop cfg) w = false) (Py.split out) /\
  Session._filter_voice_commands cfg out = out.
Proof.
  intros out. subst out.
  rewrite (@filter_plain_aux cfg text Htrigger Hstop Htext).
  pose proof (plain_split _ Htext) as Htoks.
  assert (Hk : Forall plain_token (filter (kept cfg) (Py.split text)))
    by now apply Forall_filter.
  assert (Hplain : plain_text (Py.join (Py.lit " ")
                                 (filter (kept cfg) (Py.split text))) = true)
    by now apply plain_join.
  assert (Hsplit : Py.split (Py.join (Py.lit " ")
                               (filter (kept cfg) (Py.split text))) =
                   filter (kept cfg) (Py.split text)).
  { apply split_join. eapply Forall_impl; [|exact Hk].
    apply plain_token_is_token. }
  split; [exact Hplain|]. split.
  - rewrite Hsplit. apply Forall_forall. intros w Hin.
    apply filter_In in Hin. destruct Hin as [_ Hw]. unfold kept in Hw.
    apply negb_true_iff, orb_false_iff in Hw. exact Hw.
  - rewrite (@filter_plain_aux cfg _ Htrigger Hstop Hplain), Hsplit.
    now rewrite filter_idem.
Qed.

Lemma filter_idempotent_on_plain_witness :
  let out :=
    Session._filter_voice_commands default_config
      (Py.lit "So, Margo.  take the  Marco shot now, Pinito.") in
  Session._filter_voice_commands default_config out = out.
Proof.
  intros out.
  exact (proj2 (proj2 (@filter_idempotent_on_plain default_config
                         (Py.lit "So, Margo.  take the  Marco shot now, Pinito.")
                         eq_refl eq_refl eq_refl))).
Defined.

(** ** Screenshots taken by the session *)

(** A key press that fires the hotkey, in a session that can take
    screenshots (the grab succeeding): one screenshot event is queued,
    stamped with the session clock and labelled hotkey, and nothing else
    is queued; the file is written under the name the event carries,
    noted in the list of screenshots, and then announced. *)
Theorem hotkey_press_queues_screenshot (s : Session.RecordingSession)
    (kc : Keyboard.KeyboardCapture) (key : Keyboard.PynputKey)
    (now now_shot : Z)
    (Hkc : Session.keyboard_capture s = Some kc)
    (Hfired : existsb Keyboard.is_hotkey_call
                (snd (Keyboard._on_press kc key now)) = true)
    (Hcapture : Session.screenshot_capture s = true) :
  let ts := get_timestamp_ms now_shot (Session.timeline s) in
  let r := Session.key_press s key now now_shot in
  Session.event_queue (fst r) =
    Session.event_queue s ++
    [ScreenshotEvent ts (Session.capture ts) (Py.lit "hotkey")] /\
  Session.screenshots (fst r) = Session.screenshots s ++ [Session.capture ts] /\
  Session.last_screenshot_trigger (fst r) = Py.lit "hotkey" /\
  snd r = [Session.write_file (Session.capture ts);
           Session.notify_screenshot_taken (Session.capture ts)].
Proof.
  intros ts r. subst r. unfold Session.key_press. rewrite Hkc.
  destruct (on_press_fired kc key now Hfired) as (Hcalls & _ & _).
  destruct (Keyboard._on_press kc key now) as [kc' calls].
  cbn [snd] in Hcalls. subst calls.
  cbn [Session.deliver_calls Session.deliver_call].
  unfold Session._on_hotkey.
  replace (Py.str_eqb (Py.lit "screenshot") (Py.lit "screenshot")) with true
    by reflexivity.
  rewrite capture_screenshot_started by (session_simpl; exact Hcapture).
  session_simpl. cbn [app]. repeat split.
Qed.

Lemma hotkey_press_queues_screenshot_witness :
  let s := fst (Session.key_press started_session (Keyboard.plain j) 100000 100000) in
  existsb is_screenshot
    (Session.event_queue
       (fst (Session.key_press s (Keyboard.plain j) 300000 300500))) = true.
Proof.
  intros s.
  destruct (@hotkey_press_queues_screenshot s
              (Keyboard.mkCapture true true 500000 jj true 0 [(j, 100000)] 1 0)
              (Keyboard.plain j) 300000 300500 eq_refl eq_refl eq_refl)
    as (Hq & _).
  rewrite Hq. reflexivity.
Defined.

Lemma of_uint_pad0 (k : nat) (d : Decimal.uint) :
  Z.of_uint (pad0 k d) = Z.of_uint d.
Proof. induction k as [|k IH]; [reflexivity|exact IH]. Qed.

Lemma uint_of_string_zeros (k : nat) (l : Py.str) (d : Decimal.uint) :
  DecimalString.NilEmpty.uint_of_string (String.string_of_list_ascii l) = Some d ->
  DecimalString.NilEmpty.uint_of_string
    (String.string_of_list_ascii (repeat "0"%char k ++ l)) = Some (pad0 k d).
Proof.
  intros H. induction k as [|k IH]; [exact H|].
  cbn [repeat app String.string_of_list_ascii
       DecimalString.NilEmpty.uint_of_string].
  rewrite IH. reflexivity.
Qed.

Lemma uint_of_digits (d : Decimal.uint) :
  d <> Decimal.Nil ->
  DecimalString.NilEmpty.uint_of_string
    (String.string_of_list_ascii
       (String.list_ascii_of_string (DecimalString.NilZero.string_of_uint d)))
  = Some d /\
  DecimalString.NilZero.string_of_uint d <> String.EmptyString.
Proof.
  intros Hd. rewrite String.string_of_list_ascii_of_string.
  pose proof (DecimalString.NilZero.usu d Hd) as H.
  unfold DecimalString.NilZero.uint_of_string in H.
  destruct (DecimalString.NilZero.string_of_uint d); [discriminate|].
  split; [exact H|discriminate].
Qed.

Lemma uint_of_padded (k : nat) (d : Decimal.uint) :
  d <> Decimal.Nil ->
  DecimalString.NilZero.uint_of_string
    (String.string_of_list_ascii
       (repeat "0"%char k ++
        String.list_ascii_of_string (DecimalString.NilZero.string_of_uint d)))
  = Some (pad0 k d).
Proof.
  intros Hd. destruct (@uint_of_digits d Hd) as [Hu Hne].
  pose proof (@uint_of_string_zeros k _ _ Hu) as H.
  unfold DecimalString.NilZero.uint_of_string.
  remember (String.string_of_list_ascii
              (repeat "0"%char k ++
               String.list_ascii_of_string
                 (DecimalString.NilZero.string_of_uint d))) as S eqn:E.
  destruct S; [|exact H].
  exfalso. destruct k; [|discriminate E].
  cbn [repeat app] in E. rewrite String.string_of_list_ascii_of_string in E.
  congruence.
Qed.

Lemma string_of_uint_head (d : Decimal.uint) :
  d <> Decimal.Nil ->
  exists c s, DecimalString.NilZero.string_of_uint d = String.String c s /\
              c <> "-"%char.
Proof.
  intros Hd. destruct d; try congruence; cbn; eexists; eexists;
    (split; [reflexivity|discriminate]).
Qed.

Lemma zero_pad_read_back_aux (width : nat) (n : Z) :
  int_of_str (Session.zero_pad width n) = Some n.
Proof.
  unfold int_of_str, Session.zero_pad, str_of_Z.
  destruct n as [|p|p]; cbn [Z.ltb Z.compare Z.abs Z.to_int
                             DecimalString.NilZero.string_of_int].
  - set (k := (width - _)%nat).
    assert (Hd : Decimal.D0 Decimal.Nil <> Decimal.Nil) by discriminate.
    pose proof (@uint_of_padded k _ Hd) as H.
    unfold DecimalString.NilZero.int_of_string.
    destruct (String.string_of_list_ascii _) as [|a s'] eqn:E; [discriminate H|].
    assert (Ha : (a =? "-")%char = false).
    { destruct k; cbn in E; inversion E; reflexivity. }
    rewrite Ha, H. cbn. now rewrite of_uint_pad0.
  - set (k := (width - _)%nat).
    assert (Hd : Pos.to_uint p <> Decimal.Nil)
      by apply DecimalPos.Unsigned.to_uint_nonnil.
    pose proof (@uint_of_padded k _ Hd) as H.
    unfold DecimalString.NilZero.int_of_string.
    destruct (String.string_of_list_ascii _) as [|a s'] eqn:E; [discriminate H|].
    assert (Ha : (a =? "-")%char = false).
    { destruct k.
      - cbn [repeat app] in E.
        rewrite String.string_of_list_ascii_of_string in E.
        destruct (@string_of_uint_head _ Hd) as (c & s & Hs & Hc).
        rewrite Hs in E. inversion E; subst.
        now apply Ascii.eqb_neq.
      - cbn in E. inversion E. reflexivity. }
    rewrite Ha, H. cbn [option_map Z.of_int]. rewrite of_uint_pad0.
    f_equal. exact (DecimalZ.of_to (Z.pos p)).
  - set (k := (width - 1 - _)%nat).
    assert (Hd : Pos.to_uint p <> Decimal.Nil)
      by apply DecimalPos.Unsigned.to_uint_nonnil.
    pose proof (@uint_of_padded k _ Hd) as H.
    cbn [String.string_of_list_ascii DecimalString.NilZero.int_of_string].
    replace ("-" =? "-")%char with true by reflexivity.
    rewrite H. cbn [option_map Z.of_int]. rewrite of_uint_pad0.
    f_equal. exact (DecimalZ.of_to (Z.neg p)).
Qed.

(** The zero-padded rendering of a number reads back as that number:
    the padding never cuts a digit, whatever the width and the sign. *)
Theorem zero_pad_read_back (width : nat) (n : Z) :
  int_of_str (Session.zero_pad width n) = Some n.
Proof. apply zero_pad_read_back_aux. Qed.

(** Screenshots taken at different milliseconds get different file
    names, and the files saved from the clipboard never take the name of
    a screenshot. *)
Theorem screenshot_names_distinct (t1 t2 : Z) :
  (Session.capture t1 = Session.capture t2 -> t1 = t2) /\
  Session.capture t1 <> Py.lit "clip_" ++ Session.zero_pad 6 t2 ++ Py.lit ".png".
Proof.
  split.
  - unfold Session.capture. intros H.
    apply app_inv_head, app_inv_tail in H.
    pose proof (zero_pad_read_back_aux 6 t1) as H1.
    pose proof (zero_pad_read_back_aux 6 t2) as H2.
    congruence.
  - unfold Session.capture. discriminate.
Qed.

(** ** The edit distance is the Levenshtein distance *)

Local Open Scope nat_scope.

Lemma lev_0_r (s1 s2 : Py.str) (i : nat) : lev s1 s2 i 0 = i.
Proof. destruct i; reflexivity. Qed.

Lemma lev_S_S (s1 s2 : Py.str) (i j : nat) :
  lev s1 s2 (S i) (S j) =
  Nat.min (lev s1 s2 i (S j) + 1)
    (Nat.min (lev s1 s2 (S i) j + 1) (lev s1 s2 i j + subst_cost s1 s2 i j)).
Proof. reflexivity. Qed.

Lemma subst_cost_sym (s1 s2 : Py.str) (i j : nat) :
  subst_cost s1 s2 i j = subst_cost s2 s1 j i.
Proof.
  unfold subst_cost.
  destruct (nth_error s1 i) as [a|], (nth_error s2 j) as [b|]; auto.
  destruct (ascii_dec a b), (ascii_dec b a); congruence.
Qed.

Lemma lev_sym (s1 s2 : Py.str) (i : nat) :
  forall j, lev s1 s2 i j = lev s2 s1 j i.
Proof.
  induction i as [|i IHi]; intros j.
  - now rewrite lev_0_r.
  - induction j as [|j IHj].
    + now rewrite lev_0_r.
    + rewrite !lev_S_S, IHj, (IHi (S j)), (IHi j), subst_cost_sym. lia.
Qed.

Lemma next_row_lev (s1 s2 : Py.str) (i : nat) (c1 : ascii) :
  nth_error s1 i = Some c1 ->
  forall (rest : Py.str) (j0 : nat) (prev : list nat) (left : nat),
    (forall k, k < List.length rest ->
               nth_error rest k = nth_error s2 (j0 + k)) ->
    (forall k, k <= List.length rest -> nth k prev 0 = lev s1 s2 i (j0 + k)) ->
    left = lev s1 s2 (S i) j0 ->
    forall k, k < List.length rest ->
              nth k (next_row c1 rest prev left) 0 = lev s1 s2 (S i) (j0 + S k).
Proof.
  intros Hc. induction rest as [|c2 rest IH];
    intros j0 prev left Hrest Hprev Hleft k Hk; simpl in Hk; [lia|].
  assert (Hv : Nat.min (nth 1 prev 0 + 1)
                 (Nat.min (left + 1)
                    (nth 0 prev 0 + (if ascii_dec c1 c2 then 0 else 1))) =
               lev s1 s2 (S i) (S j0)).
  { assert (Hc2 : nth_error s2 j0 = Some c2).
    { rewrite <- (Nat.add_0_r j0). rewrite <- (Hrest 0) by (simpl; lia).
      reflexivity. }
    rewrite lev_S_S.
    rewrite (Hprev 1) by (simpl; lia). rewrite (Hprev 0) by (simpl; lia).
    replace (j0 + 1) with (S j0) by lia. rewrite Nat.add_0_r, Hleft.
    unfold subst_cost. rewrite Hc, Hc2. reflexivity. }
  cbn [next_row]. rewrite Hv.
  destruct k as [|k]; cbn [nth].
  - now rewrite Nat.add_1_r.
  - replace (j0 + S (S k)) with (S j0 + S k) by lia.
    apply IH; try lia; auto.
    + intros k' Hk'. replace (S j0 + k') with (j0 + S k') by lia.
      apply (Hrest (S k')). simpl. lia.
    + intros k' Hk'. replace (S j0 + k') with (j0 + S k') by lia.
      rewrite <- (Hprev (S k')) by (simpl; lia).
      destruct prev; [now destruct k'|reflexivity].
Qed.

Lemma outer_loop_lev (s1 s2 : Py.str) :
  forall (rest done : Py.str) (prev : list nat),
    s1 = done ++ rest ->
    (forall j, j <= List.length s2 ->
               nth j prev 0 = lev s1 s2 (List.length done) j) ->
    forall j, j <= List.length s2 ->
              nth j (Voice.outer_loop rest (List.length done) s2 prev) 0 =
              lev s1 s2 (List.length s1) j.
Proof.
  induction rest as [|c1 rest IH]; intros done prev Hs Hprev j Hj.
  - rewrite app_nil_r in Hs. subst done. now apply Hprev.
  - rewrite outer_loop_step.
    assert (Hl : List.length (done ++ [c1]) = S (List.length done))
      by (rewrite length_app; simpl; lia).
    rewrite <- Hl.
    apply IH; auto.
    + rewrite <- app_assoc. exact Hs.
    + intros j' Hj'. rewrite Hl. destruct j' as [|j']; [reflexivity|].
      cbn [nth].
      apply (@next_row_lev s1 s2 (List.length done) c1) with (j0 := 0);
        auto; try lia.
      subst s1. rewrite nth_error_app2 by lia.
      now rewrite Nat.sub_diag.
Qed.

Lemma edit_distance_lev_aux (s1 s2 : Py.str) :
  Voice.edit_distance s1 s2 = lev s1 s2 (List.length s1) (List.length s2).
Proof.
  assert (Hgen : forall a b : Py.str,
             (if List.length b =? 0 then List.length a
              else last (Voice.outer_loop a 0 b (seq 0 (List.length b + 1))) 0)
             = lev a b (List.length a) (List.length b)).
  { intros a b. destruct (List.length b =? 0) eqn:Hb0.
    - apply Nat.eqb_eq in Hb0. now rewrite Hb0, lev_0_r.
    - destruct (@outer_loop_above a b 0 (seq 0 (List.length b + 1)))
        as [Hlen _].
      + rewrite length_seq. lia.
      + apply seq_above.
      + rewrite last_nth, Hlen.
        replace (S (List.length b) - 1) with (List.length b) by lia.
        apply (@outer_loop_lev a b a [] (seq 0 (List.length b + 1)));
          auto.
        intros j Hj. rewrite seq_nth by lia. reflexivity. }
  unfold Voice.edit_distance.
  destruct (List.length s1 <? List.length s2).
  - rewrite Hgen. symmetry. apply lev_sym.
  - apply Hgen.
Qed.

(** [edit_distance] computes the Levenshtein distance of its two
    arguments, as the recurrence on their prefixes defines it: the swap
    of the arguments and the rows kept one at a time change nothing. *)
Theorem edit_distance_is_levenshtein (s1 s2 : Py.str) :
  Voice.edit_distance s1 s2 = lev s1 s2 (List.length s1) (List.length s2) /\
  (forall i j,
     lev s1 s2 (S i) (S j) =
     Nat.min (lev s1 s2 i (S j) + 1)
       (Nat.min (lev s1 s2 (S i) j + 1)
          (lev s1 s2 i j + subst_cost s1 s2 i j))) /\
  (forall i, lev s1 s2 i 0 = i) /\ (forall j, lev s1 s2 0 j = j).
Proof.
  split; [apply edit_distance_lev_aux|].
  split; [intros i j; apply lev_S_S|].
  split; [intros i; apply lev_0_r|reflexivity].
Qed.

(** The distance does not depend on the order of its arguments. *)
Theorem edit_distance_symmetric (s1 s2 : Py.str) :
  Voice.edit_distance s1 s2 = Voice.edit_distance s2 s1.
Proof.
  rewrite !edit_distance_lev_aux. apply lev_sym.
Qed.

Local Close Scope nat_scope.

(** ** The structured report *)

Lemma Permutation_filter_same (A : Type) (f : A -> bool) (l l' : list A) :
  Permutation l l' -> Permutation (filter f l) (filter f l').
Proof.
  induction 1 as [|x l l' _ IH|x y l|l l' l'' _ IH1 _ IH2]; simpl.
  - constructor.
  - destruct (f x); auto.
  - destruct (f x), (f y); auto. constructor.
  - now transitivity (filter f l').
Qed.

Lemma filter_map_none (A B : Type) (g : A -> B) (f : B -> bool) (l : list A) :
  (forall x, f (g x) = false) -> filter f (map g l) = [].
Proof.
  intros H. induction l as [|x l IH]; simpl; auto. now rewrite H.
Qed.

Lemma filter_map_all (A B : Type) (g : A -> B) (f : B -> bool) (l : list A) :
  (forall x, f (g x) = true) -> filter f (map g l) = map g l.
Proof.
  intros H. induction l as [|x l IH]; simpl; auto. now rewrite H, IH.
Qed.

Lemma count_entries (ty : EventType) (l : list Event) :
  ty <> KEYSTROKE ->
  List.length
    (filter (entry_has_type ty)
       (map entry_of (filter (fun e => negb (is_keystroke e)) l))) =
  List.length (filter (fun e => EventType_eqb (type e) ty) l).
Proof.
  intros Hty. induction l as [|e l IH]; [reflexivity|].
  cbn [filter]. unfold is_keystroke at 1.
  destruct (EventType_eqb (type e) KEYSTROKE) eqn:Hk; cbn [negb].
  - rewrite IH. apply EventType_eqb_eq in Hk. rewrite Hk.
    destruct ty; try reflexivity. congruence.
  - cbn [map filter].
    change (entry_has_type ty (entry_of e)) with (EventType_eqb (type e) ty).
    destruct (EventType_eqb (type e) ty); cbn [List.length]; now rewrite IH.
Qed.

(** Whenever [generate] returns, the [events] array of the report is in
    the order of the timestamps; it holds the events of the timeline
    that are not keystrokes and the keystroke sequences, each once, and
    no keystroke event; and the statistics count what the array shows:
    the sequences, the screenshot events and the clipboard events. *)
Theorem generate_events_consistent (tl : Timeline) (cfg : SessionConfig)
    (full_transcript : Py.str) (now : Z) (r : JsonOutput.Result)
    (Hgen : JsonOutput.generate tl cfg full_transcript now = Some r) :
  let out := JsonOutput.out_events r in
  let stats := JsonOutput.out_statistics r in
  StronglySorted (key_le JsonOutput.entry_timestamp_ms) out /\
  (exists runs,
     Json._reconstruct_keystroke_sequences (chronological tl) = Some runs /\
     Permutation out
       (map entry_of (filter (fun e => negb (is_keystroke e)) (events tl)) ++
        map JsonOutput.sequence_entry runs)) /\
  Forall (fun e => entry_has_type KEYSTROKE e = false) out /\
  JsonOutput.keystroke_sequences_count stats =
    Z.of_nat (List.length (filter is_sequence_entry out)) /\
  JsonOutput.screenshots_count stats =
    Z.of_nat (List.length (filter (entry_has_type SCREENSHOT) out)) /\
  JsonOutput.clipboard_events_count stats =
    Z.of_nat (List.length (filter (entry_has_type CLIPBOARD) out)).
Proof.
  intros out stats. subst out stats.
  unfold JsonOutput.generate in Hgen.
  destruct (Json._reconstruct_keystroke_sequences (chronological tl))
    as [runs|] eqn:Hruns; [|discriminate].
  destruct (JsonOutput.word_count (chronological tl)) as [words|];
    [|discriminate].
  inversion Hgen; subst r; clear Hgen.
  cbn [JsonOutput.out_events JsonOutput.out_statistics
       JsonOutput.keystroke_sequences_count JsonOutput.screenshots_count
       JsonOutput.clipboard_events_count].
  fold entry_of.
  set (kept := filter (fun e => negb (is_keystroke e)) (chronological tl)).
  set (unsorted := map entry_of kept ++ map JsonOutput.sequence_entry runs).
  pose proof (@py_sorted_perm _ JsonOutput.entry_timestamp_ms unsorted) as Hperm.
  assert (Hcount : forall f,
             List.length (filter f (py_sorted JsonOutput.entry_timestamp_ms unsorted)) =
             (List.length (filter f (map entry_of kept)) +
              List.length (filter f (map JsonOutput.sequence_entry runs)))%nat).
  { intros f.
    rewrite (Permutation_length (Permutation_filter_same f Hperm)).
    unfold unsorted. now rewrite filter_app, length_app. }
  split; [apply py_sorted_sorted|]. split; [|split; [|split; [|split]]].
  - exists runs. split; [reflexivity|].
    etransitivity; [exact Hperm|]. unfold unsorted, kept.
    apply Permutation_app_tail, Permutation_map, Permutation_filter_same.
    apply py_sorted_perm.
  - apply Forall_forall. intros e He.
    apply (Permutation_in _ Hperm) in He. unfold unsorted in He.
    apply in_app_or in He. destruct He as [He|He]; apply in_map_iff in He.
    + destruct He as (ev & <- & Hev). apply filter_In in Hev.
      destruct Hev as [_ Hk]. unfold is_keystroke in Hk.
      now apply negb_true_iff in Hk.
    + destruct He as (s & <- & _). reflexivity.
  - rewrite Hcount.
    rewrite filter_map_none by reflexivity.
    rewrite filter_map_all by reflexivity.
    now rewrite length_map.
  - rewrite Hcount. unfold kept.
    rewrite count_entries by discriminate.
    rewrite filter_map_none by reflexivity.
    unfold JsonOutput.count_type. now rewrite Nat.add_0_r.
  - rewrite Hcount. unfold kept.
    rewrite count_entries by discriminate.
    rewrite filter_map_none by reflexivity.
    unfold JsonOutput.count_type. now rewrite Nat.add_0_r.
Qed.

Lemma generate_events_consistent_witness :
  let tl :=
    add_event (ScreenshotEvent 300 (Py.lit "img_000300.png") (Py.lit "hotkey"))
      (add_event (KeystrokeEvent 900 (Py.lit "b") false)
         (add_event (KeystrokeEvent 100 (Py.lit "a") false)
            (add_event (mkEvent SESSION_START 0 []) Timeline_new))) in
  exists r,
    JsonOutput.generate tl default_config [] 0 = Some r /\
    JsonOutput.keystroke_sequences_count (JsonOutput.out_statistics r) =
      Z.of_nat (List.length (filter is_sequence_entry (JsonOutput.out_events r))).
Proof.
  intros tl. eexists. split; [reflexivity|].
  exact (proj1 (proj2 (proj2 (proj2
           (@generate_events_consistent tl default_config [] 0 _ eq_refl))))).
Defined.

(** ** Time stamps of the narrative report *)

Lemma zero_pad_two_digits (n : Z) :
  0 <= n < 100 -> List.length (Session.zero_pad 2 n) = 2%nat.
Proof.
  intros Hn.
  assert (Hall : forallb
            (fun k => (List.length (Session.zero_pad 2 (Z.of_nat k)) =? 2)%nat)
            (seq 0 100) = true) by (vm_compute; reflexivity).
  rewrite forallb_forall in Hall.
  specialize (Hall (Z.to_nat n)). rewrite Z2Nat.id in Hall by lia.
  apply Nat.eqb_eq, Hall. apply in_seq. lia.
Qed.

(** A time stamp shows the whole seconds of its argument, split into
    hours, minutes below 60 and seconds below 60, each zero-padded to
    two characters; from 0 up to 100 hours it is ten characters long,
    the hours taking more room beyond. *)
Theorem format_timestamp_fields (ms : Z) :
  exists h m s,
    MarkdownOutput._format_timestamp ms =
      Py.lit "[" ++ Session.zero_pad 2 h ++ Py.lit ":" ++
      Session.zero_pad 2 m ++ Py.lit ":" ++ Session.zero_pad 2 s ++ Py.lit "]" /\
    0 <= m < 60 /\ 0 <= s < 60 /\
    3600 * h + 60 * m + s = ms / 1000 /\
    (0 <= ms < 360000000 ->
     0 <= h < 100 /\
     List.length (MarkdownOutput._format_timestamp ms) = 10%nat).
Proof.
  exists (ms / 1000 / 3600), ((ms / 1000) mod 3600 / 60), ((ms / 1000) mod 60).
  split; [reflexivity|].
  assert (Hm : 0 <= (ms / 1000) mod 3600 / 60 < 60)
    by (Z.div_mod_to_equations; lia).
  assert (Hs : 0 <= (ms / 1000) mod 60 < 60)
    by (Z.div_mod_to_equations; lia).
  split; [exact Hm|]. split; [exact Hs|].
  split; [Z.div_mod_to_equations; lia|].
  intros Hms.
  assert (Hh : 0 <= ms / 1000 / 3600 < 100) by (Z.div_mod_to_equations; lia).
  split; [exact Hh|].
  unfold MarkdownOutput._format_timestamp. cbv zeta.
  rewrite !length_app, !zero_pad_two_digits by lia.
  reflexivity.
Qed.

(** ** The transcription worker *)

Lemma strip_trimmed (s : Py.str) : Py.strip s <> [] -> trimmed (Py.strip s).
Proof.
  unfold Py.strip, Py.strip_by, Py.rstrip_by, Py.lstrip_by.
  set (t := Py.dropwhile Py.isspace s).
  destruct (Py.dropwhile Py.isspace (rev t)) as [|b u] eqn:Hu;
    [intros H; now elim H|].
  intros _.
  pose proof (dropwhile_head _ _ Hu) as Hb.
  destruct (dropwhile_suffix Py.isspace (rev t)) as [pre Hpre].
  rewrite Hu in Hpre.
  assert (Ht : t = rev u ++ [b] ++ rev pre).
  { rewrite <- (rev_involutive t), Hpre, rev_app_distr. simpl.
    now rewrite <- app_assoc. }
  simpl rev.
  destruct (rev u) as [|a mid] eqn:Hru.
  - exists b, [], b. auto.
  - exists a, mid, b. split; [|split; [exact Hb|now right]].
    apply (@dropwhile_head Py.isspace s a (mid ++ [b] ++ rev pre)).
    fold t. rewrite Ht. reflexivity.
Qed.

Lemma trimmed_strip (s : Py.str) : trimmed s -> Py.strip s = s.
Proof.
  intros (a & mid & b & Ha & Hb & [-> | ->]); unfold Py.strip.
  - now apply strip_by_single.
  - now apply strip_by_ends.
Qed.

Lemma trimmed_app (x y : Py.str) (sep : Py.str) :
  trimmed x -> trimmed y -> trimmed (x ++ sep ++ y).
Proof.
  intros (a & mid & b & Ha & Hb & Hx) (a2 & mid2 & b2 & Ha2 & Hb2 & Hy).
  exists a.
  destruct Hx as [-> | ->], Hy as [-> | ->].
  - exists sep, a2. split; [exact Ha|]. split; [exact Ha2|]. now right.
  - exists (sep ++ a2 :: mid2), b2. split; [exact Ha|]. split; [exact Hb2|].
    right. simpl. now rewrite <- app_assoc.
  - exists (mid ++ b :: sep), a2. split; [exact Ha|]. split; [exact Ha2|].
    right. simpl. rewrite <- !app_assoc. reflexivity.
  - exists (mid ++ b :: sep ++ a2 :: mid2), b2.
    split; [exact Ha|]. split; [exact Hb2|].
    right. simpl. rewrite <- !app_assoc. simpl. rewrite <- !app_assoc.
    reflexivity.
Qed.

Lemma join_trimmed (sep : Py.str) (parts : list Py.str) :
  parts <> [] -> Forall trimmed parts -> trimmed (Py.join sep parts).
Proof.
  intros Hne Hall. induction Hall as [|p parts Hp Hps IH]; [congruence|].
  destruct parts as [|q parts]; [exact Hp|].
  change (Py.join sep (p :: q :: parts))
    with (p ++ sep ++ Py.join sep (q :: parts)).
  apply trimmed_app; auto. apply IH. discriminate.
Qed.

Lemma text_parts_trimmed (segments : list Py.str) :
  Forall trimmed (filter Py.truthy (map Py.strip segments)).
Proof.
  apply Forall_forall. intros p Hp. apply filter_In in Hp.
  destruct Hp as [Hin Ht]. apply in_map_iff in Hin.
  destruct Hin as (seg & <- & _). apply strip_trimmed.
  intros E. rewrite E in Ht. discriminate.
Qed.

Section WorkerProperties.

Variable Sample : Type.
Variable quiet : list Sample -> bool.
Variable transcribe : list Sample -> option (list Py.str * Z).

Lemma transcribe_buffer_effects (w : Transcription.TranscriptionWorker Sample) :
  let r := Transcription._transcribe_buffer quiet transcribe w in
  Forall (@clean_call Sample) (snd r) /\
  held w = consumed (snd r) ++ held (fst r) /\
  (counted w -> counted (fst r)) /\
  (Transcription.model w = true -> Transcription.audio_buffer (fst r) = []) /\
  (Transcription.model w = false -> r = (w, [])).
Proof.
  unfold Transcription._transcribe_buffer.
  destruct (Transcription.audio_buffer w) as [|c0 cs] eqn:Hbuf.
  - cbn. repeat split; auto; try discriminate.
  - destruct (Transcription.model w) eqn:Hmodel; cbn [negb].
    2:{ cbn. repeat split; auto; try discriminate. }
    assert (Hheld : held w = List.concat (c0 :: cs))
      by (unfold held; now rewrite Hbuf).
    assert (Hdone : forall effs,
              Forall (@clean_call Sample) effs ->
              consumed effs = List.concat (c0 :: cs) ->
              let r := (Transcription.set_audio w [] 0, effs) in
              Forall (@clean_call Sample) (snd r) /\
              held w = consumed (snd r) ++ held (fst r) /\
              (counted w -> counted (fst r)) /\
              (true = true -> Transcription.audio_buffer (fst r) = []) /\
              (true = false -> r = (w, []))).
    { intros effs Hclean Hcons. cbn [fst snd].
      split; [exact Hclean|]. split.
      - rewrite Hcons, Hheld. unfold held. cbn. now rewrite app_nil_r.
      - split; [intros _; reflexivity|]. split; [reflexivity|discriminate]. }
    destruct (List.concat (c0 :: cs)) as [|x audio] eqn:Haudio.
    + apply Hdone; [repeat constructor|]. unfold consumed. cbn.
      reflexivity.
    + destruct (quiet (x :: audio)).
      * apply Hdone; [repeat constructor|]. unfold consumed. cbn.
        now rewrite app_nil_r.
      * destruct (transcribe (x :: audio)) as [[segments p]|].
        -- pose proof (text_parts_trimmed segments) as Hparts.
           destruct (filter Py.truthy (map Py.strip segments)) as [|t ts] eqn:Hf;
             cbn [andb].
           ++ apply Hdone; [repeat constructor|]. unfold consumed. cbn.
              now rewrite app_nil_r.
           ++ destruct (Transcription.on_transcript w).
              ** apply Hdone.
                 --- constructor; [exact I|]. constructor; [|constructor].
                     assert (Ht : trimmed (Py.join (Py.lit " ") (t :: ts)))
                       by (apply join_trimmed; [discriminate|exact Hparts]).
                     split; [reflexivity|]. split; [exact Ht|].
                     now apply trimmed_strip.
                 --- unfold consumed. cbn. now rewrite app_nil_r.
              ** apply Hdone; [repeat constructor|]. unfold consumed. cbn.
                 now rewrite app_nil_r.
        -- apply Hdone; [repeat constructor|]. unfold consumed. cbn.
           now rewrite app_nil_r.
Qed.

Lemma held_add (w : Transcription.TranscriptionWorker Sample)
    (chunk : list Sample) :
  held (Transcription.set_audio w (Transcription.audio_buffer w ++ [chunk])
          (Transcription.buffer_samples w + Z.of_nat (List.length chunk))) =
  held w ++ chunk.
Proof.
  unfold held. cbn. rewrite concat_app. cbn. now rewrite app_nil_r.
Qed.

(** Feeding one chunk to a worker whose counter is right: the counter
    stays right; no sample is lost or repeated, the audio held before
    and the chunk being what was taken out followed by what is still
    held; with a model loaded the buffer is left below the target or
    empty; without one the chunk is only stored, so that the buffer
    keeps growing. *)
Theorem add_audio_buffer (w : Transcription.TranscriptionWorker Sample)
    (chunk : list Sample) (Hcounted : counted w) :
  let r := Transcription.add_audio quiet transcribe w chunk in
  counted (fst r) /\
  held w ++ chunk = consumed (snd r) ++ held (fst r) /\
  (Transcription.model w = true ->
   Transcription.buffer_samples (fst r) < Transcription.target_samples w \/
   Transcription.audio_buffer (fst r) = []) /\
  (Transcription.model w = false ->
   Transcription.audio_buffer (fst r) = Transcription.audio_buffer w ++ [chunk] /\
   snd r = []).
Proof.
  intros r. subst r. unfold Transcription.add_audio.
  set (w1 := Transcription.set_audio w _ _).
  assert (Hc1 : counted w1).
  { unfold counted, w1. rewrite held_add, length_app.
    cbn. unfold counted in Hcounted. lia. }
  assert (Hh1 : held w1 = held w ++ chunk) by apply held_add.
  destruct (Transcription.buffer_samples w1 >=? Transcription.target_samples w1)
    eqn:Hfull.
  - destruct (transcribe_buffer_effects w1) as (_ & Hcons & Hcnt & Hm & Hnm).
    split; [now apply Hcnt|]. split; [now rewrite <- Hh1|]. split.
    + intros Hmodel. right. apply Hm. exact Hmodel.
    + intros Hmodel. rewrite (Hnm Hmodel). split; reflexivity.
  - cbn [fst snd]. split; [exact Hc1|]. split; [now rewrite Hh1|]. split.
    + intros _. left. rewrite Z.geb_leb in Hfull. apply Z.leb_gt in Hfull.
      exact Hfull.
    + intros _. split; reflexivity.
Qed.

(** Whatever the worker passes to its callback, from [add_audio] or from
    [flush], is a final text (never a partial one) that is not empty and
    neither starts nor ends with whitespace. *)
Theorem delivered_text_is_clean (w : Transcription.TranscriptionWorker Sample)
    (chunk : list Sample) :
  Forall (@clean_call Sample)
         (snd (Transcription.add_audio quiet transcribe w chunk)) /\
  Forall (@clean_call Sample) (snd (Transcription.flush quiet transcribe w)).
Proof.
  split.
  - unfold Transcription.add_audio.
    destruct (_ >=? _); [|constructor].
    apply transcribe_buffer_effects.
  - unfold Transcription.flush.
    destruct (_ && _); [|constructor].
    apply transcribe_buffer_effects.
Qed.

End WorkerProperties.

Lemma add_audio_buffer_witness :
  let w :=
    Transcription.load_model (@Transcription.new Z true 4 16000 None) in
  let r :=
    Transcription.add_audio (fun _ => false)
      (fun _ => Some ([Py.lit "  hello "; Py.lit " "; Py.lit "world"], 1))
      (fst (Transcription.add_audio (fun _ => false) (fun _ => None) w [1; 2]))
      [3; 4; 5] in
  counted (fst r) /\ consumed (snd r) = [1; 2; 3; 4; 5].
Proof.
  intros w r.
  assert (H0 : counted w) by reflexivity.
  pose proof (@add_audio_buffer Z (fun _ => false) (fun _ => None) w [1; 2] H0)
    as (H1 & _).
  pose proof (@add_audio_buffer Z (fun _ => false)
                (fun _ => Some ([Py.lit "  hello "; Py.lit " "; Py.lit "world"], 1))
                _ [3; 4; 5] H1) as (H2 & _).
  split; [exact H2|reflexivity].
Defined.
(** ** The clipboard monitor *)

Lemma str_eqb_neq (a b : Py.str) : Py.str_eqb a b = false -> a <> b.
Proof. intros H E. apply str_eqb_eq in E. congruence. Qed.

Section MonitorProperties.

Variable md5 : list Byte.byte -> Py.str.

(** What one round reports, and what it remembers. *)
Lemma poll_reports (m : Clipboard.ClipboardMonitor) (r : Clipboard.Reading) :
  let m' := fst (Clipboard.poll md5 m r) in
  let calls := snd (Clipboard.poll md5 m r) in
  Clipboard.on_change m' = Clipboard.on_change m /\
  Clipboard.on_image m' = Clipboard.on_image m /\
  (Clipboard.on_change m = false -> texts_of calls = []) /\
  (Clipboard.on_image m = false -> hashes_of md5 calls = []) /\
  (Clipboard.on_change m = true ->
   (texts_of calls = [] /\ Clipboard.last_content m' = Clipboard.last_content m) \/
   exists t, texts_of calls = [t] /\ t <> [] /\ t <> Clipboard.last_content m /\
             Clipboard.last_content m' = t) /\
  (Clipboard.on_image m = true ->
   (hashes_of md5 calls = [] /\
    Clipboard.last_image_hash m' = Clipboard.last_image_hash m) \/
   exists h, hashes_of md5 calls = [h] /\ h <> Clipboard.last_image_hash m /\
             Clipboard.last_image_hash m' = h).
Proof.
  unfold Clipboard.poll.
  destruct (Clipboard.image_data r) as [[|b bs]|].
  2:{ destruct (Py.str_eqb (md5 (b :: bs)) (Clipboard.last_image_hash m)) eqn:He;
        cbn [negb]; [cbn; auto 10|].
      apply str_eqb_neq in He.
      destruct (Clipboard.on_image m) eqn:Hcb; cbn [fst snd];
        cbn [Clipboard.on_change Clipboard.on_image Clipboard.last_content
             Clipboard.last_image_hash texts_of hashes_of flat_map app].
      - repeat split; auto; try discriminate.
        intros _. right. exists (md5 (b :: bs)). auto.
      - repeat split; auto; try discriminate. }
  all: destruct (Clipboard.paste r) as [current|]; [|cbn; auto 10];
    destruct (Py.truthy current) eqn:Ht; cbn [andb]; [|cbn; auto 10];
    destruct (Py.str_eqb current (Clipboard.last_content m)) eqn:He;
    cbn [negb]; [cbn; auto 10|];
    apply str_eqb_neq in He;
    assert (Hnil : current <> []) by (intros ->; discriminate);
    destruct (Clipboard.on_change m) eqn:Hcb; cbn [fst snd];
    cbn [Clipboard.on_change Clipboard.on_image Clipboard.last_content
         Clipboard.last_image_hash texts_of hashes_of flat_map app];
    repeat split; auto; try discriminate;
    intros _; right; exists current; auto.
Qed.

Lemma monitor_loop_reports (readings : list Clipboard.Reading) :
  forall m : Clipboard.ClipboardMonitor,
    let calls := snd (Clipboard._monitor_loop md5 m readings) in
    (Clipboard.on_change m = false -> texts_of calls = []) /\
    (Clipboard.on_image m = false -> hashes_of md5 calls = []) /\
    (Clipboard.on_change m = true ->
     no_repeat (Clipboard.last_content m) (texts_of calls)) /\
    (Clipboard.on_image m = true ->
     no_repeat (Clipboard.last_image_hash m) (hashes_of md5 calls)) /\
    Forall (fun t => t <> []) (texts_of calls).
Proof.
  induction readings as [|r rest IH]; intros m; [cbn; auto 10|].
  cbn [Clipboard._monitor_loop].
  pose proof (poll_reports m r) as (Hc & Hi & Ht0 & Hh0 & Ht1 & Hh1).
  destruct (Clipboard.poll md5 m r) as [m1 calls1]. cbn [fst snd] in *.
  specialize (IH m1).
  destruct (Clipboard._monitor_loop md5 m1 rest) as [m2 calls2].
  cbn [fst snd] in *. destruct IH as (IHt0 & IHh0 & IHt1 & IHh1 & IHne).
  rewrite Hc in IHt0, IHt1. rewrite Hi in IHh0, IHh1.
  assert (Eto : texts_of (calls1 ++ calls2) = texts_of calls1 ++ texts_of calls2)
    by apply flat_map_app.
  assert (Eho : hashes_of md5 (calls1 ++ calls2) =
                hashes_of md5 calls1 ++ hashes_of md5 calls2)
    by apply flat_map_app.
  rewrite Eto, Eho.
  split; [|split; [|split; [|split]]].
  - intros Hoff. now rewrite Ht0, IHt0.
  - intros Hoff. now rewrite Hh0, IHh0.
  - intros Hon. specialize (IHt1 Hon).
    destruct (Ht1 Hon) as [[E Hl]|(t & E & _ & Hne & Hl)]; rewrite E;
      rewrite Hl in IHt1; cbn [app no_repeat]; auto.
  - intros Hon. specialize (IHh1 Hon).
    destruct (Hh1 Hon) as [[E Hl]|(h & E & Hne & Hl)]; rewrite E;
      rewrite Hl in IHh1; cbn [app no_repeat]; auto.
  - apply Forall_app. split; [|exact IHne].
    destruct (Clipboard.on_change m) eqn:Hcb.
    + destruct (Ht1 eq_refl) as [[E _]|(t & E & Hnil & _)]; rewrite E;
        repeat constructor. exact Hnil.
    + rewrite Ht0 by reflexivity. constructor.
Qed.

(** The monitor reports changes only: over any rounds of its loop, no
    text it reports equals the text reported just before it (for the
    first one, the text it remembered, which [start] takes from the
    clipboard), the same holds for the hashes of the images it reports,
    and no reported text is empty. *)
Theorem clipboard_reports_changes_only (m : Clipboard.ClipboardMonitor)
    (readings : list Clipboard.Reading) :
  let calls := snd (Clipboard._monitor_loop md5 m readings) in
  no_repeat (Clipboard.last_content m) (texts_of calls) /\
  no_repeat (Clipboard.last_image_hash m) (hashes_of md5 calls) /\
  Forall (fun t => t <> []) (texts_of calls) /\
  (forall (start_time : Z) (first : Clipboard.Reading) (held : Py.str),
     Clipboard.paste first = Some held ->
     no_repeat held
       (texts_of
          (snd (Clipboard._monitor_loop md5
                  (Clipboard.start md5 m start_time first) readings)))).
Proof.
  assert (Hgen : forall m0 : Clipboard.ClipboardMonitor,
            no_repeat (Clipboard.last_content m0)
              (texts_of (snd (Clipboard._monitor_loop md5 m0 readings))) /\
            no_repeat (Clipboard.last_image_hash m0)
              (hashes_of md5 (snd (Clipboard._monitor_loop md5 m0 readings)))).
  { intros m0.
    destruct (monitor_loop_reports readings m0) as (Ht0 & Hh0 & Ht1 & Hh1 & _).
    split.
    - destruct (Clipboard.on_change m0); [now apply Ht1|].
      rewrite Ht0 by reflexivity. exact I.
    - destruct (Clipboard.on_image m0); [now apply Hh1|].
      rewrite Hh0 by reflexivity. exact I. }
  intros calls. subst calls.
  split; [apply Hgen|]. split; [apply Hgen|]. split.
  - apply monitor_loop_reports.
  - intros start_time first held Hpaste.
    destruct (Hgen (Clipboard.start md5 m start_time first)) as [H _].
    cbn [Clipboard.start Clipboard.last_content] in H.
    now rewrite Hpaste in H.
Qed.

End MonitorProperties.

(** ** The input device *)

Lemma find_from_ge (device : Py.str) (devices : list Audio.Device) :
  forall i r, Audio.find_from device i devices = Some r -> i <= r.
Proof.
  induction devices as [|d rest IH]; intros i r H; simpl in H; [discriminate|].
  destruct (Audio.device_matches device d).
  - inversion H. lia.
  - apply IH in H. lia.
Qed.

Lemma find_from_first (device : Py.str) (devices : list Audio.Device) :
  forall (z : Z) (i : nat),
    Audio.find_from device z devices = Some (z + Z.of_nat i) <->
    (exists d, nth_error devices i = Some d /\
               Audio.device_matches device d = true) /\
    (forall k d, (k < i)%nat -> nth_error devices k = Some d ->
                 Audio.device_matches device d = false).
Proof.
  induction devices as [|d rest IH]; intros z i.
  - simpl. split; [discriminate|].
    intros [(d & Hd & _) _]. destruct i; discriminate.
  - cbn [Audio.find_from].
    destruct (Audio.device_matches device d) eqn:Hm.
    + split.
      * intros H. assert (i = 0%nat) by (inversion H; lia). subst i.
        split; [exists d; auto|]. intros k d' Hk. lia.
      * intros [_ Hfirst]. destruct i as [|i].
        -- f_equal. lia.
        -- specialize (Hfirst 0%nat d ltac:(lia) eq_refl). congruence.
    + destruct i as [|i].
      * split.
        -- intros H. apply find_from_ge in H. lia.
        -- intros [(d' & Hd' & Hm') _]. simpl in Hd'. congruence.
      * replace (z + Z.of_nat (S i)) with ((z + 1) + Z.of_nat i) by lia.
        rewrite IH. cbn [nth_error]. split.
        -- intros [Hex Hfirst]. split; [exact Hex|].
           intros k d' Hk Hd'. destruct k as [|k].
           ++ simpl in Hd'. congruence.
           ++ apply (Hfirst k d'); [lia|exact Hd'].
        -- intros [Hex Hfirst]. split; [exact Hex|].
           intros k d' Hk Hd'. apply (Hfirst (S k) d'); [lia|exact Hd'].
Qed.

Lemma find_from_none (device : Py.str) (devices : list Audio.Device) :
  forall z,
    Audio.find_from device z devices = None <->
    Forall (fun d => Audio.device_matches device d = false) devices.
Proof.
  induction devices as [|d rest IH]; intros z; cbn [Audio.find_from].
  - split; auto.
  - destruct (Audio.device_matches device d) eqn:Hm.
    + split; [discriminate|]. intros H. inversion H. congruence.
    + rewrite IH. split; [auto|]. intros H. now inversion H.
Qed.

(** The device chosen is the first one, in the order of the list, whose
    name holds the wanted name (whatever the case of the letters) and
    that has input channels; there is none when no name is wanted or no
    device fits. *)
Theorem find_device_index_first_match (device : Py.str)
    (devices : list Audio.Device) (i : nat) :
  (Audio._find_device_index (Some device) devices = Some (Z.of_nat i) <->
   (exists d, nth_error devices i = Some d /\
              Audio.device_matches device d = true) /\
   (forall k d, (k < i)%nat -> nth_error devices k = Some d ->
                Audio.device_matches device d = false)) /\
  (Audio._find_device_index (Some device) devices = None <->
   Forall (fun d => Audio.device_matches device d = false) devices) /\
  Audio._find_device_index None devices = None /\
  (forall r, Audio._find_device_index (Some device) devices = Some r ->
             0 <= r < Z.of_nat (List.length devices)).
Proof.
  cbn [Audio._find_device_index].
  split; [apply (find_from_first device devices 0 i)|].
  split; [apply find_from_none|]. split; [reflexivity|].
  intros r Hr.
  pose proof (find_from_ge _ _ _ Hr) as Hge.
  assert (Hi : r = 0 + Z.of_nat (Z.to_nat r)) by lia.
  rewrite Hi in Hr. apply find_from_first in Hr.
  destruct Hr as [(d & Hd & _) _].
  assert (Hlt : (Z.to_nat r < List.length devices)%nat).
  { apply nth_error_Some. congruence. }
  lia.
Qed.

(** ** The event queue between the threads *)

Lemma consumer_step_events (s s' : Consumer.Shared) (put : list Event) :
  Consumer.Step s put s' -> all_events s' = all_events s ++ put.
Proof.
  intros H. destruct H as [s e|s|s e q Ha He Hq|s e Ha He|s Ha He Hr Hq];
    unfold all_events;
    cbn [Consumer.timeline Consumer.event Consumer.event_queue];
    rewrite ?He, ?Hq; cbn [app]; rewrite ?app_nil_r, <- ?app_assoc;
    reflexivity.
Qed.

Lemma consumer_step_returned (s s' : Consumer.Shared) (put : list Event) :
  Consumer.Step s put s' ->
  Consumer.alive s = false ->
  Consumer.alive s' = false /\ Consumer.event s' = Consumer.event s /\
  Consumer.timeline s' = Consumer.timeline s /\
  Consumer.event_queue s' = Consumer.event_queue s ++ put.
Proof.
  intros H Hgone.
  destruct H as [s e|s|s e q Ha He Hq|s e Ha He|s Ha He Hr Hq];
    try congruence; cbn; repeat split; auto.
  now rewrite app_nil_r.
Qed.

(** Whatever the interleaving of the producers, of [stop] and of the
    consumer thread: the events of the timeline, then the event the
    consumer holds, then the queue, are the events that were there
    followed by the events put since, in the order they were put, so
    that nothing is lost, repeated or reordered; once the consumer has
    returned, the timeline does not change any more and what is put
    stays on the queue; and [stop] can lose its own SessionEnd event
    that way, the consumer returning between the flag being cleared and
    the event being put. *)
Theorem queue_reaches_timeline_in_order (s s' : Consumer.Shared)
    (put : list Event) (Hsteps : Consumer.Steps s put s') :
  all_events s' = all_events s ++ put /\
  (Consumer.alive s = false ->
   Consumer.timeline s' = Consumer.timeline s /\
   Consumer.event_queue s' = Consumer.event_queue s ++ put) /\
  (forall (tl : list Event) (session_end : Event),
     exists lost,
       Consumer.Steps (Consumer.mkShared tl [] true None true) [session_end] lost /\
       Consumer.alive lost = false /\
       Consumer.timeline lost = tl /\
       Consumer.event_queue lost = [session_end]).
Proof.
  split; [|split].
  - induction Hsteps as [s|s1 s2 s3 put1 put2 H1 _ IH].
    + now rewrite app_nil_r.
    + rewrite IH, (consumer_step_events H1). now rewrite app_assoc.
  - induction Hsteps as [s|s1 s2 s3 put1 put2 H1 _ IH]; intros Hgone.
    + now rewrite app_nil_r.
    + destruct (consumer_step_returned H1 Hgone) as (Ha & _ & Ht & Hq).
      destruct (IH Ha) as [IHt IHq].
      rewrite IHt, IHq, Ht, Hq. now rewrite app_assoc.
  - intros tl session_end.
    exists (Consumer.mkShared tl [session_end] false None false).
    split; [|repeat split].
    change [session_end] with ([] ++ [] ++ [session_end] ++ @nil Event).
    eapply Consumer.steps_step;
      [apply (Consumer.step_clear (Consumer.mkShared tl [] true None true))|].
    eapply Consumer.steps_step;
      [apply (Consumer.step_return (Consumer.mkShared tl [] false None true));
       reflexivity|].
    eapply Consumer.steps_step;
      [apply (Consumer.step_put (Consumer.mkShared tl [] false None false)
                session_end)|].
    apply Consumer.steps_done.
Qed.

Lemma queue_reaches_timeline_in_order_witness :
  let e1 := KeystrokeEvent 100 (Py.lit "a") false in
  let e2 := KeystrokeEvent 200 (Py.lit "b") false in
  let s := Consumer.mkShared [mkEvent SESSION_START 0 []] [e1] true None true in
  let s' := Consumer.mkShared [mkEvent SESSION_START 0 []; e1] [e2] true None true in
  all_events s' = all_events s ++ [e2].
Proof.
  intros e1 e2 s s'.
  refine (proj1 (@queue_reaches_timeline_in_order s s' [e2] _)).
  change [e2] with ([] ++ [e2] ++ [] ++ @nil Event).
  eapply Consumer.steps_step;
    [apply (@Consumer.step_get s e1 []); reflexivity|].
  eapply Consumer.steps_step; [apply Consumer.step_put|].
  eapply Consumer.steps_step;
    [apply (@Consumer.step_add_event _ e1); reflexivity|].
  apply Consumer.steps_done.
Defined.
